(** * Selection and state synchronisation engine of the AI-skills dashboard

    A shallow embedding of the dashboard script (the version with the
    shareable selection state: [validateDataShape], [updateHash],
    [applyStateFromHash], [renderInsightDrawer], [handleSelection],
    [renderDisciplineView], [getSelectedSourceIds], [renderSources],
    [wireControls], [init] and the boot chain).

    Conventions of the embedding.
    - The raw document handed to the validator is a JavaScript value
      ([JS.value]); the operators the validator uses ([!x], [typeof],
      [Array.isArray], [x.k], [x?.k]) are embedded with their JavaScript
      meaning, a property read on [null] or [undefined] throws.
    - After validation the dataset is read through the shape of its data
      model: objects used as maps are association lists in property order
      (order matters for [Object.keys] / [Object.entries]); a field the
      script reads defensively ([?.], [??]) is an [option]. A read under a
      key that comes from the fragment or from another part of the
      dataset also finds the members inherited from [Object.prototype]
      ([Dashboard.get]).
    - [URLSearchParams] is its list of name-value pairs; the fragment of
      the page record is the list its text parses to (the empty list is
      "no fragment"), and [Query] relates the list and the text.
    - The page is a record of the selection state, the local-storage entry,
      the fragment, the chart registry and the trace of the rendering
      effects, in the order in which the script performs them.
    - Throughout, "present" is JavaScript truthiness, as in the script's
      own tests ([if (x)], [!x]): [null], [undefined] and the empty string
      are absent. *)

From Stdlib Require Import List String Ascii Bool Arith Lia QArith.
From Stdlib Require Import Sorting.Sorted Sorting.Permutation.
Import ListNotations.
Local Open Scope string_scope.
Local Open Scope list_scope.
Set Warnings "-register-all".

(** ** JavaScript values and completions *)

Module JS.

(** The exceptions the script can raise. *)
Inductive exn : Type :=
| TypeError (message : string)
| Error (message : string).

Definition message_of (e : exn) : string :=
  match e with TypeError m => m | Error m => m end.

(** A computation either returns normally or throws. *)
Inductive completion (A : Type) : Type :=
| Normal (a : A)
| Throw (e : exn).
Arguments Normal {A} a.
Arguments Throw {A} e.

Definition bind {A B} (c : completion A) (k : A -> completion B) : completion B :=
  match c with
  | Normal a => k a
  | Throw e => Throw e
  end.

Declare Scope js_scope.
Delimit Scope js_scope with js.
Notation "x <- c ;; k" := (bind c (fun x => k))
  (at level 61, c at next level, right associativity) : js_scope.

(** The values [response.json()] can produce, and [undefined], which a
    property read produces. A number is the finite double it denotes. *)
Inductive value : Type :=
| VUndefined
| VNull
| VBool (b : bool)
| VNum (q : Q)
| VStr (s : string)
| VArr (items : list value)
| VObj (fields : list (string * value)).

(** [ToBoolean]. *)
Definition truthy (v : value) : bool :=
  match v with
  | VUndefined | VNull => false
  | VBool b => b
  | VNum q => negb (Qeq_bool q 0)
  | VStr s => negb (s =? "")
  | VArr _ | VObj _ => true
  end.

(** [typeof v === "object"]: true of [null], arrays and objects. *)
Definition typeof_object (v : value) : bool :=
  match v with
  | VNull | VArr _ | VObj _ => true
  | _ => false
  end.

(** [Array.isArray(v)]. *)
Definition isArray (v : value) : bool :=
  match v with VArr _ => true | _ => false end.

Definition nullish (v : value) : bool :=
  match v with VUndefined | VNull => true | _ => false end.

Fixpoint own (k : string) (fields : list (string * value)) : value :=
  match fields with
  | [] => VUndefined
  | (k', v) :: rest => if k =? k' then v else own k rest
  end.

Definition describe (v : value) : string :=
  match v with VNull => "null" | _ => "undefined" end.

(** [v.k]. Reading a property of [null] or [undefined] throws a
    [TypeError]; the names the script reads (takeaway, headline, coreSkills,
    charts, the chart identifiers, sourceId, sources, disciplines) are
    neither indices nor members of a built-in prototype, so on an array or
    a primitive the read is [undefined]. *)
Definition getProp (v : value) (k : string) : completion value :=
  match v with
  | VUndefined | VNull =>
      Throw (TypeError ("Cannot read properties of " ++ describe v
                        ++ " (reading '" ++ k ++ "')"))
  | VObj fields => Normal (own k fields)
  | _ => Normal VUndefined
  end.

(** [v?.k]: [undefined] when [v] is [null] or [undefined]. *)
Definition optProp (v : value) (k : string) : value :=
  match v with
  | VObj fields => own k fields
  | _ => VUndefined
  end.

(** [errors.push(msg)] when [test] holds. *)
Definition push_if (test : bool) (msg : string) (errors : list string) : list string :=
  if test then errors ++ [msg] else errors.

(** [validateDataShape(data)]. *)
Definition validateDataShape (data : value) : completion (list string) :=
  (let errors := [] in
   let errors :=
     push_if (negb (truthy data) || negb (typeof_object data))
             "Dashboard data is not a valid object." errors in
   takeaway <- getProp data "takeaway" ;;
   let errors :=
     push_if (negb (truthy (optProp takeaway "headline")))
             "Missing takeaway.headline." errors in
   coreSkills <- getProp data "coreSkills" ;;
   let errors :=
     push_if (negb (isArray coreSkills)) "Missing coreSkills array." errors in
   charts <- getProp data "charts" ;;
   let errors :=
     push_if (negb (truthy (optProp (optProp charts "aiMentionsTrend") "sourceId")))
             "Missing charts.aiMentionsTrend source metadata." errors in
   charts <- getProp data "charts" ;;
   let errors :=
     push_if (negb (truthy (optProp (optProp charts "aiMentionsByFamily") "sourceId")))
             "Missing charts.aiMentionsByFamily source metadata." errors in
   charts <- getProp data "charts" ;;
   let errors :=
     push_if (negb (truthy (optProp (optProp charts "aiOutsideITShare") "sourceId")))
             "Missing charts.aiOutsideITShare source metadata." errors in
   sources <- getProp data "sources" ;;
   let errors :=
     push_if (negb (truthy sources) || negb (typeof_object sources) || isArray sources)
             "sources must be an object keyed by sourceId." errors in
   disciplines <- getProp data "disciplines" ;;
   let errors :=
     push_if (negb (truthy disciplines) || negb (typeof_object disciplines))
             "Missing disciplines object." errors in
   Normal errors)%js.

(** [issues.join(" ")]. *)
Fixpoint join (sep : string) (l : list string) : string :=
  match l with
  | [] => ""
  | [x] => x
  | x :: rest => (x ++ sep ++ join sep rest)%string
  end.

(** What the boot chain does up to the call of [init]: the texts passed
    to [showAlert] until then, in order (the alert element shows the last
    one), and whether [init] is called. What [init] itself does is the
    subject of [Dashboard.init]; an exception it raised would reach the
    same [catch] handler and add its alert, which this record does not
    cover. *)
Record BootOutcome : Type := {
  alerts : list string;
  initialised : bool
}.

(** The [then] / [catch] chain after [loadData()], for a document [data]
    that was fetched and parsed, up to the call of [init]. A non-empty
    list of issues is shown and re-thrown; whatever the validator throws
    reaches the [catch] handler, which replaces the alert text. *)
Definition bootChain (data : value) : BootOutcome :=
  match validateDataShape data with
  | Normal issues =>
      if negb (List.length issues =? 0)%nat
      then {| alerts := [("Data validation problem: " ++ join " " issues)%string;
                         ("Could not initialize dashboard: "
                            ++ message_of (Error (join " " issues)))%string];
              initialised := false |}
      else {| alerts := []; initialised := true |}
  | Throw e =>
      {| alerts := [("Could not initialize dashboard: " ++ message_of e)%string];
         initialised := false |}
  end.

End JS.

(** ** The dataset and the selection state *)

Module Dashboard.

Record DrilldownDetail : Type := {
  headline : string;
  interpretation : string;
  whyItMatters : string;
  implications : option (list string);
  teachingFocus : string
}.

Record Chart : Type := {
  labels : list string;
  sourceId : option string;
  asOfDate : option string;
  drilldown : option (list (string * DrilldownDetail))
}.

Record Source : Type := {
  name : option string;
  url : option string
}.

Record Discipline : Type := {
  disciplineSources : option (list string)
}.

(** [dashboardData], once validated. *)
Record Dataset : Type := {
  charts : list (string * Chart);
  sources : list (string * Source);
  disciplines : list (string * Discipline)
}.

(** The own property [k] of an object used as a map, if it has one. *)
Fixpoint lookup {A : Type} (k : string) (obj : list (string * A)) : option A :=
  match obj with
  | [] => None
  | (k', v) :: rest => if k =? k' then Some v else lookup k rest
  end.

(** [Object.keys(obj)]. *)
Definition keys {A : Type} (obj : list (string * A)) : list string :=
  map fst obj.

(** [arr.includes(x)]. *)
Definition includes (x : string) (arr : list string) : bool :=
  existsb (String.eqb x) arr.

(** [x ?? d]. *)
Definition orElse {A : Type} (x : option A) (d : A) : A :=
  match x with Some a => a | None => d end.

(** The members every object of the dataset inherits from
    [Object.prototype]. *)
Definition objectPrototype : list string :=
  ["constructor"; "__defineGetter__"; "__defineSetter__"; "hasOwnProperty";
   "__lookupGetter__"; "__lookupSetter__"; "isPrototypeOf";
   "propertyIsEnumerable"; "toString"; "valueOf"; "__proto__";
   "toLocaleString"].

(** What a property read finds: an own property, a member inherited from
    [Object.prototype] (a function, or for [__proto__] the prototype
    object itself: truthy in both cases), or nothing. *)
Inductive Property (A : Type) : Type :=
| Own (v : A)
| Inherited (member : string)
| Undefined.
Arguments Own {A} v.
Arguments Inherited {A} member.
Arguments Undefined {A}.

(** [obj[k]], for a key the dataset does not control: own properties
    first, then the prototype. *)
Definition get {A : Type} (k : string) (obj : list (string * A)) : Property A :=
  match lookup k obj with
  | Some v => Own v
  | None => if includes k objectPrototype then Inherited k else Undefined
  end.

(** [member.name] of an inherited member: the functions are named after
    their key, except [constructor], which is the function [Object];
    [__proto__] yields the prototype object, which has no [name]. *)
Definition memberName (member : string) : option string :=
  if member =? "__proto__" then None
  else if member =? "constructor" then Some "Object"
  else Some member.

(** Truthiness of a string, and of a string that may be [null]. *)
Definition truthy (s : string) : bool := negb (s =? "").

Definition present (x : option string) : bool :=
  match x with Some s => truthy s | None => false end.

(** [x || null]. *)
Definition orNull (x : option string) : option string :=
  if present x then x else None.

Record Insight : Type := {
  chartKey : string;
  label : string
}.

Definition Insight_eqb (a b : Insight) : bool :=
  (chartKey a =? chartKey b) && (label a =? label b).

(** The global [state]. *)
Record State : Type := {
  selectedInsight : option Insight;
  selectedDiscipline : option string;
  sourceFilter : string
}.

Definition initialState : State :=
  {| selectedInsight := None;
     selectedDiscipline := None;
     sourceFilter := "selection" |}.

Definition setInsight (i : option Insight) (s : State) : State :=
  {| selectedInsight := i;
     selectedDiscipline := selectedDiscipline s;
     sourceFilter := sourceFilter s |}.

Definition setDiscipline (d : option string) (s : State) : State :=
  {| selectedInsight := selectedInsight s;
     selectedDiscipline := d;
     sourceFilter := sourceFilter s |}.

Definition setSourceFilter (f : string) (s : State) : State :=
  {| selectedInsight := selectedInsight s;
     selectedDiscipline := selectedDiscipline s;
     sourceFilter := f |}.

(** ** URLSearchParams *)

Definition Params : Type := list (string * string).

(** [params.get(k)]: the first value of name [k], or [null]. *)
Definition params_get (k : string) (p : Params) : option string := lookup k p.

Definition params_delete (k : string) (p : Params) : Params :=
  filter (fun kv => negb (fst kv =? k)) p.

(** [params.set(k, v)]: replaces the first pair of name [k] and drops the
    others, or appends. *)
Fixpoint params_set (k v : string) (p : Params) : Params :=
  match p with
  | [] => [(k, v)]
  | (k', v') :: rest =>
      if k' =? k then (k, v) :: params_delete k rest
      else (k', v') :: params_set k v rest
  end.

(** [getSelectionKey(chartKey, label)]. *)
Definition getSelectionKey (chartKey label : string) : string :=
  (chartKey ++ "::" ++ label)%string.

(** The parameters [updateHash] builds from the state. *)
Definition hashParams (s : State) : Params :=
  let params := [] in
  let params :=
    match selectedDiscipline s with
    | Some d => if truthy d then params_set "discipline" d params else params
    | None => params
    end in
  let params :=
    match selectedInsight s with
    | Some i => params_set "label" (label i) (params_set "chart" (chartKey i) params)
    | None => params
    end in
  params.

(** ** What the page shows *)

Record SourceLine : Type := {
  href : string;
  text : string;
  asOf : string
}.

(** The insight drawer: the text of its elements, the implication items,
    and the source line ([None] when [innerHTML] is emptied). *)
Record DrawerView : Type := {
  headlineText : string;
  interpretationText : string;
  whyText : string;
  implicationItems : list string;
  teachingText : string;
  sourceLine : option SourceLine
}.

(** An item of the sources list. *)
Inductive SourceItem : Type :=
| Placeholder (message : string)
| Link (href text : string).

(** The effects of the script on its surroundings. *)
Inductive Effect : Type :=
| StorageSet (value : string)
| HashWrite (params : Params)
| ChartUpdate (chart : string)
| DrawerRender (view : DrawerView)
| DisciplineRender (discipline : string)
| SourcesRender (items : list SourceItem).

(** The page: the state, the local-storage entry [selectedDiscipline], the
    fragment of the location, the chart objects created so far, and the
    effects performed so far, oldest first. *)
Record Page : Type := {
  state : State;
  localStorage : option string;
  fragment : Params;
  registry : list string;
  trace : list Effect
}.

Definition Proc : Type := Page -> Page.

Definition andThen (p q : Proc) : Proc := fun w => q (p w).

Declare Scope proc_scope.
Delimit Scope proc_scope with proc.
Notation "p ;; q" := (andThen p q)
  (at level 61, right associativity) : proc_scope.

Definition skip : Proc := fun w => w.

Definition modifyState (f : State -> State) : Proc := fun w =>
  {| state := f (state w); localStorage := localStorage w;
     fragment := fragment w; registry := registry w; trace := trace w |}.

Definition emit (e : Effect) : Proc := fun w =>
  {| state := state w; localStorage := localStorage w;
     fragment := fragment w; registry := registry w;
     trace := trace w ++ [e] |}.

(** [localStorage.setItem("selectedDiscipline", v)]. *)
Definition storageSet (v : string) : Proc := fun w =>
  {| state := state w; localStorage := Some v;
     fragment := fragment w; registry := registry w;
     trace := trace w ++ [StorageSet v] |}.

(** [history.replaceState]: an empty parameter string leaves no fragment. *)
Definition replaceFragment (p : Params) : Proc := fun w =>
  {| state := state w; localStorage := localStorage w;
     fragment := p; registry := registry w;
     trace := trace w ++ [HashWrite p] |}.

Definition register (k : string) : Proc := fun w =>
  {| state := state w; localStorage := localStorage w;
     fragment := fragment w; registry := registry w ++ [k];
     trace := trace w |}.

(** ** The script *)

Section Script.

Variable dashboardData : Dataset.

Local Open Scope proc_scope.

(** [updateHash()]. *)
Definition updateHash : Proc := fun w =>
  replaceFragment (hashParams (state w)) w.

(** [applyStateFromHash()]. *)
Definition applyStateFromHash : Proc := fun w =>
  let params := fragment w in
  let disciplineParam := params_get "discipline" params in
  let chartParam := params_get "chart" params in
  let labelParam := params_get "label" params in
  let w :=
    if present disciplineParam
    then modifyState (setDiscipline disciplineParam) w
    else modifyState (setDiscipline (orNull (localStorage w))) w in
  match chartParam, labelParam with
  | Some c, Some l =>
      if truthy c && truthy l
      then modifyState (setInsight (Some {| chartKey := c; label := l |})) w
      else w
  | _, _ => w
  end.

(** [set.add(id)] on a [Set], which keeps insertion order. *)
Definition set_add (id : string) (set : list string) : list string :=
  if includes id set then set else set ++ [id].

(** [getSelectedSourceIds()]. A member inherited from [Object.prototype]
    has neither [sourceId] nor [sources], so only own properties count. *)
Definition getSelectedSourceIds (s : State) : list string :=
  let set := [] in
  let set :=
    match selectedInsight s with
    | Some i =>
        match lookup (chartKey i) (charts dashboardData) with
        | Some chart =>
            match sourceId chart with
            | Some id => if truthy id then set_add id set else set
            | None => set
            end
        | None => set
        end
    | None => set
    end in
  let set :=
    match selectedDiscipline s with
    | Some d =>
        if truthy d then
          match lookup d (disciplines dashboardData) with
          | Some discipline =>
              fold_left (fun set id => set_add id set)
                        (orElse (disciplineSources discipline) []) set
          | None => set
          end
        else set
    | None => set
    end in
  set.

(** The ids [renderSources] walks through. *)
Definition sourceIds (s : State) : list string :=
  let allSources := sources dashboardData in
  if sourceFilter s =? "all" then map fst allSources
  else getSelectedSourceIds s.

(** The item [renderSources] appends for one id: none when
    [dashboardData.sources[sourceId]] is [undefined]. An inherited member
    has no [url]; its [name] is that of the function. *)
Definition sourceItem (sourceId : string) : list SourceItem :=
  match get sourceId (sources dashboardData) with
  | Undefined => []
  | Own source => [Link (orElse (url source) "#") (orElse (name source) sourceId)]
  | Inherited member => [Link "#" (orElse (memberName member) sourceId)]
  end.

Definition sourceItems (s : State) : list SourceItem :=
  let ids := sourceIds s in
  if (List.length ids =? 0)%nat
  then [Placeholder "No sources tied to the current selection yet."]
  else flat_map sourceItem ids.

(** [renderSources()]. *)
Definition renderSources : Proc := fun w =>
  emit (SourcesRender (sourceItems (state w))) w.

Definition messageView (message : string) : DrawerView :=
  {| headlineText := message;
     interpretationText := "";
     whyText := "";
     implicationItems := [];
     teachingText := "";
     sourceLine := None |}.

(** The property name a possibly [undefined] id denotes. *)
Definition propertyKey (id : option string) : string := orElse id "undefined".

(** The source line of the drawer, from [chartObj?.sourceId],
    [chartObj?.asOfDate] and [dashboardData.sources?.[chartObj?.sourceId]]. *)
Definition drawerSource (chartSourceId chartAsOfDate : option string) : SourceLine :=
  let source := get (propertyKey chartSourceId) (sources dashboardData) in
  {| href :=
       orElse (match source with Own src => url src | _ => None end) "#";
     text :=
       orElse (match source with
               | Own src => name src
               | Inherited member => memberName member
               | Undefined => None
               end)
              (orElse chartSourceId "Unknown source");
     asOf := orElse chartAsOfDate "n/a" |}.

(** What [renderInsightDrawer] writes into the drawer. The chart and the
    label come from the state, which the fragment can set to any text, so
    both reads go through the prototype: an inherited member has none of
    the fields the drawer reads, and [textContent = undefined] leaves an
    element empty. *)
Definition drawerView (s : State) : DrawerView :=
  match selectedInsight s with
  | None =>
      messageView "Select a chart point, bar, or slice to view a focused insight."
  | Some i =>
      let chartObj := get (chartKey i) (charts dashboardData) in
      let chartSourceId :=
        match chartObj with Own c => sourceId c | _ => None end in
      let chartAsOfDate :=
        match chartObj with Own c => asOfDate c | _ => None end in
      let detail :=
        match chartObj with
        | Own c =>
            match drilldown c with
            | Some entries => get (label i) entries
            | None => Undefined
            end
        | _ => Undefined
        end in
      match detail with
      | Undefined => messageView "No drill-down details available for this selection."
      | Inherited _ =>
          {| headlineText := "";
             interpretationText := "";
             whyText := "";
             implicationItems := [];
             teachingText := "";
             sourceLine := Some (drawerSource chartSourceId chartAsOfDate) |}
      | Own detail =>
          {| headlineText := headline detail;
             interpretationText := interpretation detail;
             whyText := whyItMatters detail;
             implicationItems := orElse (implications detail) [];
             teachingText := teachingFocus detail;
             sourceLine := Some (drawerSource chartSourceId chartAsOfDate) |}
      end
  end.

(** [renderInsightDrawer()]: every branch ends in [renderSources()]. *)
Definition renderInsightDrawer : Proc := fun w =>
  (emit (DrawerRender (drawerView (state w))) ;; renderSources) w.

(** [updateAllChartStyles()]. *)
Definition updateAllChartStyles : Proc := fun w =>
  fold_left (fun w chart => emit (ChartUpdate chart) w) (registry w) w.

(** [handleSelection(chartKey, label)]. *)
Definition handleSelection (chartKey label : string) : Proc := fun w =>
  let sameSelection :=
    match selectedInsight (state w) with
    | Some i =>
        getSelectionKey (Dashboard.chartKey i) (Dashboard.label i)
          =? getSelectionKey chartKey label
    | None => false
    end in
  (modifyState (setInsight (if sameSelection then None
                            else Some {| chartKey := chartKey; label := label |})) ;;
   updateHash ;;
   updateAllChartStyles ;;
   renderInsightDrawer) w.

(** [pointColorFactory(chartKey, ...)]: whether the element labelled
    [label] is drawn as selected. *)
Definition isSelected (chartKey label : string) (s : State) : bool :=
  match selectedInsight s with
  | Some i => (Dashboard.chartKey i =? chartKey) && (Dashboard.label i =? label)
  | None => false
  end.

(** [createLineChart], [createBarChart], [createDonutChart]: the chart is
    created and registered when the dataset has it. *)
Definition createChart (k : string) : Proc := fun w =>
  match lookup k (charts dashboardData) with
  | Some _ => register k w
  | None => w
  end.

(** [showDiscipline(name)], local to [renderDisciplineView]. *)
Definition showDiscipline (name : string) : Proc := fun w =>
  match lookup name (disciplines dashboardData) with
  | None => w
  | Some detail =>
      (modifyState (setDiscipline (Some name)) ;;
       storageSet name ;;
       updateHash ;;
       emit (DisciplineRender name) ;;
       renderSources) w
  end.

(** [renderDisciplineView(data)]. *)
Definition renderDisciplineView : Proc := fun w =>
  let disciplines := keys (disciplines dashboardData) in
  match disciplines with
  | [] => w
  | first :: _ =>
      let chosen :=
        match selectedDiscipline (state w) with
        | Some d => if includes d disciplines then d else first
        | None => first
        end in
      showDiscipline chosen w
  end.

(** [init(data)]: the calls that touch the selection state or read it. *)
Definition init : Proc := fun w =>
  (applyStateFromHash ;;
   createChart "aiMentionsTrend" ;;
   createChart "aiMentionsByFamily" ;;
   createChart "aiOutsideITShare" ;;
   renderInsightDrawer ;;
   renderDisciplineView ;;
   renderSources ;;
   (fun w => match selectedInsight (state w) with
             | Some _ => updateAllChartStyles w
             | None => w
             end)) w.

(** What the user can do on the initialised page. *)
Inductive Event : Type :=
| ChartClick (chart : string) (index : nat)
| DisciplineClick (name : string)
| ClearClick
| FilterChange (value : string).

(** The handler of the clear-selection button. *)
Definition clearSelection : Proc :=
  modifyState (setInsight None) ;;
  updateHash ;;
  updateAllChartStyles ;;
  renderInsightDrawer.

(** The handler of the sources-filter select. *)
Definition changeFilter (value : string) : Proc :=
  modifyState (setSourceFilter value) ;;
  renderSources.

(** The [onClick] of a chart: the index of the activated element is
    translated through the labels of that chart. A chart that was not
    created has no elements; [values] has the length of [labels], so the
    index of an element is an index of [labels]. *)
Definition chartClick (chart : string) (index : nat) : Proc := fun w =>
  if includes chart (registry w) then
    match lookup chart (charts dashboardData) with
    | Some c =>
        match nth_error (labels c) index with
        | Some l => handleSelection chart l w
        | None => w
        end
    | None => w
    end
  else w.

Definition handle (e : Event) : Proc :=
  match e with
  | ChartClick chart index => chartClick chart index
  | DisciplineClick name => showDiscipline name
  | ClearClick => clearSelection
  | FilterChange value => changeFilter value
  end.

(** The page after a sequence of events. *)
Definition run (events : list Event) (w : Page) : Page :=
  fold_left (fun w e => handle e w) events w.

(** The page as loaded: default state, nothing rendered yet. *)
Definition freshPage (hash : Params) (stored : option string) : Page :=
  {| state := initialState;
     localStorage := stored;
     fragment := hash;
     registry := [];
     trace := [] |}.

End Script.

End Dashboard.

Import Dashboard.

(** ** Properties of states, fragments and traces *)

(** A string without a colon, as the chart identifiers of the script are. *)
Fixpoint colonFree (s : string) : bool :=
  match s with
  | EmptyString => true
  | String a rest => negb (Ascii.eqb a ":") && colonFree rest
  end.

(** The pair is a chart of the dataset and one of its labels. *)
Definition insightValid (data : Dataset) (i : Insight) : bool :=
  match lookup (chartKey i) (charts data) with
  | Some c => includes (label i) (labels c)
  | None => false
  end.

Definition disciplineValid (data : Dataset) (d : string) : bool :=
  includes d (keys (disciplines data)).

(** The invariant of the data model: a selected insight names a chart and
    one of its labels, a selected discipline is a key of [disciplines]. *)
Definition selectionInvariant (data : Dataset) (s : State) : bool :=
  match selectedInsight s with
  | Some i => insightValid data i
  | None => true
  end
  &&
  match selectedDiscipline s with
  | Some d => if truthy d then disciplineValid data d else true
  | None => true
  end.

(** What the script maintains of that invariant. The insight is a valid
    pair or the pair seeded from the fragment at boot. *)
Definition insightSettled (data : Dataset) (seed : option Insight) (s : State) : bool :=
  match selectedInsight s with
  | None => true
  | Some i =>
      insightValid data i
      || match seed with Some j => Insight_eqb i j | None => false end
  end.

(** When the dataset has a discipline, one of them is selected. *)
Definition disciplineSettled (data : Dataset) (s : State) : bool :=
  match keys (disciplines data) with
  | [] => true
  | _ :: _ =>
      match selectedDiscipline s with
      | Some d => disciplineValid data d
      | None => false
      end
  end.

Definition settled (data : Dataset) (seed : option Insight) (w : Page) : Prop :=
  insightSettled data seed (state w) = true
  /\ disciplineSettled data (state w) = true.

(** [l] is [m] with some elements left out. *)
Fixpoint subsequence (l m : list string) : bool :=
  match m with
  | [] => match l with [] => true | _ => false end
  | y :: m' =>
      match l with
      | [] => true
      | x :: l' => if x =? y then subsequence l' m' else subsequence l m'
      end
  end.

(** A fragment that uses the recognised keys, in the fixed order. *)
Definition wellFormedFragment (f : Params) : bool :=
  subsequence (keys f) ["discipline"; "chart"; "label"].

(** A fragment as [updateHash] writes them: an optional discipline, then an
    optional chart together with its label, every value non-empty. *)
Definition canonicalFragment (f : Params) : bool :=
  match f with
  | [] => true
  | [(k1, d)] => (k1 =? "discipline") && truthy d
  | [(k1, c); (k2, l)] =>
      (k1 =? "chart") && (k2 =? "label") && truthy c && truthy l
  | [(k1, d); (k2, c); (k3, l)] =>
      (k1 =? "discipline") && (k2 =? "chart") && (k3 =? "label")
      && truthy d && truthy c && truthy l
  | _ => false
  end.

(** The first present candidate, in priority order. *)
Fixpoint firstPresent (candidates : list (option string)) : option string :=
  match candidates with
  | [] => None
  | x :: rest => if present x then x else firstPresent rest
  end.

(** The discipline [renderDisciplineView] shows, given the seeded one. *)
Definition shownDiscipline (data : Dataset) (seeded : option string) : option string :=
  match keys (disciplines data) with
  | [] => seeded
  | first :: _ =>
      Some match seeded with
           | Some d => if includes d (keys (disciplines data)) then d else first
           | None => first
           end
  end.

(** The chart identifiers of the script, and the charts [init] creates. *)
Definition chartIds : list string :=
  ["aiMentionsTrend"; "aiMentionsByFamily"; "aiOutsideITShare"].

Definition createdCharts (data : Dataset) : list string :=
  filter (fun k => match lookup k (charts data) with Some _ => true | None => false end)
         chartIds.



(** The entry of the chart's drilldown mapping for the selected label. *)
Definition matchingDetail (data : Dataset) (i : Insight) : option DrilldownDetail :=
  match lookup (chartKey i) (charts data) with
  | Some chart =>
      match drilldown chart with
      | Some entries => lookup (label i) entries
      | None => None
      end
  | None => None
  end.

Definition noSourcesMessage : string :=
  "No sources tied to the current selection yet.".

(** The effects a procedure adds to the trace of a page. *)
Definition effectsOf (p : Proc) (w : Page) : list Effect :=
  skipn (List.length (trace w)) (trace (p w)).

Definition isHashWrite (e : Effect) : bool :=
  match e with HashWrite _ => true | _ => false end.

Definition isStorageSet (e : Effect) : bool :=
  match e with StorageSet _ => true | _ => false end.

Definition isDrawerRender (e : Effect) : bool :=
  match e with DrawerRender _ => true | _ => false end.

Definition isSourcesRender (e : Effect) : bool :=
  match e with SourcesRender _ => true | _ => false end.

Definition isChartUpdate (k : string) (e : Effect) : bool :=
  match e with ChartUpdate k' => k =? k' | _ => false end.

(** One complete notification pass: after the optional write to local
    storage comes the write of the fragment, and after it the update of the
    three charts, the drawer and the sources list. *)
Definition fullPass (effects : list Effect) : bool :=
  let effects :=
    match effects with
    | StorageSet _ :: rest => rest
    | _ => effects
    end in
  match effects with
  | HashWrite _ :: rest =>
      existsb (isChartUpdate "aiMentionsTrend") rest
      && existsb (isChartUpdate "aiMentionsByFamily") rest
      && existsb (isChartUpdate "aiOutsideITShare") rest
      && existsb isDrawerRender rest
      && existsb isSourcesRender rest
  | _ => false
  end.

(** The checks of the validator, as the data model words them. *)
Definition isMapping (v : JS.value) : bool :=
  match v with JS.VObj _ => true | _ => false end.

Definition hasSourceId (charts : JS.value) (k : string) : bool :=
  JS.truthy (JS.optProp (JS.optProp charts k) "sourceId").

Definition passesChecks (data : JS.value) : bool :=
  isMapping data
  && JS.truthy (JS.optProp (JS.optProp data "takeaway") "headline")
  && JS.isArray (JS.optProp data "coreSkills")
  && hasSourceId (JS.optProp data "charts") "aiMentionsTrend"
  && hasSourceId (JS.optProp data "charts") "aiMentionsByFamily"
  && hasSourceId (JS.optProp data "charts") "aiOutsideITShare"
  && isMapping (JS.optProp data "sources")
  && isMapping (JS.optProp data "disciplines").

(** What the validator accepts in fact: as [passesChecks], but for
    [disciplines] any non-null value of type object, an array included. *)
Definition acceptedByValidator (data : JS.value) : bool :=
  isMapping data
  && JS.truthy (JS.optProp (JS.optProp data "takeaway") "headline")
  && JS.isArray (JS.optProp data "coreSkills")
  && hasSourceId (JS.optProp data "charts") "aiMentionsTrend"
  && hasSourceId (JS.optProp data "charts") "aiMentionsByFamily"
  && hasSourceId (JS.optProp data "charts") "aiOutsideITShare"
  && isMapping (JS.optProp data "sources")
  && (isMapping (JS.optProp data "disciplines")
      || JS.isArray (JS.optProp data "disciplines")).

(** The problems the validator can report, in the order of its tests. *)
Definition validatorMessages : list string :=
  ["Dashboard data is not a valid object.";
   "Missing takeaway.headline.";
   "Missing coreSkills array.";
   "Missing charts.aiMentionsTrend source metadata.";
   "Missing charts.aiMentionsByFamily source metadata.";
   "Missing charts.aiOutsideITShare source metadata.";
   "sources must be an object keyed by sourceId.";
   "Missing disciplines object."].

(** The link [renderSources] makes of an entry of [sources]. *)
Definition linkOf (entry : string * Source) : SourceItem :=
  Link (orElse (url (snd entry)) "#") (orElse (name (snd entry)) (fst entry)).

(** An insight that survives the fragment: chart and label non-empty. *)
Definition encodable (i : option Insight) : bool :=
  match i with
  | Some i => truthy (chartKey i) && truthy (label i)
  | None => true
  end.

(** ** A small dataset *)

Definition detailOf (h : string) : DrilldownDetail :=
  {| headline := h;
     interpretation := "Interpretation";
     whyItMatters := "Why it matters";
     implications := Some ["First implication"; "Second implication"];
     teachingFocus := "Teaching focus" |}.

Definition sampleData : Dataset :=
  {| charts :=
       [("aiMentionsTrend",
         {| labels := ["2024-Q1"; "2024::Q1"];
            sourceId := Some "lightcast";
            asOfDate := Some "2025-12";
            drilldown := Some [("2024-Q1", detailOf "T1")] |});
        ("aiMentionsByFamily",
         {| labels := ["Nursing"; "Business"];
            sourceId := Some "lightcast";
            asOfDate := None;
            drilldown := Some [("Nursing", detailOf "H1")] |});
        ("aiOutsideITShare",
         {| labels := ["Outside IT"; "IT"];
            sourceId := Some "fieldnotes";
            asOfDate := Some "2025-12";
            drilldown := Some [("IT", detailOf "S1")] |})];
     sources :=
       [("lightcast", {| name := Some "Lightcast"; url := Some "https://lightcast.io" |});
        ("bls", {| name := Some "BLS"; url := None |})];
     disciplines :=
       [("Nursing", {| disciplineSources := Some ["bls"; "lightcast"; "bls"] |});
        ("Business", {| disciplineSources := Some ["ghost"] |})] |}.

(** The sample dataset with one more discipline, whose only source id
    has no entry in [sources] and is the name of a member of
    [Object.prototype]. *)
Definition inheritedSourceData : Dataset :=
  {| charts := charts sampleData;
     sources := sources sampleData;
     disciplines :=
       disciplines sampleData
       ++ [("History", {| disciplineSources := Some ["constructor"] |})] |}.

(** The same dataset as a document, with [disciplines] written as an
    array. *)
Definition chartDoc (sourceId : string) : JS.value :=
  JS.VObj [("labels", JS.VArr []); ("sourceId", JS.VStr sourceId)].

Definition documentWith (disciplines : JS.value) : JS.value :=
  JS.VObj
    [("takeaway", JS.VObj [("headline", JS.VStr "AI skills matter")]);
     ("coreSkills", JS.VArr []);
     ("charts",
      JS.VObj [("aiMentionsTrend", chartDoc "lightcast");
               ("aiMentionsByFamily", chartDoc "lightcast");
               ("aiOutsideITShare", chartDoc "fieldnotes")]);
     ("sources", JS.VObj [("lightcast", JS.VObj [("name", JS.VStr "Lightcast")])]);
     ("disciplines", disciplines)].

(** ** The nightly refresh of the market figures *)

Module Refresh.

(** [AI_TERMS]. *)
Definition AI_TERMS : list string :=
  ["ai"; "artificial intelligence"; "generative ai"; "chatgpt"; "llm";
   "machine learning"; "prompt"].

(** [text.includes(term)]: [term] occurs in [text]. *)
Fixpoint includes (text term : string) : bool :=
  String.prefix term text
  || match text with
     | EmptyString => false
     | String _ rest => includes rest term
     end.

(** A [Map] from strings to counts, in insertion order. *)
Definition CountMap : Type := list (string * nat).

(** [map.set(k, v)]: an existing key keeps its place. *)
Fixpoint map_set (k : string) (v : nat) (map : CountMap) : CountMap :=
  match map with
  | [] => [(k, v)]
  | (k', v') :: rest =>
      if k =? k' then (k, v) :: rest else (k', v') :: map_set k v rest
  end.

(** [map.set(k, (map.get(k) || 0) + 1)]. *)
Definition increment (k : string) (map : CountMap) : CountMap :=
  map_set k (orElse (lookup k map) 0 + 1)%nat map.

(** [entries.sort((a, b) => b[1] - a[1])]. The sort of an array is stable,
    so its result is the one arrangement by non-increasing count that keeps
    entries of equal count in their order; inserting each entry, last
    first, before the first entry that does not exceed it gives that
    arrangement. *)
Fixpoint insertByCount (e : string * nat) (sorted : CountMap) : CountMap :=
  match sorted with
  | [] => [e]
  | e' :: rest =>
      if (snd e' <=? snd e)%nat then e :: e' :: rest
      else e' :: insertByCount e rest
  end.

Definition sortByCount (entries : CountMap) : CountMap :=
  fold_right insertByCount [] entries.

(** [topCounts(items, keyFn, limit)], for keys that are strings, as those
    of the script are; an entry [(name, count)] stands for the object
    [{ name, count }]. *)
Definition topCounts {A : Type} (items : list A) (keyFn : A -> string) (limit : nat)
  : CountMap :=
  let map :=
    fold_left (fun map it =>
                 let k := keyFn it in
                 if truthy k then increment k map else map)
              items [] in
  firstn limit (sortByCount map).

Section Titles.

(** [String.prototype.toLowerCase]. *)
Variable toLowerCase : string -> string.

(** [hasAiTerm(title)]. *)
Definition hasAiTerm (title : string) : bool :=
  let t := toLowerCase title in
  existsb (fun term => includes t term) AI_TERMS.

(** [topTermCounts(titles, limit)]; an entry [(term, count)] stands for the
    object [{ term, count }]. *)
Definition topTermCounts (titles : list string) (limit : nat) : CountMap :=
  let map :=
    fold_left (fun map title =>
                 let low := toLowerCase title in
                 fold_left (fun map term =>
                              if includes low term then increment term map else map)
                           AI_TERMS map)
              titles [] in
  firstn limit (sortByCount map).

End Titles.

(** The keys of a sequence in the order of their first occurrence. *)
Definition firstOccurrences (ks : list string) : list string :=
  fold_left (fun set k => set_add k set) ks [].

(** The number of occurrences of [k] in [ks]. *)
Definition occurrences (k : string) (ks : list string) : nat :=
  List.length (filter (String.eqb k) ks).

(** Non-increasing counts. *)
Definition byCount (a b : string * nat) : Prop := (snd b <= snd a)%nat.

(** [a] occurs in the list and [b] occurs after it. *)
Inductive before {A : Type} (a b : A) : list A -> Prop :=
| before_here (l : list A) : In b l -> before a b (a :: l)
| before_later (c : A) (l : list A) : before a b l -> before a b (c :: l).

(** No [y] of the sequence comes before every [x] of it; [seen] tells
    whether an [x] came already. *)
Fixpoint guarded (x y : string) (seen : bool) (ks : list string) : bool :=
  match ks with
  | [] => true
  | k :: rest =>
      (if k =? y then seen else true) && guarded x y (seen || (k =? x)) rest
  end.

End Refresh.

(** ** The jobs proxy *)

Module Worker.

(** The bindings of the worker; an unset binding is [None]. *)
Record Env : Type := {
  USAJOBS_EMAIL : option string;
  USAJOBS_API_KEY : option string;
  ADZUNA_APP_ID : option string;
  ADZUNA_APP_KEY : option string;
  ALLOWED_ORIGINS : option string
}.

(** What the worker reads of a request: its method, the path and the
    query of its URL, and its [Origin] header. *)
Record Request : Type := {
  method : string;
  pathname : string;
  searchParams : Params;
  originHeader : option string
}.

(** An object of header names and values, in property order. *)
Definition Headers : Type := list (string * string).

(** [{ ...obj, [k]: v }]: a property that exists keeps its place. *)
Fixpoint assign (k v : string) (obj : Headers) : Headers :=
  match obj with
  | [] => [(k, v)]
  | (k', v') :: rest =>
      if k =? k' then (k, v) :: rest else (k', v') :: assign k v rest
  end.

(** [{ ...obj, ...extra }]. *)
Definition spread (obj extra : Headers) : Headers :=
  fold_left (fun obj kv => assign (fst kv) (snd kv) obj) extra obj.

(** The body of a reply of the worker itself. *)
Inductive Body : Type :=
| NoBody
| Health (endpoints : list string) (time : string)
| Failure (error : string).

Record Response : Type := {
  status : nat;
  headers : Headers;
  body : Body
}.

(** The request a handler sends on. *)
Record Fetch : Type := {
  target : string;
  query : Params;
  fetchHeaders : Headers
}.

(** A handler replies itself, or sends a request on and passes the status
    and the text of the answer through under [passHeaders]. *)
Inductive Outcome : Type :=
| Reply (response : Response)
| Forward (request : Fetch) (passHeaders : Headers).

(** [s.split(sep)] for a one-character separator. *)
Fixpoint split (sep : ascii) (s : string) : list string :=
  match s with
  | EmptyString => [EmptyString]
  | String c rest =>
      if Ascii.eqb c sep then EmptyString :: split sep rest
      else match split sep rest with
           | piece :: pieces => String c piece :: pieces
           | [] => [String c EmptyString]
           end
  end.

(** [x || d] for a string that may be missing. *)
Definition orDefault (x : option string) (d : string) : string :=
  match x with
  | Some s => if truthy s then s else d
  | None => d
  end.

(** The first element of an array, [|| d]. *)
Definition firstOr (l : list string) (d : string) : string :=
  match l with
  | first :: _ => if truthy first then first else d
  | [] => d
  end.

(** [s] without a leading dot, which a URL may write [.] or [%2e], in
    either case. *)
Definition afterDot (s : string) : option string :=
  match s with
  | String c rest =>
      if Ascii.eqb c "." then Some rest
      else if Ascii.eqb c "%" then
        match rest with
        | String d (String e rest') =>
            if Ascii.eqb d "2" && (Ascii.eqb e "e" || Ascii.eqb e "E")
            then Some rest' else None
        | _ => None
        end
      else None
  | EmptyString => None
  end.

(** The single-dot and double-dot path segments of the URL parser. *)
Definition singleDot (segment : string) : bool :=
  match afterDot segment with
  | Some rest => rest =? ""
  | None => false
  end.

Definition doubleDot (segment : string) : bool :=
  match afterDot segment with
  | Some rest => singleDot rest
  | None => false
  end.

Definition dotSegment (segment : string) : bool :=
  singleDot segment || doubleDot segment.

(** The path of [new URL(text)], from the segments between the slashes of
    the path of [text], [path] being the segments kept so far: a
    double-dot segment removes the segment before it, a single-dot segment
    is dropped, and either leaves an empty segment when it comes last. *)
Fixpoint resolvePath (path segments : list string) : list string :=
  match segments with
  | [] => path
  | segment :: rest =>
      let last := match rest with [] => [""] | _ :: _ => [] end in
      if doubleDot segment then resolvePath (removelast path ++ last) rest
      else if singleDot segment then resolvePath (path ++ last) rest
      else resolvePath (path ++ [segment]) rest
  end.

(** The path of a URL as text: every segment after a slash. *)
Definition pathText (path : list string) : string :=
  fold_right (fun segment text => ("/" ++ segment ++ text)%string) "" path.

Section Platform.

(** [String.prototype.trim] and [encodeURIComponent]. *)
Variable trim : string -> string.
Variable encodeURIComponent : string -> string.

(** The entries of the allowlist [allow]. *)
Definition allowlist (allow : string) : list string :=
  fold_left (fun set s => set_add s set)
            (filter truthy (map trim (split "," allow))) [].

(** [corsHeaders(request, env)]. *)
Definition corsHeaders (request : Request) (env : Env) : Headers :=
  let origin := orDefault (originHeader request) "*" in
  let allow := trim (orDefault (ALLOWED_ORIGINS env) "*") in
  let allowedOrigin :=
    if negb (allow =? "*") then
      let set := allowlist allow in
      if Dashboard.includes origin set then origin else firstOr set "null"
    else "*" in
  [("Access-Control-Allow-Origin", allowedOrigin);
   ("Access-Control-Allow-Methods", "GET,POST,OPTIONS");
   ("Access-Control-Allow-Headers", "Content-Type");
   ("Access-Control-Max-Age", "86400");
   ("Vary", "Origin")].

(** [json(obj, status, extraHeaders)]. *)
Definition json (obj : Body) (status : nat) (extraHeaders : Headers) : Response :=
  {| status := status;
     headers := spread [("Content-Type", "application/json; charset=utf-8")]
                       extraHeaders;
     body := obj |}.

(** The headers under which a handler passes the upstream answer on. *)
Definition passThrough (cors : Headers) : Headers :=
  spread [("Content-Type", "application/json; charset=utf-8")] cors.

(** [for (const [k, v] of params.entries()) target.searchParams.set(k, v)],
    leaving out the names of [skip]. *)
Definition copyParams (skip : list string) (params target : Params) : Params :=
  fold_left (fun target kv =>
               if Dashboard.includes (fst kv) skip then target
               else params_set (fst kv) (snd kv) target)
            params target.

(** [handleUSAJOBS(request, env, cors)], up to the answer of the upstream
    service. *)
Definition handleUSAJOBS (request : Request) (env : Env) (cors : Headers) : Outcome :=
  if negb (present (USAJOBS_EMAIL env)) || negb (present (USAJOBS_API_KEY env)) then
    Reply (json (Failure "Missing USAJOBS_EMAIL or USAJOBS_API_KEY environment variables.")
                400 cors)
  else
    Forward
      {| target := "https://data.usajobs.gov/api/search";
         query := copyParams [] (searchParams request) [];
         fetchHeaders :=
           [("User-Agent", orElse (USAJOBS_EMAIL env) "");
            ("Authorization-Key", orElse (USAJOBS_API_KEY env) "");
            ("Host", "data.usajobs.gov");
            ("Accept", "application/json")] |}
      (passThrough cors).

(** [handleAdzuna(request, env, cors)], up to the answer of the upstream
    service. The address goes through [new URL], which resolves the dot
    segments of the path; an encoded component has no slash, so it is one
    segment. *)
Definition handleAdzuna (request : Request) (env : Env) (cors : Headers) : Outcome :=
  if negb (present (ADZUNA_APP_ID env)) || negb (present (ADZUNA_APP_KEY env)) then
    Reply (json (Failure "Missing ADZUNA_APP_ID or ADZUNA_APP_KEY env vars.") 400 cors)
  else
    let u := searchParams request in
    let what := orDefault (params_get "what" u) "" in
    let page := orDefault (params_get "page" u) "1" in
    let resultsPerPage := orDefault (params_get "results_per_page" u) "50" in
    let country := orDefault (params_get "country" u) "us" in
    let params := [] in
    let params := params_set "app_id" (orElse (ADZUNA_APP_ID env) "") params in
    let params := params_set "app_key" (orElse (ADZUNA_APP_KEY env) "") params in
    let params := params_set "what" what params in
    let params := params_set "results_per_page" resultsPerPage params in
    let params :=
      copyParams ["what"; "page"; "results_per_page"; "country"] u params in
    Forward
      {| target :=
           ("https://api.adzuna.com"
            ++ pathText (resolvePath [] ["v1"; "api"; "jobs"; encodeURIComponent country;
                                         "search"; encodeURIComponent page]))%string;
         query := params;
         fetchHeaders := [("Accept", "application/json")] |}
      (passThrough cors).

(** The [fetch] handler of the worker, up to the answer of the upstream
    service; [now] is the time of the health reply. *)
Definition fetch (now : string) (request : Request) (env : Env) : Outcome :=
  let cors := corsHeaders request env in
  if method request =? "OPTIONS" then
    Reply {| status := 204; headers := cors; body := NoBody |}
  else if (pathname request =? "/") || (pathname request =? "/health") then
    Reply (json (Health ["/usajobs"; "/adzuna"] now) 200 cors)
  else if pathname request =? "/usajobs" then handleUSAJOBS request env cors
  else if pathname request =? "/adzuna" then handleAdzuna request env cors
  else Reply (json (Failure "Not found") 404 cors).

End Platform.

(** The last value of a name among the pairs. *)
Definition lastValue (k : string) (params : Params) : option string :=
  lookup k (rev params).

End Worker.

(** ** The executive dashboard: job families and the top-family figure *)

Module Executive.

(** A button of the job-family explorer. *)
Record Button : Type := {
  family : string;
  ariaSelected : bool;
  tabIndex : Z
}.

(** The explorer: its buttons, the title and the skills it shows, and the
    button the script focused last. *)
Record View : Type := {
  buttons : list Button;
  title : string;
  skillItems : list string;
  focused : option nat
}.

(** [data.jobFamilies]. *)
Definition JobFamilies : Type := list (string * list string).

(** [setSelectedButton(familyName)]. *)
Definition setSelectedButton (familyName : string) (bs : list Button) : list Button :=
  map (fun btn =>
         let isSelected := family btn =? familyName in
         {| family := family btn;
            ariaSelected := isSelected;
            tabIndex := if isSelected then 0%Z else (-1)%Z |})
      bs.

(** [showFamily(familyName)]. *)
Definition showFamily (jobFamilies : JobFamilies) (familyName : string) (v : View) : View :=
  {| buttons := setSelectedButton familyName (buttons v);
     title := familyName;
     skillItems := orElse (lookup familyName jobFamilies) [];
     focused := focused v |}.

(** The buttons as created, for the families from position [index] on. *)
Fixpoint createButtons (index : nat) (families : list string) : list Button :=
  match families with
  | [] => []
  | familyName :: rest =>
      {| family := familyName;
         ariaSelected := (index =? 0)%nat;
         tabIndex := if (index =? 0)%nat then 0%Z else (-1)%Z |}
      :: createButtons (S index) rest
  end.

(** [renderJobFamilyExplorer(data)], the three elements being on the
    page. *)
Definition renderJobFamilyExplorer (jobFamilies : JobFamilies) : View :=
  let cleared := {| buttons := []; title := ""; skillItems := []; focused := None |} in
  let families := keys jobFamilies in
  match families with
  | [] => cleared
  | first :: _ =>
      showFamily jobFamilies first
        {| buttons := createButtons 0 families;
           title := ""; skillItems := []; focused := None |}
  end.

(** [e.key]. *)
Inductive Key : Type := ArrowRight | ArrowLeft | OtherKey.

(** [buttons.findIndex(p)]. *)
Fixpoint findIndex {A : Type} (p : A -> bool) (l : list A) : option nat :=
  match l with
  | [] => None
  | x :: rest => if p x then Some 0%nat else option_map S (findIndex p rest)
  end.

(** [onKeyNav(e)]. The next index is within the buttons, so the button
    looked up there exists. *)
Definition onKeyNav (jobFamilies : JobFamilies) (key : Key) (v : View) : View :=
  match findIndex ariaSelected (buttons v) with
  | None => v
  | Some currentIndex =>
      let nextIndex := currentIndex in
      let nextIndex :=
        match key with
        | ArrowRight => Nat.min (List.length (buttons v) - 1) (currentIndex + 1)
        | _ => nextIndex
        end in
      let nextIndex :=
        match key with
        | ArrowLeft => Nat.max 0 (currentIndex - 1)
        | _ => nextIndex
        end in
      if negb (nextIndex =? currentIndex)%nat then
        match nth_error (buttons v) nextIndex with
        | Some btn =>
            showFamily jobFamilies (family btn)
              {| buttons := buttons v; title := title v;
                 skillItems := skillItems v; focused := Some nextIndex |}
        | None => v
        end
      else v
  end.

(** A click on the button of a family, or a key pressed on a button. *)
Inductive Event : Type :=
| Click (familyName : string)
| KeyDown (key : Key).

Definition handle (jobFamilies : JobFamilies) (e : Event) (v : View) : View :=
  match e with
  | Click familyName =>
      if Dashboard.includes familyName (map family (buttons v))
      then showFamily jobFamilies familyName v
      else v
  | KeyDown key => onKeyNav jobFamilies key v
  end.

Definition run (jobFamilies : JobFamilies) (events : list Event) (v : View) : View :=
  fold_left (fun v e => handle jobFamilies e v) events v.

(** The buttons of [families] with the one at position [selected] selected;
    [index] is the position of the first. *)
Fixpoint buttonsAt (index selected : nat) (families : list string) : list Button :=
  match families with
  | [] => []
  | familyName :: rest =>
      {| family := familyName;
         ariaSelected := (index =? selected)%nat;
         tabIndex := if (index =? selected)%nat then 0%Z else (-1)%Z |}
      :: buttonsAt (S index) selected rest
  end.

(** The explorer showing the family at position [selected]. *)
Definition showing (jobFamilies : JobFamilies) (selected : nat) (v : View) : Prop :=
  exists familyName,
    nth_error (keys jobFamilies) selected = Some familyName
    /\ buttons v = buttonsAt 0 selected (keys jobFamilies)
    /\ title v = familyName
    /\ skillItems v = orElse (lookup familyName jobFamilies) [].

(** [Number(x)] of a value that may be missing: [None] is [NaN]. *)
Definition Number : Type := option Q.

(** [b > a]; false when either side is [NaN]. *)
Definition gt (b a : Number) : bool :=
  match b, a with
  | Some x, Some y => negb (Qle_bool x y)
  | _, _ => false
  end.

Record Pair : Type := {
  label : string;
  value : Number
}.

(** [labels.map((label, i) => ({ label, value: Number(values[i]) }))]. *)
Fixpoint makePairs (index : nat) (labels : list string) (values : list Q) : list Pair :=
  match labels with
  | [] => []
  | l :: rest =>
      {| label := l; value := nth_error values index |}
      :: makePairs (S index) rest values
  end.

(** The pair of a label and its finite value. *)
Definition pairOf (lv : string * Q) : Pair :=
  {| label := fst lv; value := Some (snd lv) |}.

(** The top family of [setExecutiveKPIs]: the label and the finite value
    of the best pair, or [None] where the figure stays at its dash. *)
Definition topFamily (labels : list string) (values : list Q)
  : option (string * option Q) :=
  if negb (List.length labels =? 0)%nat && negb (List.length values =? 0)%nat then
    let pairs := makePairs 0 labels values in
    match pairs with
    | [] => None
    | first :: _ =>
        let best :=
          fold_left (fun a b => if gt (value b) (value a) then b else a) pairs first in
        Some (label best, value best)
    end
  else None.

End Executive.

(** ** The text of the fragment *)

(** [URLSearchParams] between its list of pairs and the text of the
    fragment: [params.toString()] is the form-urlencoded serialiser,
    [new URLSearchParams(text)] the form-urlencoded parser. A string
    stands for the UTF-8 bytes of a text, so the serialiser's UTF-8
    encoding is the identity; the parser's UTF-8 decoding, which replaces
    ill-formed bytes, is the platform's. *)
Module Query.

Definition hexDigits : list ascii :=
  ["0"; "1"; "2"; "3"; "4"; "5"; "6"; "7";
   "8"; "9"; "A"; "B"; "C"; "D"; "E"; "F"]%char.

Definition hexDigit (n : nat) : ascii := nth n hexDigits "0"%char.

Definition between (lo hi n : nat) : bool := ((lo <=? n) && (n <=? hi))%nat.

(** The value of a hexadecimal digit, in either case. *)
Definition hexValue (c : ascii) : option nat :=
  let n := nat_of_ascii c in
  if between 48 57 n then Some (n - 48)%nat
  else if between 65 70 n then Some (n - 55)%nat
  else if between 97 102 n then Some (n - 87)%nat
  else None.

(** The bytes the serialiser leaves as they are: ASCII letters and digits
    and [*], [-], [.], [_]. *)
Definition unreserved (c : ascii) : bool :=
  let n := nat_of_ascii c in
  between 48 57 n || between 65 90 n || between 97 122 n
  || (n =? 42)%nat || (n =? 45)%nat || (n =? 46)%nat || (n =? 95)%nat.

Definition percentEncodeByte (c : ascii) : string :=
  let n := nat_of_ascii c in
  String "%" (String (hexDigit (n / 16)) (String (hexDigit (n mod 16)) "")).

(** One byte of a name or value: a space becomes [+]. *)
Definition serializeByte (c : ascii) : string :=
  if Ascii.eqb c " " then "+"
  else if unreserved c then String c ""
  else percentEncodeByte c.

Fixpoint serializeText (s : string) : string :=
  match s with
  | EmptyString => ""
  | String c rest => (serializeByte c ++ serializeText rest)%string
  end.

Definition serializePair (kv : string * string) : string :=
  (serializeText (fst kv) ++ "=" ++ serializeText (snd kv))%string.

(** [params.toString()]. *)
Definition toString (p : Params) : string :=
  JS.join "&" (map serializePair p).

(** Percent-decoding: [%] followed by two hexadecimal digits is the byte
    they denote, any other byte stands for itself. *)
Fixpoint percentDecode (s : string) : string :=
  match s with
  | EmptyString => ""
  | String c rest =>
      if Ascii.eqb c "%" then
        match rest with
        | String h (String l rest') =>
            match hexValue h, hexValue l with
            | Some hi, Some lo =>
                String (ascii_of_nat (16 * hi + lo)) (percentDecode rest')
            | _, _ => String c (percentDecode rest)
            end
        | _ => String c (percentDecode rest)
        end
      else String c (percentDecode rest)
  end.

Fixpoint plusToSpace (s : string) : string :=
  match s with
  | EmptyString => ""
  | String c rest =>
      String (if Ascii.eqb c "+" then " "%char else c) (plusToSpace rest)
  end.

(** The part of [s] before the first [sep] and the part after it; without
    [sep], all of [s] and the empty string. *)
Fixpoint cut (sep : ascii) (s : string) : string * string :=
  match s with
  | EmptyString => ("", "")
  | String c rest =>
      if Ascii.eqb c sep then ("", rest)
      else let (before, after) := cut sep rest in (String c before, after)
  end.

Definition contains (c : ascii) (s : string) : bool :=
  existsb (Ascii.eqb c) (list_ascii_of_string s).

(** The bytes [encodeURIComponent] leaves as they are: ASCII letters and
    digits and [-], [_], [.], [!], [~], [*], ['], [(], [)]. *)
Definition uriUnreserved (c : ascii) : bool :=
  let n := nat_of_ascii c in
  between 48 57 n || between 65 90 n || between 97 122 n
  || (n =? 45)%nat || (n =? 95)%nat || (n =? 46)%nat || (n =? 33)%nat
  || (n =? 126)%nat || (n =? 42)%nat || between 39 41 n.

(** [encodeURIComponent(s)] on well-formed text. *)
Fixpoint encodeURIComponent (s : string) : string :=
  match s with
  | EmptyString => ""
  | String c rest =>
      ((if uriUnreserved c then String c "" else percentEncodeByte c)
       ++ encodeURIComponent rest)%string
  end.

Section Decoder.

(** UTF-8 decoding without BOM, as bytes again: the identity on
    well-formed text. *)
Variable utf8Decode : string -> string.

Definition decodeText (s : string) : string :=
  utf8Decode (percentDecode (plusToSpace s)).

Definition decodePair (kv : string * string) : string * string :=
  (utf8Decode (fst kv), utf8Decode (snd kv)).

(** One sequence between ampersands: empty sequences are skipped. *)
Definition parsePair (sequence : string) : Params :=
  if sequence =? "" then []
  else let (name, value) := cut "=" sequence in [(decodeText name, decodeText value)].

(** [new URLSearchParams(text)]: a leading [?] is dropped. *)
Definition parse (text : string) : Params :=
  let text :=
    match text with
    | String c rest => if Ascii.eqb c "?" then rest else text
    | EmptyString => text
    end in
  flat_map parsePair (Worker.split "&" text).

(** [location.hash.replace(/^#/, "")]. *)
Definition removeHash (hash : string) : string :=
  match hash with
  | String c rest => if Ascii.eqb c "#" then rest else hash
  | EmptyString => hash
  end.

(** The page as loaded at a location whose [location.hash] is [hash]. *)
Definition loadPage (hash : string) (stored : option string) : Page :=
  freshPage (parse (removeHash hash)) stored.

End Decoder.

(** [location.hash] after [history.replaceState] wrote the parameters [p]:
    no fragment when [params.toString()] is empty. *)
Definition locationHash (p : Params) : string :=
  let hashString := toString p in
  if truthy hashString then ("#" ++ hashString)%string else "".

(** Text whose bytes UTF-8 decoding leaves as they are. *)
Definition wellFormedText (utf8Decode : string -> string) (p : Params) : Prop :=
  forall k v, In (k, v) p -> utf8Decode k = k /\ utf8Decode v = v.

End Query.

(** ** Tactics *)

(** Unfolds the straight-line procedures down to the page record. *)
Ltac unfold_procs :=
  unfold renderInsightDrawer, renderSources, updateHash, andThen,
    replaceFragment, storageSet, emit, modifyState, register, skip;
  cbn [state localStorage fragment registry trace].

(** Solves a round-trip goal once the keys of the fragment are literals. *)
Ltac decode_encode :=
  unfold updateHash, applyStateFromHash, freshPage, replaceFragment, modifyState,
    hashParams, params_get, orNull; simpl;
  repeat match goal with
         | H : truthy _ = true |- _ => rewrite H; simpl
         | H : present _ = false |- _ => rewrite H; simpl
         end;
  try reflexivity.

(** ** How the procedures act on the components of the page *)

Section Frames.

Variable data : Dataset.

Lemma updateAllChartStyles_fold (l : list string) (w : Page) :
  fold_left (fun w chart => emit (ChartUpdate chart) w) l w =
  {| state := state w; localStorage := localStorage w;
     fragment := fragment w; registry := registry w;
     trace := trace w ++ map ChartUpdate l |}.
Proof.
  revert w. induction l as [|k l IH]; intros w; simpl.
  - rewrite app_nil_r. destruct w; reflexivity.
  - rewrite IH. simpl. rewrite <- app_assoc. reflexivity.
Qed.

Lemma updateAllChartStyles_eq (w : Page) :
  updateAllChartStyles w =
  {| state := state w; localStorage := localStorage w;
     fragment := fragment w; registry := registry w;
     trace := trace w ++ map ChartUpdate (registry w) |}.
Proof. apply updateAllChartStyles_fold. Qed.

Lemma handleSelection_eq (c l : string) (w : Page) :
  let sameSelection :=
    match selectedInsight (state w) with
    | Some i => getSelectionKey (chartKey i) (label i) =? getSelectionKey c l
    | None => false
    end in
  let s' := setInsight (if sameSelection then None
                        else Some {| chartKey := c; label := l |}) (state w) in
  handleSelection data c l w =
  {| state := s';
     localStorage := localStorage w;
     fragment := hashParams s';
     registry := registry w;
     trace := trace w ++ [HashWrite (hashParams s')]
                ++ map ChartUpdate (registry w)
                ++ [DrawerRender (drawerView data s');
                    SourcesRender (sourceItems data s')] |}.
Proof.
  cbv zeta. unfold handleSelection, andThen.
  rewrite updateAllChartStyles_eq. unfold_procs.
  rewrite <- !app_assoc. reflexivity.
Qed.

Lemma clearSelection_eq (w : Page) :
  let s' := setInsight None (state w) in
  clearSelection data w =
  {| state := s';
     localStorage := localStorage w;
     fragment := hashParams s';
     registry := registry w;
     trace := trace w ++ [HashWrite (hashParams s')]
                ++ map ChartUpdate (registry w)
                ++ [DrawerRender (drawerView data s');
                    SourcesRender (sourceItems data s')] |}.
Proof.
  cbv zeta. unfold clearSelection, andThen.
  rewrite updateAllChartStyles_eq. unfold_procs.
  rewrite <- !app_assoc. reflexivity.
Qed.

Lemma showDiscipline_eq (name : string) (detail : Discipline) (w : Page) :
  lookup name (disciplines data) = Some detail ->
  let s' := setDiscipline (Some name) (state w) in
  showDiscipline data name w =
  {| state := s';
     localStorage := Some name;
     fragment := hashParams s';
     registry := registry w;
     trace := trace w ++ [StorageSet name; HashWrite (hashParams s');
                          DisciplineRender name;
                          SourcesRender (sourceItems data s')] |}.
Proof.
  intros H. cbv zeta. unfold showDiscipline. rewrite H.
  unfold_procs. rewrite <- !app_assoc. reflexivity.
Qed.

Lemma changeFilter_eq (value : string) (w : Page) :
  let s' := setSourceFilter value (state w) in
  changeFilter data value w =
  {| state := s';
     localStorage := localStorage w;
     fragment := fragment w;
     registry := registry w;
     trace := trace w ++ [SourcesRender (sourceItems data s')] |}.
Proof. reflexivity. Qed.

End Frames.

(** ** Toggling the selected insight *)

Lemma colonFree_head (a : ascii) (s : string) :
  colonFree (String a s) = true -> a <> ":"%char /\ colonFree s = true.
Proof.
  simpl. intros H. apply andb_true_iff in H. destruct H as [Ha Hs].
  split; [|exact Hs].
  intros ->. discriminate Ha.
Qed.

(** On colon-free chart identifiers the selection key determines the
    pair. *)
Lemma getSelectionKey_inj (c1 c2 l1 l2 : string) :
  colonFree c1 = true -> colonFree c2 = true ->
  getSelectionKey c1 l1 = getSelectionKey c2 l2 ->
  c1 = c2 /\ l1 = l2.
Proof.
  unfold getSelectionKey. revert c2.
  induction c1 as [|a c1 IH]; intros [|b c2] H1 H2 E; simpl in E.
  - injection E as ->. auto.
  - apply colonFree_head in H2. destruct H2 as [Hb _].
    injection E as Eb _. symmetry in Eb. contradiction.
  - apply colonFree_head in H1. destruct H1 as [Ha _].
    injection E as Ea _. contradiction.
  - apply colonFree_head in H1. apply colonFree_head in H2.
    destruct H1 as [_ H1], H2 as [_ H2].
    injection E as -> E.
    destruct (IH c2 H1 H2 E) as [-> ->]. auto.
Qed.

Lemma Insight_eqb_eq (a b : Insight) : Insight_eqb a b = true <-> a = b.
Proof.
  destruct a as [c1 l1], b as [c2 l2]. unfold Insight_eqb. simpl.
  rewrite andb_true_iff, !String.eqb_eq.
  split; [intros [-> ->]; reflexivity | intros E; injection E; auto].
Qed.

(** With colon-free chart identifiers, [handleSelection] clears a selection
    equal by value to the pair and otherwise selects the pair. *)
Lemma handleSelection_colonFree (data : Dataset) (c l : string) (w : Page) :
  colonFree c = true ->
  (forall i, selectedInsight (state w) = Some i -> colonFree (chartKey i) = true) ->
  selectedInsight (state (handleSelection data c l w)) =
  match selectedInsight (state w) with
  | Some i =>
      if Insight_eqb i {| chartKey := c; label := l |} then None
      else Some {| chartKey := c; label := l |}
  | None => Some {| chartKey := c; label := l |}
  end.
Proof.
  intros Hc Hw. rewrite handleSelection_eq. cbn [state selectedInsight setInsight].
  destruct (selectedInsight (state w)) as [i|]; [|reflexivity].
  specialize (Hw i eq_refl).
  destruct (String.eqb_spec (getSelectionKey (chartKey i) (label i))
                            (getSelectionKey c l)) as [E|E].
  - destruct (getSelectionKey_inj _ _ _ _ Hw Hc E) as [Ec El].
    destruct i as [ci li]. simpl in Ec, El. subst.
    unfold Insight_eqb. simpl. rewrite !String.eqb_refl. reflexivity.
  - destruct (Insight_eqb i {| chartKey := c; label := l |}) eqn:Ei; [|reflexivity].
    apply Insight_eqb_eq in Ei. subst i. contradiction E. reflexivity.
Qed.

(** From a cleared selection, one call selects the pair and a second call
    with the same pair clears it again. *)
Lemma handleSelection_twice (data : Dataset) (c l : string) (w : Page) :
  selectedInsight (state w) = None ->
  selectedInsight (state (handleSelection data c l w))
    = Some {| chartKey := c; label := l |}
  /\ selectedInsight (state (handleSelection data c l (handleSelection data c l w)))
    = None.
Proof.
  intros H. rewrite !handleSelection_eq. cbn [state selectedInsight setInsight].
  rewrite H. cbn [chartKey label]. rewrite String.eqb_refl. auto.
Qed.

(** Selecting a family and then a point of the trend leaves the point
    selected, and only it. *)
Lemma handleSelection_cross_chart (w : Page) :
  selectedInsight (state w) = None ->
  selectedInsight
    (state (handleSelection sampleData "aiMentionsTrend" "2024-Q1"
              (handleSelection sampleData "aiMentionsByFamily" "Nursing" w)))
  = Some {| chartKey := "aiMentionsTrend"; label := "2024-Q1" |}.
Proof.
  intros H. rewrite !handleSelection_eq. cbn [state selectedInsight setInsight].
  rewrite H. reflexivity.
Qed.

(** C1, on the script: the comparison goes through [getSelectionKey], and
    two different pairs can have the same key. A page opened with the
    fragment [chart=aiMentionsTrend::2024&label=Q1] holds that pair as its
    selection; the trend point labelled [2024::Q1] is a different pair and
    is not drawn as selected, yet a click on it clears the selection instead
    of moving it. *)
Theorem handleSelection_key_collision :
  let opened :=
    init sampleData
         (freshPage [("chart", "aiMentionsTrend::2024"); ("label", "Q1")] None) in
  let clicked := {| chartKey := "aiMentionsTrend"; label := "2024::Q1" |} in
  selectedInsight (state opened)
    = Some {| chartKey := "aiMentionsTrend::2024"; label := "Q1" |}
  /\ Insight_eqb {| chartKey := "aiMentionsTrend::2024"; label := "Q1" |} clicked = false
  /\ isSelected (chartKey clicked) (label clicked) (state opened) = false
  /\ handle sampleData (ChartClick "aiMentionsTrend" 1) opened
     = handleSelection sampleData (chartKey clicked) (label clicked) opened
  /\ selectedInsight
       (state (handleSelection sampleData (chartKey clicked) (label clicked) opened))
     = None.
Proof. vm_compute. repeat split; reflexivity. Qed.

(** C9: [handleSelection] and the clear-selection handler change no field
    of the state other than [selectedInsight]. *)
Theorem insight_mutators_frame (data : Dataset) (c l : string) (w : Page) :
  (selectedDiscipline (state (handleSelection data c l w))
     = selectedDiscipline (state w)
   /\ sourceFilter (state (handleSelection data c l w)) = sourceFilter (state w))
  /\
  (selectedDiscipline (state (clearSelection data w)) = selectedDiscipline (state w)
   /\ sourceFilter (state (clearSelection data w)) = sourceFilter (state w)).
Proof.
  rewrite handleSelection_eq, clearSelection_eq. repeat split.
Qed.

(** ** The fragment of the location *)

Lemma orNull_absent (x : option string) : present x = false -> orNull x = None.
Proof. unfold orNull. intros ->. reflexivity. Qed.

Lemma orNull_present (x : option string) : present (orNull x) = present x.
Proof. unfold orNull. destruct (present x) eqn:E; [exact E | reflexivity]. Qed.

(** C3, as stated: fragments that use the recognised keys in the fixed
    order and do not come back. The first carries a chart without a label,
    which [applyStateFromHash] drops; the second carries no discipline, and
    the one kept in local storage is written into the fragment. *)
Lemma hash_roundtrip_counterexample :
  let f1 := [("discipline", "Nursing"); ("chart", "aiMentionsTrend")] in
  let f2 := [("chart", "aiMentionsTrend"); ("label", "2024-Q1")] in
  (wellFormedFragment f1 = true
   /\ fragment (updateHash (applyStateFromHash (freshPage f1 None)))
      = [("discipline", "Nursing")]
   /\ fragment (updateHash (applyStateFromHash (freshPage f1 None))) <> f1)
  /\
  (wellFormedFragment f2 = true
   /\ fragment (updateHash (applyStateFromHash (freshPage f2 (Some "Nursing"))))
      = [("discipline", "Nursing"); ("chart", "aiMentionsTrend"); ("label", "2024-Q1")]
   /\ fragment (updateHash (applyStateFromHash (freshPage f2 (Some "Nursing")))) <> f2).
Proof.
  cbv zeta. repeat split; try reflexivity; vm_compute; discriminate.
Qed.

(** At the level of the parameters: what [updateHash] writes after
    [applyStateFromHash] read the parameters of a fragment. *)
Lemma canonical_params_roundtrip (f : Params) (stored : option string) :
  canonicalFragment f = true ->
  present (params_get "discipline" f) = true \/ present stored = false ->
  fragment (updateHash (applyStateFromHash (freshPage f stored))) = f.
Proof.
  intros Hf Hd.
  destruct f as [|[k1 v1] [|[k2 v2] [|[k3 v3] [|? ?]]]]; simpl in Hf;
    try discriminate Hf.
  - destruct Hd as [Hd|Hd]; [discriminate Hd|]. decode_encode.
  - apply andb_true_iff in Hf. destruct Hf as [Hk Hv].
    apply String.eqb_eq in Hk. subst k1. decode_encode.
  - repeat (apply andb_true_iff in Hf; destruct Hf as [Hf ?]).
    apply String.eqb_eq in Hf. subst k1.
    match goal with H : (k2 =? _) = true |- _ => apply String.eqb_eq in H; subst k2 end.
    destruct Hd as [Hd|Hd]; [discriminate Hd|]. decode_encode.
  - repeat (apply andb_true_iff in Hf; destruct Hf as [Hf ?]).
    apply String.eqb_eq in Hf. subst k1.
    repeat match goal with
           | H : (_ =? _) = true |- _ => apply String.eqb_eq in H; subst
           end.
    decode_encode.
Qed.

Lemma state_params_roundtrip (w : Page) (stored : option string) (d : string) (i : Insight) :
  selectedDiscipline (state w) = Some d -> truthy d = true ->
  selectedInsight (state w) = Some i ->
  truthy (chartKey i) = true -> truthy (label i) = true ->
  let reloaded := applyStateFromHash (freshPage (fragment (updateHash w)) stored) in
  selectedDiscipline (state reloaded) = Some d
  /\ selectedInsight (state reloaded) = Some i.
Proof.
  destruct i as [c l]. intros Hd Td Hi Tc Tl. simpl in Tc, Tl.
  unfold updateHash, replaceFragment, hashParams. cbn [fragment].
  rewrite Hd, Hi, Td. cbn [chartKey label].
  decode_encode. auto.
Qed.

(** *** The serialiser and the parser *)

Lemma contains_append (c : ascii) (a b : string) :
  Query.contains c (a ++ b) = Query.contains c a || Query.contains c b.
Proof.
  unfold Query.contains. induction a as [|x a IH]; simpl; [reflexivity|].
  rewrite IH. apply orb_assoc.
Qed.

(** A serialised byte decodes to the byte, and is none of the characters
    that delimit names and values. *)
Lemma serializeByte_decode (c : ascii) (rest : string) :
  Query.percentDecode (Query.plusToSpace (Query.serializeByte c ++ rest))
  = String c (Query.percentDecode (Query.plusToSpace rest)).
Proof.
  destruct c as [[] [] [] [] [] [] [] []]; reflexivity.
Qed.

Lemma serializeByte_plain (c : ascii) :
  Query.contains "&" (Query.serializeByte c) = false
  /\ Query.contains "=" (Query.serializeByte c) = false
  /\ Query.contains "?" (Query.serializeByte c) = false.
Proof.
  destruct c as [[] [] [] [] [] [] [] []]; repeat split; reflexivity.
Qed.

Lemma serializeText_decode (s : string) :
  Query.percentDecode (Query.plusToSpace (Query.serializeText s)) = s.
Proof.
  induction s as [|c s IH]; [reflexivity|].
  cbn [Query.serializeText]. rewrite serializeByte_decode, IH. reflexivity.
Qed.

Lemma serializeText_plain (s : string) :
  Query.contains "&" (Query.serializeText s) = false
  /\ Query.contains "=" (Query.serializeText s) = false
  /\ Query.contains "?" (Query.serializeText s) = false.
Proof.
  induction s as [|c s (A & B & C)]; [repeat split; reflexivity|].
  destruct (serializeByte_plain c) as (A' & B' & C').
  cbn [Query.serializeText]. rewrite !contains_append, A, B, C, A', B', C'.
  repeat split; reflexivity.
Qed.

Lemma cut_first (sep : ascii) (a b : string) :
  Query.contains sep a = false ->
  Query.cut sep (a ++ String sep b) = (a, b).
Proof.
  unfold Query.contains. induction a as [|x a IH]; simpl.
  - intros _. rewrite Ascii.eqb_refl. reflexivity.
  - intros H. apply orb_false_iff in H. destruct H as [X H].
    rewrite Ascii.eqb_sym, X, (IH H). reflexivity.
Qed.

Lemma split_whole (sep : ascii) (a : string) :
  Query.contains sep a = false -> Worker.split sep a = [a].
Proof.
  unfold Query.contains. induction a as [|x a IH]; simpl; [reflexivity|].
  intros H. apply orb_false_iff in H. destruct H as [X H].
  rewrite Ascii.eqb_sym, X, (IH H). reflexivity.
Qed.

Lemma split_first (sep : ascii) (a b : string) :
  Query.contains sep a = false ->
  Worker.split sep (a ++ String sep b) = a :: Worker.split sep b.
Proof.
  unfold Query.contains. induction a as [|x a IH]; simpl.
  - intros _. rewrite Ascii.eqb_refl. reflexivity.
  - intros H. apply orb_false_iff in H. destruct H as [X H].
    rewrite Ascii.eqb_sym, X, (IH H). reflexivity.
Qed.

Section Parsing.

Variable utf8Decode : string -> string.

Lemma pair_plain (kv : string * string) :
  Query.contains "&" (Query.serializePair kv) = false
  /\ Query.contains "?" (Query.serializePair kv) = false.
Proof.
  destruct (serializeText_plain (fst kv)) as (A & _ & C).
  destruct (serializeText_plain (snd kv)) as (A' & _ & C').
  unfold Query.serializePair. rewrite !contains_append, A, A', C, C'.
  split; reflexivity.
Qed.

Lemma parsePair_pair (kv : string * string) :
  Query.parsePair utf8Decode (Query.serializePair kv)
  = [Query.decodePair utf8Decode kv].
Proof.
  unfold Query.parsePair, Query.serializePair.
  destruct (String.eqb_spec
              (Query.serializeText (fst kv) ++ "=" ++ Query.serializeText (snd kv)) "")
    as [E|_].
  - destruct (Query.serializeText (fst kv)); discriminate E.
  - change ("=" ++ Query.serializeText (snd kv))%string
      with (String "=" (Query.serializeText (snd kv))).
    rewrite cut_first by apply serializeText_plain.
    unfold Query.decodeText. rewrite !serializeText_decode. reflexivity.
Qed.

Lemma parse_pieces (kv : string * string) (p : Params) :
  flat_map (Query.parsePair utf8Decode)
           (Worker.split "&" (JS.join "&" (map Query.serializePair (kv :: p))))
  = map (Query.decodePair utf8Decode) (kv :: p).
Proof.
  revert kv. induction p as [|kv' p IH]; intros kv.
  - simpl. rewrite split_whole by apply pair_plain. simpl.
    rewrite parsePair_pair. reflexivity.
  - change (JS.join "&" (map Query.serializePair (kv :: kv' :: p)))
      with (Query.serializePair kv
            ++ String "&" (JS.join "&" (map Query.serializePair (kv' :: p))))%string.
    rewrite split_first by apply pair_plain.
    cbn [flat_map]. rewrite parsePair_pair, IH. reflexivity.
Qed.

Lemma toString_plain (p : Params) : Query.contains "?" (Query.toString p) = false.
Proof.
  unfold Query.toString.
  induction p as [|kv p IH]; [reflexivity|].
  destruct p as [|kv' p].
  - simpl. apply pair_plain.
  - change (JS.join "&" (map Query.serializePair (kv :: kv' :: p)))
      with (Query.serializePair kv
            ++ String "&" (JS.join "&" (map Query.serializePair (kv' :: p))))%string.
    rewrite contains_append. rewrite (proj2 (pair_plain kv)).
    change (String "&" ?x) with ("&" ++ x)%string.
    rewrite contains_append, IH. reflexivity.
Qed.

(** Parsing what the serialiser wrote gives the pairs back, up to the
    UTF-8 decoding of their bytes. *)
Lemma parse_toString (p : Params) :
  Query.parse utf8Decode (Query.toString p) = map (Query.decodePair utf8Decode) p.
Proof.
  unfold Query.parse.
  assert (S : match Query.toString p with
              | String c rest => if Ascii.eqb c "?" then rest else Query.toString p
              | EmptyString => Query.toString p
              end = Query.toString p).
  { assert (Q := toString_plain p).
    destruct (Query.toString p) as [|c rest]; [reflexivity|].
    unfold Query.contains in Q. cbn [list_ascii_of_string existsb] in Q.
    apply orb_false_iff in Q. destruct Q as [Q _].
    rewrite Ascii.eqb_sym, Q. reflexivity. }
  cbv zeta. rewrite S.
  destruct p as [|kv p]; [reflexivity | apply parse_pieces].
Qed.

Lemma parse_locationHash (p : Params) :
  Query.wellFormedText utf8Decode p ->
  Query.parse utf8Decode (Query.removeHash (Query.locationHash p)) = p.
Proof.
  intros W.
  assert (R : Query.removeHash (Query.locationHash p) = Query.toString p).
  { unfold Query.locationHash. destruct (Query.toString p); reflexivity. }
  rewrite R, parse_toString. clear R.
  induction p as [|[k v] p IH]; [reflexivity|].
  simpl. unfold Query.decodePair at 1. simpl.
  destruct (W k v (or_introl eq_refl)) as [-> ->].
  rewrite IH; [reflexivity|]. intros k' v' I. apply W. right. exact I.
Qed.

End Parsing.

(** C3, amended: a fragment in the form [updateHash] writes, that is [#]
    followed by the form-urlencoded serialisation of an optional discipline
    followed by an optional chart with its label, all values non-empty
    well-formed text, or no fragment at all, is written back unchanged when
    it is decoded on a freshly loaded page, provided it carries a
    discipline or local storage holds none. And a state with a non-empty
    discipline and an insight of non-empty chart and label, once written
    to the location, is read back on a freshly loaded page with the same
    discipline and the same insight, whatever local storage holds. *)
Theorem hash_roundtrip (utf8Decode : string -> string) :
  (forall (f : Params) (stored : option string),
      canonicalFragment f = true ->
      Query.wellFormedText utf8Decode f ->
      present (params_get "discipline" f) = true \/ present stored = false ->
      let opened :=
        applyStateFromHash (Query.loadPage utf8Decode (Query.locationHash f) stored) in
      Query.locationHash (fragment (updateHash opened)) = Query.locationHash f)
  /\
  (forall (w : Page) (stored : option string) (d : string) (i : Insight),
      selectedDiscipline (state w) = Some d -> truthy d = true ->
      selectedInsight (state w) = Some i ->
      truthy (chartKey i) = true -> truthy (label i) = true ->
      Query.wellFormedText utf8Decode (hashParams (state w)) ->
      let reloaded :=
        applyStateFromHash
          (Query.loadPage utf8Decode (Query.locationHash (fragment (updateHash w)))
                          stored) in
      selectedDiscipline (state reloaded) = Some d
      /\ selectedInsight (state reloaded) = Some i).
Proof.
  split.
  - intros f stored Hf W Hd opened. subst opened. unfold Query.loadPage.
    rewrite (parse_locationHash utf8Decode f W).
    rewrite (canonical_params_roundtrip f stored Hf Hd). reflexivity.
  - intros w stored d i Hd Td Hi Tc Tl W reloaded. subst reloaded.
    unfold Query.loadPage.
    rewrite (parse_locationHash utf8Decode (fragment (updateHash w)) W).
    exact (state_params_roundtrip w stored d i Hd Td Hi Tc Tl).
Qed.

Lemma hash_roundtrip_witness :
  let utf8Decode := fun text : string => text in
  Query.locationHash
    (fragment
       (updateHash
          (applyStateFromHash
             (Query.loadPage utf8Decode
                "#discipline=Arts+%26+Sciences&chart=trendChart&label=2024-Q1"
                (Some "Business")))))
  = "#discipline=Arts+%26+Sciences&chart=trendChart&label=2024-Q1"
  /\
  (let w := {| state := {| selectedInsight :=
                             Some {| chartKey := "trendChart"; label := "2024-Q1" |};
                           selectedDiscipline := Some "Nursing";
                           sourceFilter := "all" |};
               localStorage := Some "Nursing";
               fragment := [];
               registry := [];
               trace := [] |} in
   let reloaded :=
     applyStateFromHash
       (Query.loadPage utf8Decode (Query.locationHash (fragment (updateHash w))) None) in
   selectedDiscipline (state reloaded) = Some "Nursing"
   /\ selectedInsight (state reloaded)
      = Some {| chartKey := "trendChart"; label := "2024-Q1" |}).
Proof.
  cbv zeta. split.
  - apply (proj1 (hash_roundtrip (fun text => text))
             [("discipline", "Arts & Sciences"); ("chart", "trendChart");
              ("label", "2024-Q1")] (Some "Business"));
      [reflexivity | intros k v _; split; reflexivity | left; reflexivity].
  - apply (proj2 (hash_roundtrip (fun text => text)));
      [reflexivity .. | intros k v _; split; reflexivity].
Defined.

(** Another spelling of the same parameters is not written back as it
    was: [%20] comes back as [+]. *)
Example hash_respelled :
  let opened :=
    applyStateFromHash
      (Query.loadPage (fun text => text) "#discipline=Arts%20Sciences" None) in
  selectedDiscipline (state opened) = Some "Arts Sciences"
  /\ Query.locationHash (fragment (updateHash opened)) = "#discipline=Arts+Sciences".
Proof. vm_compute. split; reflexivity. Qed.

(** ** Seeding the state at boot *)

Section Boot.

Variable data : Dataset.

Lemma state_createChart (k : string) (w : Page) :
  state (createChart data k w) = state w.
Proof. unfold createChart. destruct (lookup k (charts data)); reflexivity. Qed.

Lemma state_renderInsightDrawer (w : Page) :
  state (renderInsightDrawer data w) = state w.
Proof. reflexivity. Qed.

Lemma state_renderSources (w : Page) : state (renderSources data w) = state w.
Proof. reflexivity. Qed.

Lemma state_updateAllChartStyles (w : Page) :
  state (updateAllChartStyles w) = state w.
Proof. rewrite updateAllChartStyles_eq. reflexivity. Qed.

Lemma includes_In (x : string) (l : list string) :
  includes x l = true <-> In x l.
Proof.
  unfold includes. rewrite existsb_exists. split.
  - intros [y [Hy E]]. apply String.eqb_eq in E. subst. exact Hy.
  - intros H. exists x. split; [exact H | apply String.eqb_refl].
Qed.

Lemma lookup_keys {A : Type} (k : string) (obj : list (string * A)) :
  includes k (keys obj) = true <-> exists v, lookup k obj = Some v.
Proof.
  induction obj as [|[k' v'] obj IH]; simpl.
  - split; [discriminate | intros [v H]; discriminate H].
  - destruct (String.eqb_spec k k') as [->|N]; simpl.
    + split; [intros _; exists v'; reflexivity | reflexivity].
    + exact IH.
Qed.

Lemma shownDiscipline_lookup (seeded : option string) (first : string)
      (rest : list string) :
  keys (disciplines data) = first :: rest ->
  exists detail,
    lookup (match seeded with
            | Some d => if includes d (keys (disciplines data)) then d else first
            | None => first
            end) (disciplines data) = Some detail.
Proof.
  intros K. apply lookup_keys.
  assert (F : includes first (keys (disciplines data)) = true).
  { rewrite K. simpl. rewrite String.eqb_refl. reflexivity. }
  destruct seeded as [d|]; [|exact F].
  destruct (includes d (keys (disciplines data))) eqn:E; [exact E | exact F].
Qed.

Lemma state_renderDisciplineView (w : Page) :
  state (renderDisciplineView data w) =
  setDiscipline (shownDiscipline data (selectedDiscipline (state w))) (state w).
Proof.
  unfold renderDisciplineView, shownDiscipline.
  destruct (keys (disciplines data)) as [|first rest] eqn:K.
  - destruct w as [[? ? ?] ? ? ? ?]. reflexivity.
  - destruct (shownDiscipline_lookup (selectedDiscipline (state w)) first rest K)
      as [detail L].
    rewrite K in L. rewrite (showDiscipline_eq _ _ detail _ L). reflexivity.
Qed.

Lemma state_init (w : Page) :
  state (init data w) =
  setDiscipline
    (shownDiscipline data (selectedDiscipline (state (applyStateFromHash w))))
    (state (applyStateFromHash w)).
Proof.
  unfold init, andThen.
  match goal with
  | |- state (match ?c with Some _ => updateAllChartStyles ?p | None => ?p end) = _ =>
      assert (E : state (match c with Some _ => updateAllChartStyles p | None => p end)
                  = state p)
        by (destruct c; [apply state_updateAllChartStyles | reflexivity]);
      rewrite E; clear E
  end.
  rewrite state_renderSources, state_renderDisciplineView,
    state_renderInsightDrawer, !state_createChart.
  reflexivity.
Qed.

End Boot.

(** C5, as stated: with no fragment and nothing in local storage, the
    selected discipline is not the default [null] once [init] has run; it
    is the first discipline of the dataset. *)
Lemma boot_default_counterexample :
  params_get "discipline" [] = None
  /\ selectedDiscipline (state (applyStateFromHash (freshPage [] None))) = None
  /\ selectedDiscipline (state (init sampleData (freshPage [] None))) = Some "Nursing"
  /\ selectedDiscipline (state (init sampleData (freshPage [] None)))
     <> selectedDiscipline initialState.
Proof. repeat split; try reflexivity. vm_compute. discriminate. Qed.

(** C5, amended: [applyStateFromHash] seeds the discipline with the first
    present value among the fragment's and the stored one, the insight with
    the fragment's chart and label when both are present, and leaves the
    rest at the defaults. When [init] completes, the insight and the filter
    are as seeded; the discipline is the seeded one if the dataset has no
    discipline or has that one, and the first discipline of the dataset
    otherwise. *)
Theorem boot_seeding (data : Dataset) (hash : Params) (stored : option string) :
  let seeded := state (applyStateFromHash (freshPage hash stored)) in
  let final := state (init data (freshPage hash stored)) in
  (selectedDiscipline seeded
     = firstPresent [params_get "discipline" hash; stored]
   /\ selectedInsight seeded
     = (if present (params_get "chart" hash) && present (params_get "label" hash)
        then Some {| chartKey := orElse (params_get "chart" hash) "";
                     label := orElse (params_get "label" hash) "" |}
        else None)
   /\ sourceFilter seeded = "selection")
  /\
  (selectedInsight final = selectedInsight seeded
   /\ sourceFilter final = "selection"
   /\ selectedDiscipline final
      = match keys (disciplines data) with
        | [] => selectedDiscipline seeded
        | first :: _ =>
            Some match selectedDiscipline seeded with
                 | Some d => if includes d (keys (disciplines data)) then d else first
                 | None => first
                 end
        end).
Proof.
  cbv zeta.
  assert (S : let seeded := state (applyStateFromHash (freshPage hash stored)) in
              selectedDiscipline seeded
                = firstPresent [params_get "discipline" hash; stored]
              /\ selectedInsight seeded
                = (if present (params_get "chart" hash) && present (params_get "label" hash)
                   then Some {| chartKey := orElse (params_get "chart" hash) "";
                                label := orElse (params_get "label" hash) "" |}
                   else None)
              /\ sourceFilter seeded = "selection").
  { cbv zeta. unfold applyStateFromHash, freshPage, modifyState. cbn [fragment localStorage state].
    destruct (params_get "discipline" hash) as [d|] eqn:D;
      destruct (params_get "chart" hash) as [c|] eqn:C;
      destruct (params_get "label" hash) as [l|] eqn:L;
      unfold firstPresent, orNull, present;
      repeat match goal with
             | |- context [truthy ?x] => destruct (truthy x) eqn:?; simpl
             | |- context [match ?x with Some _ => _ | None => _ end] =>
                 is_var x; destruct x; simpl
             end;
      repeat split; reflexivity. }
  split; [exact S|].
  rewrite state_init. unfold shownDiscipline.
  destruct S as [_ [_ SF]].
  destruct (keys (disciplines data)); cbn [selectedInsight sourceFilter selectedDiscipline setDiscipline];
    repeat split; exact SF.
Qed.

(** ** The invariant of the selection *)

Section Invariant.

Variable data : Dataset.
Variable seed : option Insight.

Lemma nth_error_includes (l : list string) (n : nat) (x : string) :
  nth_error l n = Some x -> includes x l = true.
Proof. intros H. apply includes_In. exact (nth_error_In l n H). Qed.

Lemma settled_insight (w w' : Page) (i : option Insight) :
  settled data seed w ->
  state w' = setInsight i (state w) ->
  match i with Some j => insightValid data j = true | None => True end ->
  settled data seed w'.
Proof.
  intros [_ HD] E Hi. unfold settled. rewrite E. split.
  - unfold insightSettled. cbn [selectedInsight setInsight].
    destruct i as [j|]; [rewrite Hi|]; reflexivity.
  - exact HD.
Qed.

Lemma settled_handleSelection (c l : string) (chart : Chart) (w : Page) :
  lookup c (charts data) = Some chart ->
  includes l (labels chart) = true ->
  settled data seed w -> settled data seed (handleSelection data c l w).
Proof.
  intros L I H.
  eapply settled_insight; [exact H | rewrite handleSelection_eq; reflexivity |].
  match goal with |- match (if ?b then _ else _) with _ => _ end => destruct b end;
    [exact Logic.I|].
  unfold insightValid. cbn [chartKey label]. rewrite L. exact I.
Qed.

Lemma settled_showDiscipline (name : string) (w : Page) :
  settled data seed w -> settled data seed (showDiscipline data name w).
Proof.
  intros [HI HD]. destruct (lookup name (disciplines data)) as [detail|] eqn:L.
  - rewrite (showDiscipline_eq _ _ detail _ L). split; [exact HI|].
    unfold disciplineSettled. cbn [state selectedDiscipline setDiscipline].
    destruct (keys (disciplines data)) eqn:K; [reflexivity|].
    unfold disciplineValid. rewrite K. rewrite <- K.
    apply lookup_keys. exists detail. exact L.
  - unfold showDiscipline. rewrite L. split; assumption.
Qed.

Lemma settled_handle (e : Event) (w : Page) :
  settled data seed w -> settled data seed (handle data e w).
Proof.
  intros H. destruct e as [c n|name| |v]; cbn [handle].
  - unfold chartClick. destruct (includes c (registry w)); [|exact H].
    destruct (lookup c (charts data)) as [chart|] eqn:L; [|exact H].
    destruct (nth_error (labels chart) n) as [l|] eqn:N; [|exact H].
    exact (settled_handleSelection c l chart w L (nth_error_includes _ _ _ N) H).
  - apply settled_showDiscipline. exact H.
  - eapply settled_insight; [exact H | rewrite clearSelection_eq; reflexivity | exact Logic.I].
  - destruct H as [HI HD]. rewrite changeFilter_eq. split; assumption.
Qed.

Lemma settled_run (events : list Event) (w : Page) :
  settled data seed w -> settled data seed (run data events w).
Proof.
  revert w. induction events as [|e events IH]; intros w H; simpl.
  - exact H.
  - apply IH. apply settled_handle. exact H.
Qed.

End Invariant.

Lemma Insight_eqb_refl (i : Insight) : Insight_eqb i i = true.
Proof. apply Insight_eqb_eq. reflexivity. Qed.

Lemma settled_init (data : Dataset) (w : Page) :
  settled data (selectedInsight (state (applyStateFromHash w))) (init data w).
Proof.
  unfold settled. rewrite state_init. split.
  - unfold insightSettled. cbn [selectedInsight setDiscipline].
    destruct (selectedInsight (state (applyStateFromHash w))) as [i|]; [|reflexivity].
    rewrite Insight_eqb_refl. apply orb_true_r.
  - unfold disciplineSettled, shownDiscipline. cbn [selectedDiscipline setDiscipline].
    destruct (keys (disciplines data)) as [|first rest] eqn:K; [reflexivity|].
    unfold disciplineValid. rewrite K.
    assert (F : includes first (first :: rest) = true)
      by (simpl; rewrite String.eqb_refl; reflexivity).
    destruct (selectedDiscipline (state (applyStateFromHash w))) as [d|]; [|exact F].
    destruct (includes d (first :: rest)) eqn:E; [exact E | exact F].
Qed.

(** C2, as stated: the pair read from the fragment at boot is taken as it
    is. Opened with [chart=bogusChart&label=x], the page holds a selected
    insight whose chart is not in the dataset, before and after any event
    that does not touch the insight. *)
Lemma selection_invariant_counterexample :
  let opened :=
    init sampleData (freshPage [("chart", "bogusChart"); ("label", "x")] None) in
  selectedInsight (state opened) = Some {| chartKey := "bogusChart"; label := "x" |}
  /\ lookup "bogusChart" (charts sampleData) = None
  /\ selectionInvariant sampleData (state opened) = false
  /\ selectionInvariant sampleData
       (state (run sampleData [FilterChange "all"; DisciplineClick "Business"] opened))
     = false.
Proof. vm_compute. repeat split; reflexivity. Qed.

(** C2, amended: in every state reached from boot by chart clicks,
    discipline clicks, clearing and filter changes, the selected insight,
    if any, is the pair seeded from the fragment at boot or a chart of the
    dataset with one of its labels; and when the dataset has at least one
    discipline, a discipline is selected and it is a key of
    [disciplines]. *)
Theorem reachable_selection_settled
        (data : Dataset) (hash : Params) (stored : option string)
        (events : list Event) :
  let seed := selectedInsight (state (applyStateFromHash (freshPage hash stored))) in
  let reached := state (run data events (init data (freshPage hash stored))) in
  insightSettled data seed reached = true
  /\ disciplineSettled data reached = true.
Proof.
  cbv zeta. apply settled_run. apply settled_init.
Qed.

(** ** The notification pass of the mutators *)

Lemma effectsOf_app (p : Proc) (w : Page) (added : list Effect) :
  trace (p w) = trace w ++ added -> effectsOf p w = added.
Proof.
  unfold effectsOf. intros ->. generalize (trace w) as l.
  induction l as [|e l IH]; simpl; [reflexivity | exact IH].
Qed.

Section Registry.

Variable data : Dataset.

Lemma registry_handle (e : Event) (w : Page) :
  registry (handle data e w) = registry w.
Proof.
  destruct e as [c n|name| |v]; cbn [handle].
  - unfold chartClick. destruct (includes c (registry w)); [|reflexivity].
    destruct (lookup c (charts data)) as [chart|]; [|reflexivity].
    destruct (nth_error (labels chart) n); [|reflexivity].
    rewrite handleSelection_eq. reflexivity.
  - unfold showDiscipline.
    destruct (lookup name (disciplines data)); reflexivity.
  - rewrite clearSelection_eq. reflexivity.
  - reflexivity.
Qed.

Lemma registry_run (events : list Event) (w : Page) :
  registry (run data events w) = registry w.
Proof.
  revert w. induction events as [|e events IH]; intros w; simpl.
  - reflexivity.
  - rewrite IH. apply registry_handle.
Qed.

Lemma registry_createChart (k : string) (w : Page) :
  registry (createChart data k w) =
  registry w ++ match lookup k (charts data) with Some _ => [k] | None => [] end.
Proof.
  unfold createChart. destruct (lookup k (charts data)); simpl;
    [reflexivity | rewrite app_nil_r; reflexivity].
Qed.

Lemma registry_renderDisciplineView (w : Page) :
  registry (renderDisciplineView data w) = registry w.
Proof.
  unfold renderDisciplineView. destruct (keys (disciplines data)); [reflexivity|].
  unfold showDiscipline.
  match goal with |- context [lookup ?n (disciplines data)] =>
    destruct (lookup n (disciplines data)) end; reflexivity.
Qed.

Lemma registry_applyStateFromHash (w : Page) :
  registry (applyStateFromHash w) = registry w.
Proof.
  unfold applyStateFromHash, modifyState.
  destruct (present (params_get "discipline" (fragment w)));
    destruct (params_get "chart" (fragment w)) as [c|];
    destruct (params_get "label" (fragment w)) as [l|];
    try reflexivity;
    destruct (truthy c && truthy l); reflexivity.
Qed.

Lemma registry_init (hash : Params) (stored : option string) :
  registry (init data (freshPage hash stored)) = createdCharts data.
Proof.
  unfold init, andThen.
  match goal with
  | |- registry (match ?c with Some _ => updateAllChartStyles ?p | None => ?p end) = _ =>
      assert (E : registry (match c with Some _ => updateAllChartStyles p | None => p end)
                  = registry p)
        by (destruct c; [rewrite updateAllChartStyles_eq|]; reflexivity);
      rewrite E; clear E
  end.
  unfold renderSources at 1. cbn [registry emit].
  rewrite registry_renderDisciplineView.
  unfold renderInsightDrawer, andThen, renderSources. cbn [registry emit].
  rewrite !registry_createChart, registry_applyStateFromHash.
  unfold createdCharts, chartIds. simpl.
  destruct (lookup "aiMentionsTrend" (charts data));
    destruct (lookup "aiMentionsByFamily" (charts data));
    destruct (lookup "aiOutsideITShare" (charts data)); reflexivity.
Qed.

End Registry.

(** C4, as stated: on the initialised page, the handler of the sources
    filter only re-renders the sources list, and a click on a discipline
    writes local storage and the fragment and renders the discipline panel
    and the sources list; neither updates the charts or the drawer, and the
    filter handler does not write the fragment. *)
Lemma notification_pass_counterexample :
  let opened := init sampleData (freshPage [] None) in
  effectsOf (handle sampleData (FilterChange "all")) opened
    = [SourcesRender [Link "https://lightcast.io" "Lightcast"; Link "#" "BLS"]]
  /\ fullPass (effectsOf (handle sampleData (FilterChange "all")) opened) = false
  /\ effectsOf (handle sampleData (DisciplineClick "Business")) opened
    = [StorageSet "Business"; HashWrite [("discipline", "Business")];
       DisciplineRender "Business"; SourcesRender []]
  /\ fullPass (effectsOf (handle sampleData (DisciplineClick "Business")) opened) = false.
Proof. vm_compute. repeat split; reflexivity. Qed.

(** C4, amended: on a page reached from boot, each mutator first changes
    the state and then performs, in this order and with the new state:
    [handleSelection] and the clear-selection handler write the fragment,
    update every created chart, render the drawer and render the sources
    list; [showDiscipline], for a discipline of the dataset, writes local
    storage (whether or not the discipline changed), writes the fragment,
    renders the discipline panel and the sources list; the handler of the
    sources filter renders the sources list and nothing else. *)
Theorem mutator_effects
        (data : Dataset) (hash : Params) (stored : option string)
        (events : list Event) :
  let w := run data events (init data (freshPage hash stored)) in
  (forall c l,
      let s' := state (handleSelection data c l w) in
      effectsOf (handleSelection data c l) w
        = HashWrite (hashParams s')
            :: map ChartUpdate (createdCharts data)
            ++ [DrawerRender (drawerView data s'); SourcesRender (sourceItems data s')])
  /\ (let s' := state (clearSelection data w) in
      effectsOf (clearSelection data) w
        = HashWrite (hashParams s')
            :: map ChartUpdate (createdCharts data)
            ++ [DrawerRender (drawerView data s'); SourcesRender (sourceItems data s')])
  /\ (forall name,
      let s' := state (showDiscipline data name w) in
      effectsOf (showDiscipline data name) w
        = match lookup name (disciplines data) with
          | Some _ =>
              [StorageSet name; HashWrite (hashParams s');
               DisciplineRender name; SourcesRender (sourceItems data s')]
          | None => []
          end)
  /\ (forall value,
      let s' := state (changeFilter data value w) in
      effectsOf (changeFilter data value) w = [SourcesRender (sourceItems data s')]).
Proof.
  cbv zeta.
  assert (R : registry (run data events (init data (freshPage hash stored)))
              = createdCharts data)
    by (rewrite registry_run; apply registry_init).
  set (w := run data events (init data (freshPage hash stored))) in *.
  repeat split.
  - intros c l. apply effectsOf_app. rewrite handleSelection_eq.
    cbn [trace state]. rewrite R. reflexivity.
  - apply effectsOf_app. rewrite clearSelection_eq.
    cbn [trace state]. rewrite R. reflexivity.
  - intros name. apply effectsOf_app.
    destruct (lookup name (disciplines data)) as [detail|] eqn:L.
    + rewrite (showDiscipline_eq _ _ detail _ L). reflexivity.
    + unfold showDiscipline. rewrite L. rewrite app_nil_r. reflexivity.
  - intros value. apply effectsOf_app. reflexivity.
Qed.

(** ** The sources of the current selection *)

Lemma set_add_In (x id : string) (set : list string) :
  In x (set_add id set) <-> x = id \/ In x set.
Proof.
  unfold set_add. destruct (includes id set) eqn:E.
  - apply includes_In in E. split; [auto | intros [->|H]; assumption].
  - rewrite in_app_iff. simpl. intuition.
Qed.

Lemma set_add_NoDup (id : string) (set : list string) :
  NoDup set -> NoDup (set_add id set).
Proof.
  intros H. unfold set_add. destruct (includes id set) eqn:E; [exact H|].
  assert (N : ~ In id set).
  { intros I. apply includes_In in I. rewrite I in E. discriminate E. }
  clear E. induction H as [|y set Hy H IH]; simpl.
  - constructor; [intros []|constructor].
  - constructor.
    + rewrite in_app_iff. simpl. intros [I|[I|[]]]; [contradiction|].
      subst. apply N. left. reflexivity.
    + apply IH. intros I. apply N. right. exact I.
Qed.

Lemma fold_set_add_In (x : string) (ids set : list string) :
  In x (fold_left (fun set id => set_add id set) ids set) <-> In x ids \/ In x set.
Proof.
  revert set. induction ids as [|id ids IH]; intros set; simpl.
  - intuition.
  - rewrite IH, set_add_In. intuition.
Qed.

Lemma fold_set_add_NoDup (ids set : list string) :
  NoDup set -> NoDup (fold_left (fun set id => set_add id set) ids set).
Proof.
  revert set. induction ids as [|id ids IH]; intros set H; simpl.
  - exact H.
  - apply IH. apply set_add_NoDup. exact H.
Qed.

Lemma truthy_nonempty (s : string) : truthy s = true <-> s <> "".
Proof.
  unfold truthy. destruct (String.eqb_spec s ""); simpl; split; congruence.
Qed.

Section Sources.

Variable data : Dataset.



End Sources.



Example sourceIds_selection :
  sourceIds sampleData
    {| selectedInsight := Some {| chartKey := "aiOutsideITShare"; label := "IT" |};
       selectedDiscipline := Some "Nursing";
       sourceFilter := "selection" |}
  = ["fieldnotes"; "bls"; "lightcast"].
Proof. reflexivity. Qed.

Lemma get_own {A : Type} (k : string) (obj : list (string * A)) (v : A) :
  lookup k obj = Some v -> get k obj = Own v.
Proof. intros L. unfold get. rewrite L. reflexivity. Qed.

Lemma get_undefined {A : Type} (k : string) (obj : list (string * A)) :
  lookup k obj = None -> includes k objectPrototype = false ->
  get k obj = Undefined.
Proof. intros L P. unfold get. rewrite L, P. reflexivity. Qed.

Lemma get_inherited {A : Type} (k : string) (obj : list (string * A)) :
  lookup k obj = None -> includes k objectPrototype = true ->
  get k obj = Inherited k.
Proof. intros L P. unfold get. rewrite L, P. reflexivity. Qed.

Lemma sourceItem_all_unresolved (data : Dataset) (ids : list string) :
  (forall id, In id ids ->
     lookup id (sources data) = None /\ includes id objectPrototype = false) ->
  flat_map (sourceItem data) ids = [].
Proof.
  induction ids as [|id ids IH]; intros U; simpl; [reflexivity|].
  destruct (U id (or_introl eq_refl)) as [L P].
  unfold sourceItem at 1. rewrite (get_undefined _ _ L P). simpl.
  apply IH. intros x I. apply U. right. exact I.
Qed.

(** Away from the names of [Object.prototype], [renderSources] renders one
    link per id that has an entry in [sources], in the order of the ids,
    and nothing for an id without entry; so when no id has an entry the
    rendered list is empty, and it is not the placeholder, which is only
    rendered for an empty list of ids. *)
Lemma renderSources_skips_unresolved (data : Dataset) (s : State) :
  sourceIds data s <> [] ->
  (forall id, In id (sourceIds data s) -> includes id objectPrototype = false) ->
  sourceItems data s = flat_map (sourceItem data) (sourceIds data s)
  /\ (forall item,
        In item (sourceItems data s) <->
        exists id source,
          In id (sourceIds data s) /\ lookup id (sources data) = Some source
          /\ item = Link (orElse (url source) "#") (orElse (name source) id))
  /\ ((forall id, In id (sourceIds data s) -> lookup id (sources data) = None) ->
      sourceItems data s = []
      /\ sourceItems data s <> [Placeholder "No sources tied to the current selection yet."]
      /\ forall w, state w = s -> effectsOf (renderSources data) w = [SourcesRender []]).
Proof.
  intros N P.
  assert (E : sourceItems data s = flat_map (sourceItem data) (sourceIds data s)).
  { unfold sourceItems. destruct (sourceIds data s); [contradiction N|]; reflexivity. }
  split; [exact E|]. split.
  - intros item. rewrite E, in_flat_map. split.
    + intros [id [I H]]. unfold sourceItem, get in H. rewrite (P id I) in H.
      destruct (lookup id (sources data)) as [source|] eqn:L.
      * destruct H as [<-|[]]. exists id, source. auto.
      * destruct H.
    + intros (id & source & I & L & ->). exists id. split; [exact I|].
      unfold sourceItem. rewrite (get_own _ _ _ L). left. reflexivity.
  - intros U.
    assert (Z : sourceItems data s = []).
    { rewrite E. apply sourceItem_all_unresolved. intros id I. split; auto. }
    split; [exact Z|]. split; [rewrite Z; discriminate|].
    intros w <-. apply effectsOf_app. unfold renderSources, emit. cbn [trace].
    rewrite Z. reflexivity.
Qed.

Example renderSources_ghost :
  let s := {| selectedInsight := None;
              selectedDiscipline := Some "Business";
              sourceFilter := "selection" |} in
  sourceIds sampleData s = ["ghost"]
  /\ sourceItems sampleData s = []
  /\ sourceItems sampleData s <> [Placeholder noSourcesMessage].
Proof.
  cbv zeta. split; [reflexivity|].
  assert (N : sourceIds sampleData
                {| selectedInsight := None; selectedDiscipline := Some "Business";
                   sourceFilter := "selection" |} <> []) by discriminate.
  destruct (renderSources_skips_unresolved sampleData _ N) as (_ & _ & U).
  - intros id [<-|[]]. reflexivity.
  - destruct U as (Z & F & _); [intros id [<-|[]]; reflexivity|].
    split; [exact Z | exact F].
Qed.

(** C10: a discipline of the dataset lists the source id [constructor],
    which has no entry in [sources]. The page is opened on that discipline:
    the only aggregated id is [constructor], and [renderSources] does not
    skip it, it renders a link with the text [Object], because
    [dashboardData.sources[sourceId]] finds the member every object
    inherits and [if (!source) return] only skips what is falsy. *)
Theorem renderSources_inherited_id :
  let opened :=
    init inheritedSourceData (freshPage [("discipline", "History")] None) in
  sourceFilter (state opened) = "selection"
  /\ sourceIds inheritedSourceData (state opened) = ["constructor"]
  /\ lookup "constructor" (sources inheritedSourceData) = None
  /\ sourceItems inheritedSourceData (state opened) = [Link "#" "Object"]
  /\ effectsOf (renderSources inheritedSourceData) opened
     = [SourcesRender [Link "#" "Object"]].
Proof.
  vm_compute. repeat split; reflexivity.
Qed.

(** The other inherited names are not skipped either: the functions are
    shown under their own name, [__proto__] under the id. *)
Example sourceItem_inherited :
  map (sourceItem sampleData) ["toString"; "__proto__"; "valueOf"; "ghost"]
  = [[Link "#" "toString"]; [Link "#" "__proto__"]; [Link "#" "valueOf"]; []].
Proof. reflexivity. Qed.

(** ** The insight drawer *)

(** [renderInsightDrawer] renders the drawer and then the sources list,
    and changes nothing else. *)
Lemma renderInsightDrawer_effects (data : Dataset) (w : Page) :
  state (renderInsightDrawer data w) = state w
  /\ effectsOf (renderInsightDrawer data) w
     = [DrawerRender (drawerView data (state w));
        SourcesRender (sourceItems data (state w))].
Proof.
  split; [reflexivity|].
  apply effectsOf_app. unfold_procs. rewrite <- app_assoc. reflexivity.
Qed.

(** Away from the names of [Object.prototype] the drawer shows the prompt
    when no insight is selected, the no-details message when the selected
    pair has no entry in the drilldown mapping of its chart, and otherwise
    the fields of the entry with a source line made of the chart's as-of
    date and the source found under the chart's [sourceId]; a source id
    without entry in [sources] is shown as the id itself with the link
    [#], and a missing id as "Unknown source". *)
Lemma drawerView_own_entries (data : Dataset) (s : State) :
  (selectedInsight s = None ->
   drawerView data s
   = {| headlineText := "Select a chart point, bar, or slice to view a focused insight.";
        interpretationText := ""; whyText := ""; implicationItems := [];
        teachingText := ""; sourceLine := None |})
  /\ (forall i,
        selectedInsight s = Some i -> matchingDetail data i = None ->
        includes (label i) objectPrototype = false ->
        drawerView data s
        = {| headlineText := "No drill-down details available for this selection.";
             interpretationText := ""; whyText := ""; implicationItems := [];
             teachingText := ""; sourceLine := None |})
  /\ (forall i detail chart,
        selectedInsight s = Some i -> matchingDetail data i = Some detail ->
        lookup (chartKey i) (charts data) = Some chart ->
        (forall id, sourceId chart = Some id -> includes id objectPrototype = false) ->
        drawerView data s
        = {| headlineText := headline detail;
             interpretationText := interpretation detail;
             whyText := whyItMatters detail;
             implicationItems := orElse (implications detail) [];
             teachingText := teachingFocus detail;
             sourceLine :=
               Some {| href :=
                         match lookup (orElse (sourceId chart) "undefined") (sources data) with
                         | Some source => orElse (url source) "#"
                         | None => "#"
                         end;
                       text :=
                         match lookup (orElse (sourceId chart) "undefined") (sources data) with
                         | Some source =>
                             orElse (name source) (orElse (sourceId chart) "Unknown source")
                         | None => orElse (sourceId chart) "Unknown source"
                         end;
                       asOf := orElse (asOfDate chart) "n/a" |} |}).
Proof.
  unfold drawerView, matchingDetail.
  destruct (selectedInsight s) as [j|].
  - split; [discriminate|]. split.
    + intros i E M P. injection E as <-. unfold get at 1.
      destruct (lookup (chartKey j) (charts data)) as [chart|].
      * destruct (drilldown chart) as [entries|]; [|reflexivity].
        rewrite (get_undefined _ _ M P). reflexivity.
      * destruct (includes (chartKey j) objectPrototype); reflexivity.
    + intros i detail chart E M C P. injection E as <-.
      rewrite C in M. rewrite (get_own _ _ _ C).
      destruct (drilldown chart) as [entries|]; [|discriminate M].
      rewrite (get_own _ _ _ M). unfold drawerSource, propertyKey.
      destruct (lookup (orElse (sourceId chart) "undefined") (sources data))
        as [source|] eqn:L.
      * rewrite (get_own _ _ _ L). reflexivity.
      * rewrite get_undefined; [reflexivity | exact L |].
        destruct (sourceId chart) as [id|]; [apply P; reflexivity | reflexivity].
  - split; [reflexivity|]. split; intros; discriminate.
Qed.

(** C7: the page is opened with the fragment
    [#chart=aiMentionsTrend&label=constructor]. The drilldown mapping of
    the trend chart has no entry [constructor], yet the drawer does not
    show the no-details message: [chartObj?.drilldown?.[label]] finds the
    member every object inherits, [if (!detail)] lets it through, and the
    drawer is rendered with empty texts and the source line of the
    chart. *)
Theorem renderInsightDrawer_inherited_label :
  let opened :=
    init sampleData
         (freshPage [("chart", "aiMentionsTrend"); ("label", "constructor")] None) in
  selectedInsight (state opened)
  = Some {| chartKey := "aiMentionsTrend"; label := "constructor" |}
  /\ matchingDetail sampleData {| chartKey := "aiMentionsTrend"; label := "constructor" |}
     = None
  /\ drawerView sampleData (state opened)
     = {| headlineText := ""; interpretationText := ""; whyText := "";
          implicationItems := []; teachingText := "";
          sourceLine := Some {| href := "https://lightcast.io";
                                text := "Lightcast";
                                asOf := "2025-12" |} |}
  /\ headlineText (drawerView sampleData (state opened))
     <> "No drill-down details available for this selection."
  /\ exists items,
       effectsOf (renderInsightDrawer sampleData) opened
       = [DrawerRender
            {| headlineText := ""; interpretationText := ""; whyText := "";
               implicationItems := []; teachingText := "";
               sourceLine := Some {| href := "https://lightcast.io";
                                     text := "Lightcast";
                                     asOf := "2025-12" |} |};
          SourcesRender items].
Proof.
  vm_compute. split; [reflexivity|]. split; [reflexivity|].
  split; [reflexivity|]. split; [discriminate|].
  eexists. reflexivity.
Qed.

(** A label with an entry, and a label without entry that names nothing
    inherited. *)
Example drawerView_cases :
  let page (i : option Insight) :=
    {| state := setInsight i initialState; localStorage := None;
       fragment := []; registry := []; trace := [] |} in
  headlineText (drawerView sampleData (state (page None)))
  = "Select a chart point, bar, or slice to view a focused insight."
  /\ drawerView sampleData
       (state (page (Some {| chartKey := "aiMentionsByFamily"; label := "Business" |})))
     = {| headlineText := "No drill-down details available for this selection.";
          interpretationText := ""; whyText := ""; implicationItems := [];
          teachingText := ""; sourceLine := None |}
  /\ drawerView sampleData
       (state (page (Some {| chartKey := "aiOutsideITShare"; label := "IT" |})))
     = {| headlineText := "S1";
          interpretationText := "Interpretation";
          whyText := "Why it matters";
          implicationItems := ["First implication"; "Second implication"];
          teachingText := "Teaching focus";
          sourceLine := Some {| href := "#"; text := "fieldnotes"; asOf := "2025-12" |} |}.
Proof.
  cbv zeta. split; [|split].
  - rewrite (proj1 (drawerView_own_entries sampleData _)); reflexivity.
  - apply (proj1 (proj2 (drawerView_own_entries sampleData _))
             {| chartKey := "aiMentionsByFamily"; label := "Business" |});
      reflexivity.
  - rewrite (proj2 (proj2 (drawerView_own_entries sampleData _))
               {| chartKey := "aiOutsideITShare"; label := "IT" |} (detailOf "S1")
               {| labels := ["Outside IT"; "IT"]; sourceId := Some "fieldnotes";
                  asOfDate := Some "2025-12";
                  drilldown := Some [("IT", detailOf "S1")] |});
      try reflexivity.
    intros id E. injection E as <-. reflexivity.
Qed.

Example drawer_unresolved_source :
  sourceLine
    (drawerView sampleData
       (setInsight (Some {| chartKey := "aiOutsideITShare"; label := "IT" |})
                   initialState))
  = Some {| href := "#"; text := "fieldnotes"; asOf := "2025-12" |}.
Proof. reflexivity. Qed.

(** The scenario of the family chart: the first label has details, the
    second has none, and selecting the first twice restores the prompt. *)
Example drawer_scenario :
  let opened := init sampleData (freshPage [] None) in
  let nursing := handle sampleData (ChartClick "aiMentionsByFamily" 0) in
  let business := handle sampleData (ChartClick "aiMentionsByFamily" 1) in
  headlineText (drawerView sampleData (state (nursing opened))) = "H1"
  /\ headlineText (drawerView sampleData (state (business (nursing opened))))
     = "No drill-down details available for this selection."
  /\ headlineText
       (drawerView sampleData (state (nursing (nursing (business (nursing opened))))))
     = "Select a chart point, bar, or slice to view a focused insight.".
Proof. vm_compute. repeat split; reflexivity. Qed.

(** ** The validator *)

Lemma sources_test (v : JS.value) :
  negb (JS.truthy v) || negb (JS.typeof_object v) || JS.isArray v
  = negb (isMapping v).
Proof.
  destruct v; simpl; rewrite ?orb_false_r, ?orb_true_r; reflexivity.
Qed.

Lemma disciplines_test (v : JS.value) :
  negb (JS.truthy v) || negb (JS.typeof_object v)
  = negb (isMapping v || JS.isArray v).
Proof.
  destruct v; simpl; rewrite ?orb_false_r, ?orb_true_r; reflexivity.
Qed.

(** On every document but [null] the validator returns a list. *)
Lemma validateDataShape_returns (data : JS.value) :
  JS.nullish data = false ->
  exists errors, JS.validateDataShape data = JS.Normal errors.
Proof.
  intros N. destruct data; try discriminate N;
    unfold JS.validateDataShape; simpl; eexists; reflexivity.
Qed.

(** The list is empty exactly for the documents of [acceptedByValidator]. *)
Lemma validateDataShape_accepts (data : JS.value) :
  JS.nullish data = false ->
  JS.validateDataShape data = JS.Normal [] <-> acceptedByValidator data = true.
Proof.
  intros N. unfold acceptedByValidator, hasSourceId.
  destruct data as [| |b|q|s|items|fields]; try discriminate N;
    try (unfold JS.validateDataShape; simpl; split; discriminate).
  - unfold JS.validateDataShape. simpl. split; [|discriminate].
    destruct (negb b || true); discriminate.
  - unfold JS.validateDataShape. simpl. split; [|discriminate].
    destruct (negb (negb (Qeq_bool q 0)) || true); discriminate.
  - unfold JS.validateDataShape. simpl. split; [|discriminate].
    destruct (negb (negb (s =? "")) || true); discriminate.
  - unfold JS.validateDataShape, JS.getProp, JS.bind.
    rewrite sources_test, disciplines_test.
    cbn [isMapping JS.optProp JS.truthy JS.typeof_object negb orb andb].
    set (b1 := JS.truthy (JS.optProp (JS.own "takeaway" fields) "headline")).
    set (b2 := JS.isArray (JS.own "coreSkills" fields)).
    set (b3 := JS.truthy (JS.optProp (JS.optProp (JS.own "charts" fields)
                                                 "aiMentionsTrend") "sourceId")).
    set (b4 := JS.truthy (JS.optProp (JS.optProp (JS.own "charts" fields)
                                                 "aiMentionsByFamily") "sourceId")).
    set (b5 := JS.truthy (JS.optProp (JS.optProp (JS.own "charts" fields)
                                                 "aiOutsideITShare") "sourceId")).
    set (b6 := isMapping (JS.own "sources" fields)).
    set (b7 := isMapping (JS.own "disciplines" fields)
               || JS.isArray (JS.own "disciplines" fields)).
    clearbody b1 b2 b3 b4 b5 b6 b7.
    destruct b1, b2, b3, b4, b5, b6, b7; simpl; split;
      first [reflexivity | discriminate].
Qed.

(** A non-empty list of issues is shown, joined, and [init] does not
    run. *)
Lemma bootChain_issues (data : JS.value) (issue : string) (issues : list string) :
  JS.validateDataShape data = JS.Normal (issue :: issues) ->
  JS.bootChain data
  = {| JS.alerts :=
         [("Data validation problem: " ++ JS.join " " (issue :: issues))%string;
          ("Could not initialize dashboard: " ++ JS.join " " (issue :: issues))%string];
       JS.initialised := false |}.
Proof. intros E. unfold JS.bootChain. rewrite E. reflexivity. Qed.

Lemma bootChain_valid (data : JS.value) :
  JS.validateDataShape data = JS.Normal [] ->
  JS.bootChain data = {| JS.alerts := []; JS.initialised := true |}.
Proof. intros E. unfold JS.bootChain. rewrite E. reflexivity. Qed.

(** A document whose [disciplines] is an array is accepted, although an
    array is no keyed mapping; for [sources] the validator does exclude
    arrays. *)
Lemma validateDataShape_array_disciplines :
  JS.validateDataShape (documentWith (JS.VArr [])) = JS.Normal []
  /\ passesChecks (documentWith (JS.VArr [])) = false
  /\ JS.bootChain (documentWith (JS.VArr []))
     = {| JS.alerts := []; JS.initialised := true |}.
Proof. repeat split; reflexivity. Qed.

Example validateDataShape_number :
  JS.validateDataShape (JS.VNum 5)
  = JS.Normal ["Dashboard data is not a valid object.";
               "Missing takeaway.headline.";
               "Missing coreSkills array.";
               "Missing charts.aiMentionsTrend source metadata.";
               "Missing charts.aiMentionsByFamily source metadata.";
               "Missing charts.aiOutsideITShare source metadata.";
               "sources must be an object keyed by sourceId.";
               "Missing disciplines object."].
Proof. reflexivity. Qed.

(** C8, on the script: for the document [null] the validator does not
    return. It records that the data is not an object and then reads
    [data.takeaway], which throws; the caller's [catch] shows the message
    of the [TypeError] in place of the list of problems. *)
Theorem validateDataShape_null_throws :
  JS.validateDataShape JS.VNull
    = JS.Throw (JS.TypeError "Cannot read properties of null (reading 'takeaway')")
  /\ (forall errors, JS.validateDataShape JS.VNull <> JS.Normal errors)
  /\ JS.bootChain JS.VNull
     = {| JS.alerts :=
            ["Could not initialize dashboard: Cannot read properties of null (reading 'takeaway')"];
          JS.initialised := false |}.
Proof. repeat split; try reflexivity. intros errors. discriminate. Qed.

(** ** Further properties of the fragment *)

(** X1: the parameters [updateHash] writes are the recognised keys in the
    fixed order; they carry the selected discipline when it is present, and
    the chart and label of the selected insight; and nothing is written
    exactly when no discipline is present and no insight is selected. *)
Theorem hashParams_shape (s : State) :
  wellFormedFragment (hashParams s) = true
  /\ params_get "discipline" (hashParams s) = orNull (selectedDiscipline s)
  /\ params_get "chart" (hashParams s) = option_map chartKey (selectedInsight s)
  /\ params_get "label" (hashParams s) = option_map label (selectedInsight s)
  /\ (hashParams s = [] <->
      present (selectedDiscipline s) = false /\ selectedInsight s = None).
Proof.
  destruct s as [[[c l]|] [d|] f]; unfold hashParams, orNull, present, params_get;
    cbn [selectedInsight selectedDiscipline chartKey label option_map];
    try destruct (truthy d) eqn:T; simpl;
    repeat split; try reflexivity; try discriminate;
    try (intros [? ?]; discriminate).
Qed.

Lemma decoded_discipline (s : State) (stored : option string) :
  selectedDiscipline (state (applyStateFromHash (freshPage (hashParams s) stored)))
  = (if present (selectedDiscipline s) then selectedDiscipline s else orNull stored).
Proof.
  destruct s as [[[c l]|] [d|] f];
    unfold applyStateFromHash, freshPage, hashParams, modifyState, params_get;
    cbn [selectedInsight selectedDiscipline chartKey label fragment localStorage state];
    try destruct (truthy d) eqn:T; simpl; rewrite ?T; simpl;
    try (destruct (truthy c); destruct (truthy l); simpl);
    reflexivity.
Qed.

Lemma decoded_insight (s : State) (stored : option string) :
  selectedInsight (state (applyStateFromHash (freshPage (hashParams s) stored)))
  = (if encodable (selectedInsight s) then selectedInsight s else None).
Proof.
  destruct s as [[[c l]|] [d|] f];
    unfold applyStateFromHash, freshPage, hashParams, modifyState, params_get, encodable;
    cbn [selectedInsight selectedDiscipline chartKey label fragment localStorage state];
    try destruct (truthy d) eqn:T; simpl; rewrite ?T; simpl;
    try (destruct (truthy c); destruct (truthy l); simpl);
    reflexivity.
Qed.

Lemma sourceFilter_applyStateFromHash (w : Page) :
  sourceFilter (state (applyStateFromHash w)) = sourceFilter (state w).
Proof.
  unfold applyStateFromHash, modifyState.
  destruct (present (params_get "discipline" (fragment w)));
    destruct (params_get "chart" (fragment w)) as [c|];
    destruct (params_get "label" (fragment w)) as [l|];
    try reflexivity;
    destruct (truthy c && truthy l); reflexivity.
Qed.

(** X2: what a freshly loaded page reads back from the fragment written for
    a state: the discipline if it was present, else the stored one; the
    insight if its chart and label are non-empty, else none; the filter is
    back at its default. *)
Theorem reload_decodes_state (s : State) (stored : option string) :
  let reloaded := state (applyStateFromHash (freshPage (hashParams s) stored)) in
  selectedDiscipline reloaded
    = (if present (selectedDiscipline s) then selectedDiscipline s else orNull stored)
  /\ selectedInsight reloaded
    = (if encodable (selectedInsight s) then selectedInsight s else None)
  /\ sourceFilter reloaded = "selection".
Proof.
  cbv zeta. split; [apply decoded_discipline|]. split; [apply decoded_insight|].
  rewrite sourceFilter_applyStateFromHash. reflexivity.
Qed.

Section Mirror.

Variable data : Dataset.

Lemma mirror_handle (e : Event) (w : Page) :
  fragment w = hashParams (state w) /\ localStorage w = selectedDiscipline (state w) ->
  fragment (handle data e w) = hashParams (state (handle data e w))
  /\ localStorage (handle data e w) = selectedDiscipline (state (handle data e w)).
Proof.
  intros [F L]. destruct e as [c n|name| |v]; cbn [handle].
  - unfold chartClick. destruct (includes c (registry w)); [|auto].
    destruct (lookup c (charts data)) as [chart|]; [|auto].
    destruct (nth_error (labels chart) n) as [l|]; [|auto].
    rewrite handleSelection_eq. split; [reflexivity | exact L].
  - destruct (lookup name (disciplines data)) as [detail|] eqn:D.
    + rewrite (showDiscipline_eq _ _ detail _ D). split; reflexivity.
    + unfold showDiscipline. rewrite D. auto.
  - rewrite clearSelection_eq. split; [reflexivity | exact L].
  - rewrite changeFilter_eq. split; [exact F | exact L].
Qed.

Lemma mirror_run (events : list Event) (w : Page) :
  fragment w = hashParams (state w) /\ localStorage w = selectedDiscipline (state w) ->
  fragment (run data events w) = hashParams (state (run data events w))
  /\ localStorage (run data events w) = selectedDiscipline (state (run data events w)).
Proof.
  revert w. induction events as [|e events IH]; intros w H; simpl.
  - exact H.
  - apply IH. apply mirror_handle. exact H.
Qed.

Lemma mirror_init (hash : Params) (stored : option string) :
  keys (disciplines data) <> [] ->
  let w := init data (freshPage hash stored) in
  fragment w = hashParams (state w) /\ localStorage w = selectedDiscipline (state w).
Proof.
  intros K. cbv zeta. unfold init, andThen.
  set (p := renderInsightDrawer data _).
  assert (M : let q := renderDisciplineView data p in
              fragment q = hashParams (state q)
              /\ localStorage q = selectedDiscipline (state q)).
  { cbv zeta. unfold renderDisciplineView.
    destruct (keys (disciplines data)) as [|first rest] eqn:E; [contradiction|].
    destruct (shownDiscipline_lookup data (selectedDiscipline (state p)) first rest E)
      as [detail L].
    rewrite E in L. rewrite (showDiscipline_eq _ _ detail _ L). split; reflexivity. }
  cbv zeta in M. set (q := renderDisciplineView data p) in *.
  destruct (selectedInsight (state (renderSources data q)));
    [rewrite updateAllChartStyles_eq|]; exact M.
Qed.

End Mirror.

(** X3: when the dataset has a discipline, the fragment of every page
    reached from boot is the one [updateHash] writes for the current state,
    and the stored discipline is the selected one. *)
Theorem fragment_mirrors_state
        (data : Dataset) (hash : Params) (stored : option string)
        (events : list Event) :
  keys (disciplines data) <> [] ->
  let w := run data events (init data (freshPage hash stored)) in
  fragment w = hashParams (state w)
  /\ localStorage w = selectedDiscipline (state w).
Proof.
  intros K. cbv zeta. apply mirror_run. apply mirror_init. exact K.
Qed.

Lemma fragment_mirrors_state_witness :
  let w := run sampleData [ChartClick "aiMentionsByFamily" 0; FilterChange "all";
                           DisciplineClick "Business"]
               (init sampleData (freshPage [("label", "x")] (Some "Chemistry"))) in
  fragment w = hashParams (state w)
  /\ localStorage w = selectedDiscipline (state w).
Proof.
  apply (fragment_mirrors_state sampleData [("label", "x")] (Some "Chemistry")).
  discriminate.
Defined.

Lemma shownDiscipline_valid (data : Dataset) (d : string) :
  disciplineValid data d = true -> shownDiscipline data (Some d) = Some d.
Proof.
  unfold disciplineValid, shownDiscipline. intros V.
  destruct (keys (disciplines data)) as [|first rest]; [discriminate V|].
  rewrite V. reflexivity.
Qed.

Lemma disciplineSettled_valid (data : Dataset) (s : State) :
  keys (disciplines data) <> [] ->
  disciplineSettled data s = true ->
  exists d, selectedDiscipline s = Some d /\ disciplineValid data d = true.
Proof.
  unfold disciplineSettled. intros K D.
  destruct (keys (disciplines data)); [contradiction|].
  destruct (selectedDiscipline s) as [d|]; [|discriminate D].
  exists d. auto.
Qed.

(** X4: a page reached from boot and loaded again with its fragment and
    its local storage comes up with the same discipline and the same
    insight, when the dataset has a discipline, the selected one has a
    non-empty name and the selected insight, if any, has a non-empty chart
    and label. *)
Theorem reload_restores_selection
        (data : Dataset) (hash : Params) (stored : option string)
        (events : list Event) :
  let w := run data events (init data (freshPage hash stored)) in
  keys (disciplines data) <> [] ->
  present (selectedDiscipline (state w)) = true ->
  encodable (selectedInsight (state w)) = true ->
  let again := state (init data (freshPage (fragment w) (localStorage w))) in
  selectedDiscipline again = selectedDiscipline (state w)
  /\ selectedInsight again = selectedInsight (state w).
Proof.
  cbv zeta. intros K P E.
  set (w := run data events (init data (freshPage hash stored))) in *.
  destruct (mirror_run data events _ (mirror_init data hash stored K)) as [F _].
  fold w in F.
  assert (S := settled_run data _ events _ (settled_init data (freshPage hash stored))).
  fold w in S. destruct S as [_ D].
  destruct (disciplineSettled_valid data (state w) K D) as [d [Sd Vd]].
  rewrite state_init, F.
  assert (RD := decoded_discipline (state w) (localStorage w)).
  assert (RI := decoded_insight (state w) (localStorage w)).
  rewrite P in RD. rewrite E in RI.
  cbn [selectedDiscipline selectedInsight setDiscipline].
  rewrite RD, RI. split; [|reflexivity].
  rewrite Sd. apply shownDiscipline_valid. exact Vd.
Qed.

Lemma reload_restores_selection_witness :
  let w := run sampleData [ChartClick "aiMentionsByFamily" 0;
                           DisciplineClick "Business"]
               (init sampleData (freshPage [] None)) in
  let again := state (init sampleData (freshPage (fragment w) (localStorage w))) in
  selectedDiscipline again = Some "Business"
  /\ selectedInsight again
     = Some {| chartKey := "aiMentionsByFamily"; label := "Nursing" |}.
Proof.
  apply (reload_restores_selection sampleData [] None
           [ChartClick "aiMentionsByFamily" 0; DisciplineClick "Business"]);
    [discriminate | reflexivity | reflexivity].
Defined.

(** ** Emphasis, disciplines, and the full list of sources *)

Lemma isSelected_iff (c l : string) (s : State) :
  isSelected c l s = true <-> selectedInsight s = Some {| chartKey := c; label := l |}.
Proof.
  unfold isSelected. destruct (selectedInsight s) as [[c' l']|]; simpl.
  - rewrite andb_true_iff, !String.eqb_eq. split.
    + intros [-> ->]. reflexivity.
    + intros E. injection E. auto.
  - split; discriminate.
Qed.

(** X5: with colon-free chart identifiers, a click on an element draws it
    as selected exactly when it was not drawn so before, and leaves no
    other element of any chart drawn as selected. *)
Theorem click_toggles_emphasis (data : Dataset) (c l : string) (w : Page) :
  colonFree c = true ->
  (forall i, selectedInsight (state w) = Some i -> colonFree (chartKey i) = true) ->
  let s' := state (handleSelection data c l w) in
  isSelected c l s' = negb (isSelected c l (state w))
  /\ forall c' l', (c', l') <> (c, l) -> isSelected c' l' s' = false.
Proof.
  intros Hc Hw. cbv zeta.
  assert (E := handleSelection_colonFree data c l w Hc Hw).
  split.
  - unfold isSelected at 1. rewrite E. unfold isSelected.
    destruct (selectedInsight (state w)) as [[c0 l0]|]; simpl.
    + unfold Insight_eqb. simpl.
      destruct ((c0 =? c) && (l0 =? l)); simpl;
        [reflexivity | rewrite !String.eqb_refl; reflexivity].
    + rewrite !String.eqb_refl. reflexivity.
  - intros c' l' N.
    destruct (isSelected c' l' (state (handleSelection data c l w))) eqn:S;
      [|reflexivity].
    apply isSelected_iff in S. rewrite E in S.
    destruct (selectedInsight (state w)) as [i|].
    + destruct (Insight_eqb i {| chartKey := c; label := l |}); [discriminate S|].
      injection S as <- <-. contradiction N. reflexivity.
    + injection S as <- <-. contradiction N. reflexivity.
Qed.

Lemma click_toggles_emphasis_witness :
  let w := init sampleData (freshPage [("chart", "aiMentionsByFamily");
                                       ("label", "Nursing")] None) in
  let s' := state (handleSelection sampleData "aiMentionsTrend" "2024-Q1" w) in
  isSelected "aiMentionsTrend" "2024-Q1" s'
    = negb (isSelected "aiMentionsTrend" "2024-Q1" (state w))
  /\ forall c' l', (c', l') <> ("aiMentionsTrend", "2024-Q1") ->
                   isSelected c' l' s' = false.
Proof.
  apply (click_toggles_emphasis sampleData "aiMentionsTrend" "2024-Q1").
  - reflexivity.
  - intros i E. vm_compute in E. injection E as <-. reflexivity.
Defined.

(** X6: no event clears the selected discipline, and a second click on a
    discipline changes neither the state nor the stored discipline nor the
    fragment. *)
Theorem discipline_stays_selected (data : Dataset) (w : Page) :
  (forall e d, selectedDiscipline (state w) = Some d ->
               exists d', selectedDiscipline (state (handle data e w)) = Some d')
  /\ (forall name,
         let once := showDiscipline data name w in
         let twice := showDiscipline data name once in
         state twice = state once
         /\ localStorage twice = localStorage once
         /\ fragment twice = fragment once).
Proof.
  split.
  - intros e d H. destruct e as [c n|name| |v]; cbn [handle].
    + unfold chartClick. destruct (includes c (registry w)); [|eauto].
      destruct (lookup c (charts data)) as [chart|]; [|eauto].
      destruct (nth_error (labels chart) n) as [l|]; [|eauto].
      rewrite handleSelection_eq. cbn [state selectedDiscipline setInsight]. eauto.
    + destruct (lookup name (disciplines data)) as [detail|] eqn:D.
      * rewrite (showDiscipline_eq _ _ detail _ D). simpl. eauto.
      * unfold showDiscipline. rewrite D. eauto.
    + rewrite clearSelection_eq. cbn [state selectedDiscipline setInsight]. eauto.
    + rewrite changeFilter_eq. cbn [state selectedDiscipline setSourceFilter]. eauto.
  - intros name. cbv zeta.
    destruct (lookup name (disciplines data)) as [detail|] eqn:D.
    + rewrite !(showDiscipline_eq _ _ detail _ D). repeat split.
    + unfold showDiscipline. rewrite D. repeat split.
Qed.

Lemma discipline_stays_selected_witness :
  exists d',
    selectedDiscipline
      (state (handle sampleData ClearClick (init sampleData (freshPage [] None))))
    = Some d'.
Proof.
  apply (proj1 (discipline_stays_selected sampleData
                  (init sampleData (freshPage [] None))) ClearClick "Nursing").
  reflexivity.
Defined.

Lemma lookup_entry {A : Type} (obj : list (string * A)) (k : string) (v : A) :
  NoDup (keys obj) -> In (k, v) obj -> lookup k obj = Some v.
Proof.
  induction obj as [|[k' v'] obj IH]; intros N I; [destruct I|].
  simpl in N. inversion N as [|? ? Nk N']; subst. simpl.
  destruct I as [E|I].
  - injection E as -> ->. rewrite String.eqb_refl. reflexivity.
  - destruct (String.eqb_spec k k') as [->|_]; [|exact (IH N' I)].
    exfalso. apply Nk. unfold keys. apply in_map_iff. exists (k', v). auto.
Qed.

Lemma flat_map_sourceItem_entries (data : Dataset) (entries : list (string * Source)) :
  (forall k v, In (k, v) entries -> lookup k (sources data) = Some v) ->
  flat_map (sourceItem data) (map fst entries) = map linkOf entries.
Proof.
  induction entries as [|[k v] entries IH]; intros H; simpl; [reflexivity|].
  unfold sourceItem at 1. rewrite (get_own _ _ _ (H k v (or_introl eq_refl))). simpl.
  f_equal. apply IH. intros k' v' I. apply H. right. exact I.
Qed.

(** X7: with the filter [all] and a dataset that has sources, the rendered
    list is one link per entry of [sources], in their order, each with the
    entry's url (or [#]) and name (or its id); no entry is skipped and the
    placeholder is not shown. *)
Theorem all_filter_lists_every_source (data : Dataset) (s : State) :
  sourceFilter s = "all" ->
  NoDup (keys (sources data)) ->
  sources data <> [] ->
  sourceItems data s = map linkOf (sources data).
Proof.
  intros F N E. unfold sourceItems, sourceIds. rewrite F.
  change ("all" =? "all") with true. cbv iota.
  rewrite (flat_map_sourceItem_entries data (sources data))
    by (intros k v I; apply lookup_entry; assumption).
  destruct (sources data); [contradiction | reflexivity].
Qed.

Lemma all_filter_lists_every_source_witness :
  sourceItems sampleData (setSourceFilter "all" initialState)
  = [Link "https://lightcast.io" "Lightcast"; Link "#" "BLS"].
Proof.
  apply (all_filter_lists_every_source sampleData (setSourceFilter "all" initialState)).
  - reflexivity.
  - repeat constructor; simpl; intuition discriminate.
  - discriminate.
Defined.

(** ** Further properties of the validator *)

(** X8: [init] runs exactly for the documents the validator accepts: a
    top-level object with a truthy [takeaway.headline], an array
    [coreSkills], a truthy [sourceId] for each of the three charts, an
    object [sources] that is no array, and an object or array
    [disciplines]; for every other document, [null] included, it does not
    run. *)
Theorem bootChain_initialises (data : JS.value) :
  JS.initialised (JS.bootChain data) = acceptedByValidator data.
Proof.
  destruct (JS.nullish data) eqn:N.
  - destruct data; try discriminate N; reflexivity.
  - destruct (validateDataShape_returns data N) as [errors E].
    unfold JS.bootChain. rewrite E.
    destruct errors as [|issue issues]; simpl.
    + symmetry. apply validateDataShape_accepts; assumption.
    + destruct (acceptedByValidator data) eqn:A; [|reflexivity].
      apply validateDataShape_accepts in A; [|exact N].
      rewrite A in E. discriminate E.
Qed.

(** X9: the problems the validator returns are some of its eight messages,
    each at most once and in the order of the tests. *)
Theorem validateDataShape_ordered (data : JS.value) (errors : list string) :
  JS.validateDataShape data = JS.Normal errors ->
  subsequence errors validatorMessages = true.
Proof.
  destruct data as [| |b|q|s|items|fields];
    unfold JS.validateDataShape, JS.getProp, JS.bind; try discriminate;
    intros E; injection E as <-.
  - destruct b; reflexivity.
  - cbn [JS.truthy]. destruct (Qeq_bool q 0); reflexivity.
  - cbn [JS.truthy]. destruct (s =? ""); reflexivity.
  - reflexivity.
  - rewrite sources_test, disciplines_test.
    cbn [JS.truthy JS.typeof_object negb orb].
    set (b1 := JS.truthy (JS.optProp (JS.own "takeaway" fields) "headline")).
    set (b2 := JS.isArray (JS.own "coreSkills" fields)).
    set (b3 := JS.truthy (JS.optProp (JS.optProp (JS.own "charts" fields)
                                                 "aiMentionsTrend") "sourceId")).
    set (b4 := JS.truthy (JS.optProp (JS.optProp (JS.own "charts" fields)
                                                 "aiMentionsByFamily") "sourceId")).
    set (b5 := JS.truthy (JS.optProp (JS.optProp (JS.own "charts" fields)
                                                 "aiOutsideITShare") "sourceId")).
    set (b6 := isMapping (JS.own "sources" fields)).
    set (b7 := isMapping (JS.own "disciplines" fields)
               || JS.isArray (JS.own "disciplines" fields)).
    clearbody b1 b2 b3 b4 b5 b6 b7.
    destruct b1, b2, b3, b4, b5, b6, b7; vm_compute; reflexivity.
Qed.

Lemma validateDataShape_ordered_witness :
  subsequence ["Missing takeaway.headline."; "Missing disciplines object."]
              validatorMessages = true.
Proof.
  apply (validateDataShape_ordered
           (JS.VObj [("coreSkills", JS.VArr []);
                     ("charts",
                      JS.VObj [("aiMentionsTrend", chartDoc "a");
                               ("aiMentionsByFamily", chartDoc "b");
                               ("aiOutsideITShare", chartDoc "c")]);
                     ("sources", JS.VObj [])])).
  reflexivity.
Defined.

(** ** Counting and ranking in the refresh script *)

Section CountMaps.

Import Refresh.

Lemma lookup_map_set_same (k : string) (v : nat) (m : CountMap) :
  lookup k (map_set k v m) = Some v.
Proof.
  induction m as [|[k' v'] m IH]; simpl.
  - rewrite String.eqb_refl. reflexivity.
  - destruct (String.eqb_spec k k') as [->|N]; simpl.
    + rewrite String.eqb_refl. reflexivity.
    + destruct (String.eqb_spec k k'); [contradiction | exact IH].
Qed.

Lemma lookup_map_set_other (k k' : string) (v : nat) (m : CountMap) :
  k' <> k -> lookup k' (map_set k v m) = lookup k' m.
Proof.
  intros N. induction m as [|[k0 v0] m IH]; simpl.
  - destruct (String.eqb_spec k' k); [contradiction | reflexivity].
  - destruct (String.eqb_spec k k0) as [->|N0]; simpl.
    + destruct (String.eqb_spec k' k0); [contradiction | reflexivity].
    + destruct (String.eqb_spec k' k0); [reflexivity | exact IH].
Qed.

Lemma keys_map_set (k : string) (v : nat) (m : CountMap) :
  keys (map_set k v m) = set_add k (keys m).
Proof.
  unfold set_add, Dashboard.includes.
  induction m as [|[k' v'] m IH]; simpl; [reflexivity|].
  destruct (String.eqb_spec k k') as [->|N]; simpl; [reflexivity|].
  rewrite IH. destruct (existsb (String.eqb k) (keys m)); reflexivity.
Qed.

Lemma occurrences_cons (k k' : string) (ks : list string) :
  occurrences k (k' :: ks)
  = ((if (k =? k')%string then 1 else 0) + occurrences k ks)%nat.
Proof. unfold occurrences. simpl. destruct (k =? k'); reflexivity. Qed.

(** The map after counting the keys [ks] into [m]. *)
Lemma fold_increment_lookup (k : string) (ks : list string) (m : CountMap) :
  orElse (lookup k (fold_left (fun map k => increment k map) ks m)) 0%nat
  = (orElse (lookup k m) 0%nat + occurrences k ks)%nat.
Proof.
  revert m. induction ks as [|k' ks IH]; intros m; simpl.
  - unfold occurrences. simpl. lia.
  - rewrite IH, occurrences_cons. unfold increment.
    destruct (String.eqb_spec k k') as [->|N].
    + rewrite lookup_map_set_same. simpl. lia.
    + rewrite lookup_map_set_other by exact N. lia.
Qed.

Lemma fold_increment_keys (ks : list string) (m : CountMap) :
  keys (fold_left (fun map k => increment k map) ks m)
  = fold_left (fun set k => set_add k set) ks (keys m).
Proof.
  revert m. induction ks as [|k ks IH]; intros m; simpl; [reflexivity|].
  rewrite IH. unfold increment. rewrite keys_map_set. reflexivity.
Qed.

Lemma fold_increment_positive (ks : list string) (m : CountMap) :
  Forall (fun e => 1 <= snd e)%nat m ->
  Forall (fun e => 1 <= snd e)%nat (fold_left (fun map k => increment k map) ks m).
Proof.
  revert m. induction ks as [|k ks IH]; intros m H; simpl; [exact H|].
  apply IH. unfold increment. generalize (orElse (lookup k m) 0%nat). intros n.
  induction H as [|[k' v'] m Hv H IHm]; simpl.
  - constructor; [simpl; lia | constructor].
  - destruct (k =? k'); constructor; simpl; auto; lia.
Qed.

(** The entries of the map that counts [ks], starting empty. *)
Lemma counted_entries (ks : list string) :
  let m := fold_left (fun map k => increment k map) ks [] in
  keys m = firstOccurrences ks
  /\ NoDup (keys m)
  /\ forall k c, In (k, c) m -> c = occurrences k ks /\ In k ks /\ (1 <= c)%nat.
Proof.
  cbv zeta. set (m := fold_left (fun map k => increment k map) ks []).
  assert (K : keys m = firstOccurrences ks) by (apply fold_increment_keys).
  assert (N : NoDup (keys m)).
  { rewrite K. apply fold_set_add_NoDup. constructor. }
  split; [exact K|]. split; [exact N|].
  intros k c I.
  assert (L := lookup_entry m k c N I).
  assert (F := fold_increment_lookup k ks []). fold m in F. rewrite L in F.
  simpl in F.
  assert (P : (1 <= c)%nat).
  { assert (A := fold_increment_positive ks [] (Forall_nil _)). fold m in A.
    rewrite Forall_forall in A. exact (A (k, c) I). }
  split; [exact F|]. split; [|exact P].
  assert (Ik : In k (keys m)) by (apply in_map_iff; exists (k, c); auto).
  rewrite K in Ik. unfold firstOccurrences in Ik.
  apply fold_set_add_In in Ik. destruct Ik as [Ik|[]]. exact Ik.
Qed.

Lemma occurrences_In (k : string) (ks : list string) :
  In k ks <-> (1 <= occurrences k ks)%nat.
Proof.
  unfold occurrences. induction ks as [|k' ks IH]; simpl.
  - split; [intros [] | lia].
  - destruct (String.eqb_spec k k') as [->|N]; simpl.
    + split; [lia | auto].
    + rewrite <- IH. split; [intros [E|I]; [congruence | exact I] | auto].
Qed.

Lemma in_counted (k : string) (ks : list string) :
  In k ks ->
  In (k, occurrences k ks) (fold_left (fun map k => increment k map) ks []).
Proof.
  intros I. destruct (counted_entries ks) as [K [N E]].
  set (m := fold_left (fun map k => increment k map) ks []) in *.
  assert (Ik : In k (keys m)).
  { rewrite K. unfold firstOccurrences. apply fold_set_add_In. left. exact I. }
  apply in_map_iff in Ik. destruct Ik as [[k' c] [Ek Ikc]]. simpl in Ek. subst k'.
  destruct (E k c Ikc) as [-> _]. exact Ikc.
Qed.

End CountMaps.

Section Ranking.

Import Refresh.

Lemma insertByCount_perm (e : string * nat) (l : CountMap) :
  Permutation (insertByCount e l) (e :: l).
Proof.
  induction l as [|e' l IH]; simpl; [reflexivity|].
  destruct (snd e' <=? snd e)%nat; [reflexivity|].
  rewrite IH. apply perm_swap.
Qed.

Lemma sortByCount_perm (l : CountMap) : Permutation (sortByCount l) l.
Proof.
  induction l as [|e l IH]; simpl; [reflexivity|].
  rewrite insertByCount_perm. constructor. exact IH.
Qed.

Lemma insertByCount_sorted (e : string * nat) (l : CountMap) :
  StronglySorted byCount l -> StronglySorted byCount (insertByCount e l).
Proof.
  induction 1 as [|e' l S IH F]; simpl.
  - constructor; constructor.
  - destruct (Nat.leb_spec (snd e') (snd e)) as [L|L].
    + constructor; [constructor; assumption|].
      constructor; [exact L|].
      rewrite Forall_forall in *. intros x I. specialize (F x I).
      unfold byCount in *. lia.
    + constructor; [exact IH|].
      rewrite Forall_forall in *. intros x I.
      apply (Permutation_in _ (insertByCount_perm e l)) in I.
      destruct I as [<-|I]; [unfold byCount; lia | exact (F x I)].
Qed.

Lemma sortByCount_sorted (l : CountMap) : StronglySorted byCount (sortByCount l).
Proof.
  induction l as [|e l IH]; simpl; [constructor|].
  apply insertByCount_sorted. exact IH.
Qed.

(** The sort is stable: entries of equal count keep their order. *)
Lemma insertByCount_stable (n : nat) (e : string * nat) (l : CountMap) :
  filter (fun x => snd x =? n)%nat (insertByCount e l)
  = filter (fun x => snd x =? n)%nat (e :: l).
Proof.
  induction l as [|e' l IH]; simpl; [reflexivity|].
  destruct (Nat.leb_spec (snd e') (snd e)) as [L|L]; [reflexivity|].
  simpl in *. rewrite IH.
  destruct (Nat.eqb_spec (snd e') n) as [E1|N1];
    destruct (Nat.eqb_spec (snd e) n) as [E2|N2]; try reflexivity.
  lia.
Qed.

Lemma sortByCount_stable (n : nat) (l : CountMap) :
  filter (fun x => snd x =? n)%nat (sortByCount l)
  = filter (fun x => snd x =? n)%nat l.
Proof.
  induction l as [|e l IH]; simpl; [reflexivity|].
  rewrite insertByCount_stable. simpl. rewrite IH. reflexivity.
Qed.

Lemma In_firstn {A : Type} (n : nat) (l : list A) (x : A) :
  In x (firstn n l) -> In x l.
Proof.
  intros I. rewrite <- (firstn_skipn n l). apply in_or_app. left. exact I.
Qed.

Lemma StronglySorted_firstn {A : Type} (R : A -> A -> Prop) (n : nat) (l : list A) :
  StronglySorted R l -> StronglySorted R (firstn n l).
Proof.
  intros S. revert n. induction S as [|x l S IH F]; intros [|n]; simpl;
    try constructor.
  - apply IH.
  - rewrite Forall_forall in *. intros y I. apply F. exact (In_firstn n l y I).
Qed.

Lemma StronglySorted_split {A : Type} (R : A -> A -> Prop) (l1 l2 : list A) :
  StronglySorted R (l1 ++ l2) ->
  forall x y, In x l1 -> In y l2 -> R x y.
Proof.
  induction l1 as [|a l1 IH]; simpl; intros S x y Ix Iy; [destruct Ix|].
  inversion S as [|? ? S' F]; subst.
  destruct Ix as [<-|Ix].
  - rewrite Forall_forall in F. apply F. apply in_or_app. right. exact Iy.
  - exact (IH S' x y Ix Iy).
Qed.

Lemma NoDup_firstn {A : Type} (n : nat) (l : list A) :
  NoDup l -> NoDup (firstn n l).
Proof.
  intros N. revert n. induction N as [|x l H N IH]; intros [|n]; simpl;
    try constructor.
  - intros I. apply H. exact (In_firstn n l x I).
  - apply IH.
Qed.

(** The keys [topCounts] counts: the keys of the items that are not
    empty. *)
Lemma topCounts_loop {A : Type} (items : list A) (keyFn : A -> string) (m : CountMap) :
  fold_left (fun map it =>
               let k := keyFn it in
               if truthy k then increment k map else map) items m
  = fold_left (fun map k => increment k map) (filter truthy (map keyFn items)) m.
Proof.
  revert m. induction items as [|it items IH]; intros m; simpl; [reflexivity|].
  destruct (truthy (keyFn it)); simpl; apply IH.
Qed.

Lemma occurrences_filter_truthy (k : string) (ks : list string) :
  k <> "" -> occurrences k (filter truthy ks) = occurrences k ks.
Proof.
  intros N. unfold occurrences. induction ks as [|k' ks IH]; simpl; [reflexivity|].
  destruct (truthy k') eqn:T; simpl.
  - destruct (k =? k'); simpl; rewrite IH; reflexivity.
  - destruct (String.eqb_spec k k') as [->|_]; [|exact IH].
    apply truthy_nonempty in N. rewrite N in T. discriminate T.
Qed.

End Ranking.

(** X10: the names [topCounts] reports are distinct and non-empty, and the
    count reported with a name is the number of items that have it as their
    key, at least one. *)
Theorem topCounts_counts {A : Type} (items : list A) (keyFn : A -> string)
        (limit : nat) :
  NoDup (map fst (Refresh.topCounts items keyFn limit))
  /\ forall name count,
       In (name, count) (Refresh.topCounts items keyFn limit) ->
       name <> ""
       /\ count = Refresh.occurrences name (map keyFn items)
       /\ (1 <= count)%nat.
Proof.
  unfold Refresh.topCounts. rewrite topCounts_loop.
  set (ks := filter truthy (map keyFn items)).
  destruct (counted_entries ks) as [_ [N E]].
  set (m := fold_left (fun map k => Refresh.increment k map) ks []) in *.
  split.
  - rewrite <- firstn_map. apply NoDup_firstn.
    apply (Permutation_NoDup (Permutation_map fst (Permutation_sym (sortByCount_perm m)))).
    exact N.
  - intros name count I. apply In_firstn in I.
    apply (Permutation_in _ (sortByCount_perm m)) in I.
    destruct (E name count I) as [C [Ik P]].
    assert (T : name <> "").
    { subst ks. apply filter_In in Ik. destruct Ik as [_ T].
      apply truthy_nonempty. exact T. }
    split; [exact T|]. split; [|exact P].
    rewrite C. subst ks. apply occurrences_filter_truthy. exact T.
Qed.

Lemma topCounts_counts_witness :
  Refresh.occurrences "NASA" (map (fun v => v) ["NASA"; ""; "Army"; "NASA"]) = 2%nat.
Proof.
  symmetry.
  apply (proj2 (topCounts_counts ["NASA"; ""; "Army"; "NASA"] (fun v => v) 5)).
  left. reflexivity.
Defined.

(** X11: [topCounts] reports at most [limit] entries, by non-increasing
    count; and when a non-empty key of the items is not reported, [limit]
    entries are, none of them with a smaller count than that key has. *)
Theorem topCounts_top {A : Type} (items : list A) (keyFn : A -> string)
        (limit : nat) :
  (List.length (Refresh.topCounts items keyFn limit) <= limit)%nat
  /\ StronglySorted Refresh.byCount (Refresh.topCounts items keyFn limit)
  /\ forall k,
       k <> "" -> In k (map keyFn items) ->
       ~ In k (map fst (Refresh.topCounts items keyFn limit)) ->
       List.length (Refresh.topCounts items keyFn limit) = limit
       /\ forall name count,
            In (name, count) (Refresh.topCounts items keyFn limit) ->
            (Refresh.occurrences k (map keyFn items) <= count)%nat.
Proof.
  unfold Refresh.topCounts. rewrite topCounts_loop.
  set (ks := filter truthy (map keyFn items)).
  set (m := fold_left (fun map k => Refresh.increment k map) ks []).
  split; [apply firstn_le_length|].
  split; [apply StronglySorted_firstn, sortByCount_sorted|].
  intros k T Ik Out.
  assert (Iks : In k ks).
  { subst ks. apply filter_In. split; [exact Ik | apply truthy_nonempty; exact T]. }
  assert (Im := in_counted k ks Iks). fold m in Im.
  apply (Permutation_in _ (Permutation_sym (sortByCount_perm m))) in Im.
  rewrite <- (firstn_skipn limit (Refresh.sortByCount m)) in Im.
  apply in_app_or in Im. destruct Im as [Im|Im].
  { exfalso. apply Out. apply in_map_iff.
    exists (k, Refresh.occurrences k ks). auto. }
  split.
  - rewrite length_firstn. apply Nat.min_l.
    destruct (Nat.le_gt_cases limit (List.length (Refresh.sortByCount m))) as [L|L];
      [exact L|].
    rewrite skipn_all2 in Im by lia. destruct Im.
  - intros name count I.
    assert (S := sortByCount_sorted m).
    rewrite <- (firstn_skipn limit (Refresh.sortByCount m)) in S.
    assert (R := StronglySorted_split _ _ _ S _ _ I Im).
    unfold Refresh.byCount in R. simpl in R.
    subst ks. rewrite occurrences_filter_truthy in R by exact T. exact R.
Qed.

Lemma topCounts_top_witness :
  List.length (Refresh.topCounts ["a"; "b"; "b"; "c"; "c"; "c"] (fun v => v) 2) = 2%nat
  /\ forall name count,
       In (name, count) (Refresh.topCounts ["a"; "b"; "b"; "c"; "c"; "c"] (fun v => v) 2) ->
       (Refresh.occurrences "a" (map (fun v => v) ["a"; "b"; "b"; "c"; "c"; "c"])
        <= count)%nat.
Proof.
  apply (proj2 (proj2 (topCounts_top ["a"; "b"; "b"; "c"; "c"; "c"] (fun v => v) 2)) "a").
  - discriminate.
  - left. reflexivity.
  - vm_compute. intros [E|[E|[]]]; discriminate E.
Defined.

Example topCounts_run :
  Refresh.topCounts ["b"; "a"; "c"; "a"; ""; "c"; "d"] (fun v => v) 3
  = [("a", 2%nat); ("c", 2%nat); ("b", 1%nat)].
Proof. reflexivity. Qed.

Lemma map_fst_filter (p : string * nat -> bool) (q : string -> bool)
      (m : Refresh.CountMap) :
  (forall e, In e m -> p e = q (fst e)) ->
  map fst (filter p m) = filter q (map fst m).
Proof.
  induction m as [|e m IH]; intros H; simpl; [reflexivity|].
  rewrite (H e (or_introl eq_refl)).
  destruct (q (fst e)); simpl; rewrite IH; auto;
    intros x I; apply H; right; exact I.
Qed.

Lemma ranked_ties (ks : list string) (limit n : nat) :
  let m := fold_left (fun map k => Refresh.increment k map) ks [] in
  exists rest,
    filter (fun k => Refresh.occurrences k ks =? n)%nat (Refresh.firstOccurrences ks)
    = map fst (filter (fun e => snd e =? n)%nat
                      (firstn limit (Refresh.sortByCount m))) ++ rest.
Proof.
  cbv zeta. destruct (counted_entries ks) as [K [_ E]].
  set (m := fold_left (fun map k => Refresh.increment k map) ks []) in *.
  exists (map fst (filter (fun e => snd e =? n)%nat
                          (skipn limit (Refresh.sortByCount m)))).
  rewrite <- map_app, <- filter_app, firstn_skipn, sortByCount_stable.
  rewrite <- K. symmetry. apply map_fst_filter.
  intros [k c] I. simpl. destruct (E k c I) as [-> _]. reflexivity.
Qed.

(** X12: among the names [topCounts] reports with one and the same count,
    the order is that of their first occurrence among the items, and they
    are the first names of that count in that order. *)
Theorem topCounts_ties {A : Type} (items : list A) (keyFn : A -> string)
        (limit n : nat) :
  let ks := filter truthy (map keyFn items) in
  exists rest,
    filter (fun k => Refresh.occurrences k ks =? n)%nat (Refresh.firstOccurrences ks)
    = map fst (filter (fun e => snd e =? n)%nat (Refresh.topCounts items keyFn limit))
      ++ rest.
Proof.
  cbv zeta. unfold Refresh.topCounts. rewrite topCounts_loop. apply ranked_ties.
Qed.

(** ** The terms counted in titles *)

Section TermCounts.

Import Refresh.

Variable toLowerCase : string -> string.

Lemma fold_conditional (q : string -> bool) (l : list string) (m : CountMap) :
  fold_left (fun map x => if q x then increment x map else map) l m
  = fold_left (fun map k => increment k map) (filter q l) m.
Proof.
  revert m. induction l as [|x l IH]; intros m; simpl; [reflexivity|].
  destruct (q x); simpl; apply IH.
Qed.

(** The terms found in a title, in the order of [AI_TERMS]. *)
Lemma topTermCounts_loop (titles : list string) (m : CountMap) :
  fold_left (fun map title =>
               let low := toLowerCase title in
               fold_left (fun map term =>
                            if includes low term then increment term map else map)
                         AI_TERMS map)
            titles m
  = fold_left (fun map k => increment k map)
              (flat_map (fun title => filter (includes (toLowerCase title)) AI_TERMS)
                        titles)
              m.
Proof.
  revert m. induction titles as [|title titles IH]; intros m; [reflexivity|].
  cbn [fold_left flat_map]. rewrite fold_left_app, IH. f_equal.
  apply (fold_conditional (includes (toLowerCase title))).
Qed.

Lemma occurrences_app (k : string) (l1 l2 : list string) :
  occurrences k (l1 ++ l2) = (occurrences k l1 + occurrences k l2)%nat.
Proof. unfold occurrences. rewrite filter_app, length_app. reflexivity. Qed.

Lemma occurrences_filter_NoDup (q : string -> bool) (k : string) (l : list string) :
  NoDup l ->
  occurrences k (filter q l)
  = if q k && Dashboard.includes k l then 1%nat else 0%nat.
Proof.
  unfold occurrences, Dashboard.includes.
  induction 1 as [|x l Hx N IH]; simpl.
  - rewrite andb_false_r. reflexivity.
  - destruct (String.eqb_spec k x) as [->|Ne].
    + assert (Z : existsb (String.eqb x) l = false).
      { destruct (existsb (String.eqb x) l) eqn:E; [|reflexivity].
        exfalso. apply Hx. apply includes_In. exact E. }
      rewrite Z in IH. rewrite andb_false_r in IH.
      destruct (q x); simpl.
      * rewrite String.eqb_refl. simpl. rewrite IH. reflexivity.
      * exact IH.
    + simpl. destruct (q x); simpl; [|exact IH].
      destruct (String.eqb_spec k x); [contradiction | exact IH].
Qed.

Lemma AI_TERMS_NoDup : NoDup AI_TERMS.
Proof.
  unfold AI_TERMS.
  repeat (constructor; [simpl; intuition discriminate|]). constructor.
Qed.

Lemma occurrences_terms (term : string) (titles : list string) :
  occurrences term
    (flat_map (fun title => filter (includes (toLowerCase title)) AI_TERMS) titles)
  = if Dashboard.includes term AI_TERMS
    then List.length (filter (fun title => includes (toLowerCase title) term) titles)
    else 0%nat.
Proof.
  induction titles as [|title titles IH]; cbn [flat_map filter].
  - destruct (Dashboard.includes term AI_TERMS); reflexivity.
  - rewrite occurrences_app, IH, (occurrences_filter_NoDup _ _ _ AI_TERMS_NoDup).
    destruct (Dashboard.includes term AI_TERMS);
      destruct (includes (toLowerCase title) term); reflexivity.
Qed.

Lemma filter_length_le {A : Type} (p : A -> bool) (l : list A) :
  (List.length (filter p l) <= List.length l)%nat.
Proof.
  induction l as [|x l IH]; simpl; [lia|]. destruct (p x); simpl; lia.
Qed.

Lemma filter_length_mono {A : Type} (p q : A -> bool) (l : list A) :
  (forall x, p x = true -> q x = true) ->
  (List.length (filter p l) <= List.length (filter q l))%nat.
Proof.
  intros H. induction l as [|x l IH]; simpl; [lia|].
  destruct (p x) eqn:P.
  - rewrite (H x P). simpl. lia.
  - destruct (q x); simpl; lia.
Qed.

End TermCounts.

Lemma topTermCounts_entry (toLowerCase : string -> string)
      (titles : list string) (limit : nat) (term : string) (count : nat) :
  In (term, count) (Refresh.topTermCounts toLowerCase titles limit) ->
  In term Refresh.AI_TERMS
  /\ count = List.length
               (filter (fun title => Refresh.includes (toLowerCase title) term) titles)
  /\ (1 <= count <= List.length titles)%nat.
Proof.
  unfold Refresh.topTermCounts. rewrite topTermCounts_loop.
  set (ks := flat_map _ titles).
  destruct (counted_entries ks) as [_ [N E]].
  set (m := fold_left (fun map k => Refresh.increment k map) ks []) in *.
  intros I. apply In_firstn in I.
  apply (Permutation_in _ (sortByCount_perm m)) in I.
  destruct (E term count I) as [C [Ik P]].
  subst ks. rewrite occurrences_terms in C.
  destruct (Dashboard.includes term Refresh.AI_TERMS) eqn:T; [|lia].
  split; [apply includes_In; exact T|]. split; [exact C|].
  split; [exact P|]. rewrite C. apply filter_length_le.
Qed.

(** X13: [topTermCounts] reports at most [limit] entries, by non-increasing
    count, of distinct terms of [AI_TERMS]; the count of a term is the
    number of titles whose lower-case form contains it, at least one. *)
Theorem topTermCounts_counts (toLowerCase : string -> string)
        (titles : list string) (limit : nat) :
  let reported := Refresh.topTermCounts toLowerCase titles limit in
  (List.length reported <= limit)%nat
  /\ StronglySorted Refresh.byCount reported
  /\ NoDup (map fst reported)
  /\ forall term count,
       In (term, count) reported ->
       In term Refresh.AI_TERMS
       /\ count = List.length
                    (filter (fun title => Refresh.includes (toLowerCase title) term)
                            titles)
       /\ (1 <= count <= List.length titles)%nat.
Proof.
  cbv zeta. split; [|split; [|split]].
  - apply firstn_le_length.
  - apply StronglySorted_firstn, sortByCount_sorted.
  - unfold Refresh.topTermCounts. rewrite topTermCounts_loop.
    set (ks := flat_map _ titles).
    destruct (counted_entries ks) as [_ [N _]].
    rewrite <- firstn_map. apply NoDup_firstn.
    refine (Permutation_NoDup
              (Permutation_map fst (Permutation_sym (sortByCount_perm _))) N).
  - intros term count. apply topTermCounts_entry.
Qed.

Lemma topTermCounts_counts_witness :
  In "llm" Refresh.AI_TERMS.
Proof.
  apply (proj2 (proj2 (proj2 (topTermCounts_counts
                                (fun s => s) ["llm engineer"; "nurse"; "ai and llm lead"] 6)))
           "llm" 2%nat).
  vm_compute. left. reflexivity.
Defined.

Example topTermCounts_run :
  Refresh.topTermCounts (fun s => s)
    ["llm engineer"; "nurse"; "generative ai and llm lead"; "maintenance"] 6
  = [("llm", 2%nat); ("ai", 2%nat); ("generative ai", 1%nat)].
Proof. reflexivity. Qed.

Lemma filter_nil_existsb {A : Type} (p : A -> bool) (l : list A) :
  filter p l = [] <-> existsb p l = false.
Proof.
  induction l as [|x l IH]; simpl; [tauto|].
  destruct (p x); simpl; [split; discriminate | exact IH].
Qed.

Lemma flat_map_nil {A B : Type} (f : A -> list B) (l : list A) :
  flat_map f l = [] <-> forall x, In x l -> f x = [].
Proof.
  induction l as [|a l IH]; simpl.
  - split; [intros _ x [] | reflexivity].
  - split.
    + intros E. apply app_eq_nil in E. destruct E as [Ea El].
      intros x [<-|I]; [exact Ea | exact (proj1 IH El x I)].
    + intros H. rewrite (H a (or_introl eq_refl)). simpl.
      apply IH. intros x I. apply H. right. exact I.
Qed.

Lemma counted_nil (ks : list string) :
  fold_left (fun map k => Refresh.increment k map) ks [] = [] <-> ks = [].
Proof.
  split.
  - intros E. destruct ks as [|k ks]; [reflexivity|].
    assert (I := in_counted k (k :: ks) (or_introl eq_refl)).
    rewrite E in I. destruct I.
  - intros ->. reflexivity.
Qed.

(** X14: no term is reported with a count above the number of titles
    [hasAiTerm] flags; and, for a positive [limit], no term is reported
    exactly when no title is flagged. *)
Theorem term_counts_within_flagged (toLowerCase : string -> string)
        (titles : list string) (limit : nat) :
  let flagged := List.length (filter (Refresh.hasAiTerm toLowerCase) titles) in
  (forall term count,
      In (term, count) (Refresh.topTermCounts toLowerCase titles limit) ->
      (count <= flagged)%nat)
  /\ ((0 < limit)%nat ->
      (Refresh.topTermCounts toLowerCase titles limit = [] <-> flagged = 0%nat)).
Proof.
  cbv zeta. split.
  - intros term count I.
    destruct (topTermCounts_entry _ _ _ _ _ I) as [T [-> _]].
    apply filter_length_mono. intros title H.
    unfold Refresh.hasAiTerm. apply existsb_exists. exists term. auto.
  - intros L. unfold Refresh.topTermCounts. rewrite topTermCounts_loop.
    set (ks := flat_map _ titles).
    set (m := fold_left (fun map k => Refresh.increment k map) ks []).
    assert (M : m = [] <-> ks = []) by apply counted_nil.
    assert (S : firstn limit (Refresh.sortByCount m) = [] <-> m = []).
    { split.
      - intros E. destruct (Refresh.sortByCount m) as [|e l] eqn:Q.
        + apply Permutation_nil. rewrite <- Q. apply sortByCount_perm.
        + destruct limit; [lia | discriminate E].
      - intros ->. destruct limit; reflexivity. }
    rewrite S, M. subst ks. rewrite flat_map_nil, length_zero_iff_nil.
    split.
    + intros H. apply filter_nil_existsb.
      destruct (existsb (Refresh.hasAiTerm toLowerCase) titles) eqn:X; [|reflexivity].
      apply existsb_exists in X. destruct X as [title [I F]].
      assert (Z := proj1 (filter_nil_existsb _ _) (H title I)).
      unfold Refresh.hasAiTerm in F.
      change (existsb (Refresh.includes (toLowerCase title)) Refresh.AI_TERMS = true)
        in F.
      rewrite Z in F. discriminate F.
    + intros H title I. apply filter_nil_existsb.
      destruct (existsb (Refresh.includes (toLowerCase title)) Refresh.AI_TERMS) eqn:X;
        [|reflexivity].
      assert (F : In title (filter (Refresh.hasAiTerm toLowerCase) titles))
        by (apply filter_In; split; [exact I | exact X]).
      rewrite H in F. destruct F.
Qed.

Lemma term_counts_within_flagged_witness :
  Refresh.topTermCounts (fun s => s) ["nurse"; "welder"] 6 = [].
Proof.
  apply (proj2 (term_counts_within_flagged (fun s => s) ["nurse"; "welder"] 6)).
  - lia.
  - reflexivity.
Defined.

(** ** The rank of a term and of a longer term that contains it *)

Section Outranks.

Import Refresh.

Lemma includes_unfold (text term : string) :
  includes text term
  = String.prefix term text
    || match text with
       | EmptyString => false
       | String _ rest => includes rest term
       end.
Proof. destruct text; reflexivity. Qed.

Lemma prefix_app_includes (a b text : string) :
  String.prefix (a ++ b) text = true -> includes text b = true.
Proof.
  revert text. induction a as [|c a IH]; intros text H.
  - rewrite includes_unfold. simpl in H. rewrite H. reflexivity.
  - destruct text as [|d text]; [discriminate H|].
    simpl in H. destruct (ascii_dec c d); [|discriminate H].
    rewrite includes_unfold. rewrite (IH text H). apply orb_true_r.
Qed.

(** A text that contains a term contains the end of the term. *)
Lemma includes_app (a b text : string) :
  includes text (a ++ b) = true -> includes text b = true.
Proof.
  induction text as [|d text IH]; intros H; rewrite includes_unfold in H;
    apply orb_true_iff in H; destruct H as [H|H].
  - exact (prefix_app_includes a b _ H).
  - discriminate H.
  - exact (prefix_app_includes a b _ H).
  - rewrite includes_unfold. rewrite (IH H). apply orb_true_r.
Qed.

Lemma guarded_mono (x y : string) (ks : list string) (s1 s2 : bool) :
  (s1 = true -> s2 = true) ->
  guarded x y s1 ks = true -> guarded x y s2 ks = true.
Proof.
  revert s1 s2. induction ks as [|k ks IH]; intros s1 s2 S H; simpl in *; [reflexivity|].
  apply andb_true_iff in H. destruct H as [H1 H2]. apply andb_true_iff. split.
  - destruct (k =? y); [auto | reflexivity].
  - apply (IH (s1 || (k =? x)) (s2 || (k =? x))); [|exact H2].
    intros E. apply orb_true_iff in E. apply orb_true_iff. destruct E; auto.
Qed.

Lemma guarded_app (x y : string) (l1 l2 : list string) (s : bool) :
  guarded x y s l1 = true -> guarded x y false l2 = true ->
  guarded x y s (l1 ++ l2) = true.
Proof.
  revert s. induction l1 as [|k l1 IH]; intros s H1 H2; simpl in *.
  - apply (guarded_mono x y l2 false s); [discriminate | exact H2].
  - apply andb_true_iff in H1. destruct H1 as [H H1]. rewrite H. simpl.
    apply IH; assumption.
Qed.

Lemma guarded_flat_map {A : Type} (x y : string) (f : A -> list string)
      (l : list A) :
  (forall a, guarded x y false (f a) = true) ->
  guarded x y false (flat_map f l) = true.
Proof.
  intros H. induction l as [|a l IH]; simpl; [reflexivity|].
  apply guarded_app; [apply H | exact IH].
Qed.

Lemma guarded_terms (q : string -> bool) :
  (q "generative ai" = true -> q "ai" = true) ->
  guarded "ai" "generative ai" false (filter q AI_TERMS) = true.
Proof.
  intros H. unfold AI_TERMS. cbn [filter].
  destruct (q "ai") eqn:Q1; destruct (q "generative ai") eqn:Q3;
    try (specialize (H eq_refl); discriminate H);
    destruct (q "artificial intelligence"), (q "chatgpt"), (q "llm"),
      (q "machine learning"), (q "prompt"); reflexivity.
Qed.

Lemma before_In_l {A : Type} (a b : A) (l : list A) : before a b l -> In a l.
Proof. induction 1; simpl; auto. Qed.

Lemma before_In_r {A : Type} (a b : A) (l : list A) : before a b l -> In b l.
Proof. induction 1; simpl; auto. Qed.

Lemma before_app {A : Type} (a b : A) (l l' : list A) :
  before a b l -> before a b (l ++ l').
Proof.
  induction 1 as [l I|c l B IH]; simpl.
  - apply before_here. apply in_or_app. left. exact I.
  - apply before_later. exact IH.
Qed.

Lemma before_snoc {A : Type} (a b : A) (l : list A) :
  In a l -> before a b (l ++ [b]).
Proof.
  induction l as [|c l IH]; intros I; [destruct I|]. simpl.
  destruct I as [->|I].
  - apply before_here. apply in_or_app. right. left. reflexivity.
  - apply before_later. exact (IH I).
Qed.

(** In the order of first occurrence, [x] comes before [y] when every [y]
    of the sequence has an [x] before it. *)
Lemma firstOccurrences_before (x y : string) (ks acc : list string) (seen : bool) :
  x <> y ->
  guarded x y seen ks = true ->
  (seen = true -> In x acc) ->
  (In y acc -> before x y acc) ->
  In y (fold_left (fun set k => set_add k set) ks acc) ->
  before x y (fold_left (fun set k => set_add k set) ks acc).
Proof.
  intros N. revert acc seen.
  induction ks as [|k ks IH]; intros acc seen G S B I; simpl in *; [exact (B I)|].
  apply andb_true_iff in G. destruct G as [G1 G2].
  apply (IH (set_add k acc) (seen || (k =? x))); [exact G2 | | | exact I].
  - intros E. apply set_add_In. apply orb_true_iff in E. destruct E as [E|E].
    + right. exact (S E).
    + left. apply String.eqb_eq in E. congruence.
  - intros Iy. unfold set_add in *.
    destruct (Dashboard.includes k acc) eqn:C; [exact (B Iy)|].
    apply in_app_or in Iy. destruct Iy as [Iy|[<-|[]]].
    + apply before_app. exact (B Iy).
    + rewrite String.eqb_refl in G1. apply before_snoc. exact (S G1).
Qed.

Lemma before_map_fst (x y : string) (m : CountMap) :
  before x y (map fst m) ->
  exists cx cy, before (x, cx) (y, cy) m.
Proof.
  remember (map fst m) as l eqn:E. intros B. revert m E.
  induction B as [l I|c l B IH]; intros [|[k v] m] E; try discriminate E;
    simpl in E; injection E as -> ->.
  - apply in_map_iff in I. destruct I as [[k' cy] [<- I]].
    exists v, cy. apply before_here. exact I.
  - destruct (IH m eq_refl) as [cx [cy H]]. exists cx, cy.
    apply before_later. exact H.
Qed.

Lemma insertByCount_keeps_before (e a b : string * nat) (l : CountMap) :
  before a b l -> before a b (insertByCount e l).
Proof.
  induction 1 as [l I|c l B IH]; simpl.
  - destruct (snd a <=? snd e)%nat.
    + apply before_later, before_here. exact I.
    + apply before_here.
      apply (Permutation_in _ (Permutation_sym (insertByCount_perm e l))).
      right. exact I.
  - destruct (snd c <=? snd e)%nat.
    + apply before_later, before_later. exact B.
    + apply before_later. exact IH.
Qed.

Lemma insertByCount_before (a b : string * nat) (l : CountMap) :
  In b l -> (snd b <= snd a)%nat -> before a b (insertByCount a l).
Proof.
  induction l as [|c l IH]; intros I L; [destruct I|]. simpl.
  destruct (Nat.leb_spec (snd c) (snd a)) as [C|C].
  - apply before_here. exact I.
  - apply before_later. apply IH; [|exact L].
    destruct I as [->|I]; [lia | exact I].
Qed.

Lemma sortByCount_before (a b : string * nat) (m : CountMap) :
  before a b m -> (snd b <= snd a)%nat -> before a b (sortByCount m).
Proof.
  induction 1 as [l I|c l B IH]; intros L; simpl.
  - apply insertByCount_before; [|exact L].
    apply (Permutation_in _ (Permutation_sym (sortByCount_perm l))). exact I.
  - apply insertByCount_keeps_before. exact (IH L).
Qed.

Lemma firstn_before {A : Type} (a b : A) (l : list A) (n : nat) :
  NoDup l -> before a b l -> In b (firstn n l) -> before a b (firstn n l).
Proof.
  intros N B. revert n N. induction B as [l I|c l B IH]; intros [|n] N H;
    simpl in H; try (destruct H; fail); inversion N as [|? ? Nh Nt]; subst;
    destruct H as [E|H]; simpl.
  - subst b. contradiction.
  - apply before_here. exact H.
  - subst b. exfalso. apply Nh. exact (before_In_r _ _ _ B).
  - apply before_later. apply IH; assumption.
Qed.

End Outranks.

(** X15: whenever [topTermCounts] reports "generative ai", it reports "ai"
    before it, with a count that is not smaller: every title that contains
    the longer term contains the shorter one. *)
Theorem ai_outranks_generative_ai (toLowerCase : string -> string)
        (titles : list string) (limit count : nat) :
  In ("generative ai", count) (Refresh.topTermCounts toLowerCase titles limit) ->
  exists count',
    (count <= count')%nat
    /\ Refresh.before ("ai", count') ("generative ai", count)
                      (Refresh.topTermCounts toLowerCase titles limit).
Proof.
  intros I.
  destruct (topTermCounts_entry _ _ _ _ _ I) as [_ [C _]].
  revert I. unfold Refresh.topTermCounts. rewrite topTermCounts_loop.
  set (ks := flat_map _ titles).
  destruct (counted_entries ks) as [K [N E]].
  set (m := fold_left (fun map k => Refresh.increment k map) ks []) in *.
  intros I.
  assert (Im : In ("generative ai", count) m).
  { apply (Permutation_in _ (sortByCount_perm m)). exact (In_firstn _ _ _ I). }
  assert (G : Refresh.guarded "ai" "generative ai" false ks = true).
  { subst ks. apply guarded_flat_map. intros title. apply guarded_terms.
    apply (includes_app "generative " "ai"). }
  assert (B : Refresh.before "ai" "generative ai" (map fst m)).
  { fold (keys m). rewrite K. unfold Refresh.firstOccurrences.
    apply (firstOccurrences_before _ _ ks [] false);
      [discriminate | exact G | discriminate | intros [] |].
    fold (Refresh.firstOccurrences ks). rewrite <- K.
    apply in_map_iff. exists ("generative ai", count). auto. }
  apply before_map_fst in B. destruct B as [ca [cg B]].
  assert (Eg : cg = count).
  { assert (L1 := lookup_entry m _ _ N (before_In_r _ _ _ B)).
    assert (L2 := lookup_entry m _ _ N Im). congruence. }
  subst cg.
  destruct (E _ _ (before_In_l _ _ _ B)) as [Ca _].
  exists ca.
  assert (L : (count <= ca)%nat).
  { rewrite Ca, C. subst ks. rewrite occurrences_terms.
    change (Dashboard.includes "ai" Refresh.AI_TERMS) with true. cbv iota.
    apply filter_length_mono. intros title.
    apply (includes_app "generative " "ai"). }
  split; [exact L|].
  apply firstn_before; [| |exact I].
  - apply (Permutation_NoDup (Permutation_sym (sortByCount_perm m))).
    apply (NoDup_map_inv fst). exact N.
  - apply sortByCount_before; [exact B | exact L].
Qed.

Lemma ai_outranks_generative_ai_witness :
  exists count',
    (1 <= count')%nat
    /\ Refresh.before ("ai", count') ("generative ai", 1%nat)
         (Refresh.topTermCounts (fun s => s)
            ["llm engineer"; "nurse"; "generative ai and llm lead"; "maintenance"] 6).
Proof.
  apply (ai_outranks_generative_ai (fun s => s)
           ["llm engineer"; "nurse"; "generative ai and llm lead"; "maintenance"] 6 1).
  vm_compute. right. right. left. reflexivity.
Defined.

(** ** The jobs proxy: CORS and the forwarded query *)

Section ProxyLemmas.

Import Worker.

Lemma lookup_params_delete (k k' : string) (p : Params) :
  k' <> k -> lookup k' (params_delete k p) = lookup k' p.
Proof.
  intros N. induction p as [|[k0 v0] p IH]; simpl; [reflexivity|].
  destruct (String.eqb_spec k0 k) as [->|N0]; simpl.
  - destruct (String.eqb_spec k' k); [contradiction | exact IH].
  - destruct (k' =? k0); [reflexivity | exact IH].
Qed.

Lemma params_get_set_same (k v : string) (p : Params) :
  params_get k (params_set k v p) = Some v.
Proof.
  unfold params_get. induction p as [|[k0 v0] p IH]; simpl.
  - rewrite String.eqb_refl. reflexivity.
  - destruct (String.eqb_spec k0 k) as [->|N]; simpl.
    + rewrite String.eqb_refl. reflexivity.
    + destruct (String.eqb_spec k k0); [congruence | exact IH].
Qed.

Lemma params_get_set_other (k k' v : string) (p : Params) :
  k' <> k -> params_get k' (params_set k v p) = params_get k' p.
Proof.
  intros N. unfold params_get. induction p as [|[k0 v0] p IH]; simpl.
  - destruct (String.eqb_spec k' k); [contradiction | reflexivity].
  - destruct (String.eqb_spec k0 k) as [->|N0]; simpl.
    + destruct (String.eqb_spec k' k); [contradiction|].
      apply lookup_params_delete. exact N.
    + destruct (k' =? k0); [reflexivity | exact IH].
Qed.

Lemma keys_params_delete (k x : string) (p : Params) :
  In x (keys (params_delete k p)) <-> In x (keys p) /\ x <> k.
Proof.
  unfold keys, params_delete. rewrite !in_map_iff. split.
  - intros [[k0 v0] [<- I]]. apply filter_In in I. destruct I as [I T].
    simpl in *. split.
    + exists (k0, v0). auto.
    + intros ->. rewrite String.eqb_refl in T. discriminate T.
  - intros [[[k0 v0] [<- I]] N]. exists (k0, v0). split; [reflexivity|].
    apply filter_In. split; [exact I|]. simpl in *.
    destruct (String.eqb_spec k0 k); [contradiction | reflexivity].
Qed.

Lemma NoDup_params_delete (k : string) (p : Params) :
  NoDup (keys p) -> NoDup (keys (params_delete k p)).
Proof.
  induction p as [|[k0 v0] p IH]; simpl; intros N; [constructor|].
  inversion N as [|? ? H N']; subst.
  destruct (k0 =? k); simpl; [exact (IH N')|].
  constructor; [|exact (IH N')].
  intros I. apply keys_params_delete in I. destruct I as [I _]. contradiction.
Qed.

Lemma keys_params_set (k v x : string) (p : Params) :
  In x (keys (params_set k v p)) -> x = k \/ In x (keys p).
Proof.
  induction p as [|[k0 v0] p IH]; simpl.
  - intros [<-|[]]. auto.
  - destruct (String.eqb_spec k0 k) as [->|N]; simpl.
    + intros [<-|I]; [auto|]. apply keys_params_delete in I. tauto.
    + intros [<-|I]; [auto|]. destruct (IH I); auto.
Qed.

Lemma NoDup_params_set (k v : string) (p : Params) :
  NoDup (keys p) -> NoDup (keys (params_set k v p)).
Proof.
  induction p as [|[k0 v0] p IH]; simpl; intros N.
  - constructor; [intros [] | constructor].
  - inversion N as [|? ? H N']; subst.
    destruct (String.eqb_spec k0 k) as [->|Ne]; simpl.
    + constructor; [|apply NoDup_params_delete; exact N'].
      intros I. apply keys_params_delete in I. destruct I as [_ I]. congruence.
    + constructor; [|exact (IH N')].
      intros I. apply keys_params_set in I. destruct I as [I|I]; congruence.
Qed.

Lemma lookup_app {A : Type} (k : string) (l1 l2 : list (string * A)) :
  lookup k (l1 ++ l2)
  = match lookup k l1 with Some v => Some v | None => lookup k l2 end.
Proof.
  induction l1 as [|[k0 v0] l1 IH]; simpl; [reflexivity|].
  destruct (k =? k0); [reflexivity | exact IH].
Qed.

(** Copying keeps the names distinct; a name that is not skipped gets the
    last value it has among the copied pairs. *)
Lemma copyParams_get (skip : list string) (params target : Params) (k : string) :
  params_get k (copyParams skip params target)
  = if Dashboard.includes k skip then params_get k target
    else match lastValue k params with
         | Some v => Some v
         | None => params_get k target
         end.
Proof.
  unfold copyParams, lastValue. revert target.
  induction params as [|[k0 v0] params IH]; intros target; simpl.
  - destruct (Dashboard.includes k skip); reflexivity.
  - rewrite IH, lookup_app. simpl.
    destruct (Dashboard.includes k skip) eqn:S.
    + destruct (Dashboard.includes k0 skip) eqn:S0; [reflexivity|].
      apply params_get_set_other. intros ->. rewrite S in S0. discriminate S0.
    + destruct (lookup k (rev params)); [reflexivity|].
      destruct (String.eqb_spec k k0) as [->|N].
      * rewrite S. apply params_get_set_same.
      * destruct (Dashboard.includes k0 skip); [reflexivity|].
        apply params_get_set_other. exact N.
Qed.

Lemma copyParams_NoDup (skip : list string) (params target : Params) :
  NoDup (keys target) -> NoDup (keys (copyParams skip params target)).
Proof.
  unfold copyParams. revert target.
  induction params as [|[k0 v0] params IH]; intros target N; simpl; [exact N|].
  apply IH. destruct (Dashboard.includes k0 skip); [exact N|].
  apply NoDup_params_set. exact N.
Qed.

Lemma lookup_assign_same (k v : string) (obj : Headers) :
  lookup k (assign k v obj) = Some v.
Proof.
  induction obj as [|[k0 v0] obj IH]; simpl.
  - rewrite String.eqb_refl. reflexivity.
  - destruct (String.eqb_spec k k0) as [->|N]; simpl.
    + rewrite String.eqb_refl. reflexivity.
    + destruct (String.eqb_spec k k0); [contradiction | exact IH].
Qed.

Lemma lookup_assign_other (k k' v : string) (obj : Headers) :
  k' <> k -> lookup k' (assign k v obj) = lookup k' obj.
Proof.
  intros N. induction obj as [|[k0 v0] obj IH]; simpl.
  - destruct (String.eqb_spec k' k); [contradiction | reflexivity].
  - destruct (String.eqb_spec k k0) as [->|N0]; simpl.
    + destruct (String.eqb_spec k' k0); [contradiction | reflexivity].
    + destruct (k' =? k0); [reflexivity | exact IH].
Qed.

(** Spreading headers whose names are distinct puts each of them in the
    result. *)
Lemma spread_lookup (obj extra : Headers) (k v : string) :
  NoDup (keys extra) -> In (k, v) extra -> lookup k (spread obj extra) = Some v.
Proof.
  unfold spread. revert obj.
  induction extra as [|[k0 v0] extra IH]; intros obj N I; [destruct I|].
  simpl in N. inversion N as [|? ? H N']; subst. simpl.
  destruct I as [E|I].
  - injection E as -> ->.
    assert (K : forall obj', lookup k obj' = Some v ->
                lookup k (fold_left (fun obj kv => assign (fst kv) (snd kv) obj)
                                    extra obj') = Some v).
    { clear IH N N'. induction extra as [|[k1 v1] extra IHe]; intros obj' L; simpl;
        [exact L|].
      apply IHe.
      - intros I. apply H. right. exact I.
      - rewrite lookup_assign_other; [exact L|].
        intros ->. apply H. left. reflexivity. }
    apply K. apply lookup_assign_same.
  - apply IH; assumption.
Qed.

End ProxyLemmas.

Lemma corsHeaders_NoDup (trim : string -> string)
      (request : Worker.Request) (env : Worker.Env) :
  NoDup (keys (Worker.corsHeaders trim request env)).
Proof.
  unfold Worker.corsHeaders. simpl.
  repeat (constructor; [simpl; intuition discriminate|]). constructor.
Qed.

(** The set built from the entries starts with the first entry. *)
Lemma fold_set_add_first (l : list string) (first : string) (set : list string) :
  exists rest,
    fold_left (fun set s => set_add s set) l (first :: set) = first :: rest.
Proof.
  revert set. induction l as [|x l IH]; intros set; simpl.
  - exists set. reflexivity.
  - unfold set_add at 2. destruct (Dashboard.includes x (first :: set)); apply IH.
Qed.

Lemma firstOr_allowlist (trim : string -> string) (allow : string) :
  Worker.firstOr (Worker.allowlist trim allow) "null"
  = match filter truthy (map trim (Worker.split "," allow)) with
    | first :: _ => first
    | [] => "null"
    end.
Proof.
  unfold Worker.allowlist.
  destruct (filter truthy (map trim (Worker.split "," allow))) as [|first rest] eqn:E;
    [reflexivity|].
  assert (T : truthy first = true).
  { assert (I : In first (filter truthy (map trim (Worker.split "," allow))))
      by (rewrite E; left; reflexivity).
    apply filter_In in I. tauto. }
  simpl. unfold set_add at 2. simpl.
  destruct (fold_set_add_first rest first []) as [tail ->].
  simpl. rewrite T. reflexivity.
Qed.

(** X16: for a [trim] that leaves [*] as it is, the origin [corsHeaders]
    allows is [*] when no allowlist is set, or it is empty, or it trims to
    [*]; with an allowlist, it is the origin of the request when the list
    has it, and otherwise the first entry of the list, or [null] for a
    list without entries. *)
Theorem corsHeaders_allowed_origin (trim : string -> string)
        (request : Worker.Request) (env : Worker.Env) :
  trim "*" = "*" ->
  let origin := Worker.orDefault (Worker.originHeader request) "*" in
  let allow := trim (Worker.orDefault (Worker.ALLOWED_ORIGINS env) "*") in
  let entries := filter truthy (map trim (Worker.split "," allow)) in
  exists allowed,
    lookup "Access-Control-Allow-Origin" (Worker.corsHeaders trim request env)
      = Some allowed
    /\ (present (Worker.ALLOWED_ORIGINS env) = false -> allowed = "*")
    /\ (allow = "*" -> allowed = "*")
    /\ (allow <> "*" -> In origin entries -> allowed = origin)
    /\ (allow <> "*" -> ~ In origin entries ->
        allowed = match entries with first :: _ => first | [] => "null" end).
Proof.
  intros Star. cbv zeta. unfold Worker.corsHeaders.
  cbn [lookup String.eqb Ascii.eqb Bool.eqb].
  eexists. split; [reflexivity|].
  assert (U : present (Worker.ALLOWED_ORIGINS env) = false ->
              trim (Worker.orDefault (Worker.ALLOWED_ORIGINS env) "*") = "*").
  { intros P. unfold Worker.orDefault.
    destruct (Worker.ALLOWED_ORIGINS env) as [a|]; [|exact Star].
    simpl in P. rewrite P. exact Star. }
  set (allow := trim (Worker.orDefault (Worker.ALLOWED_ORIGINS env) "*")) in *.
  set (origin := Worker.orDefault (Worker.originHeader request) "*").
  destruct (String.eqb_spec allow "*") as [E|E]; cbn [negb].
  - split; [reflexivity|]. split; [reflexivity|]. split; contradiction.
  - split; [intros P; contradiction (E (U P))|]. split; [contradiction|].
    assert (M : Dashboard.includes origin (Worker.allowlist trim allow) = true
                <-> In origin (filter truthy (map trim (Worker.split "," allow)))).
    { rewrite includes_In. unfold Worker.allowlist. rewrite fold_set_add_In.
      simpl. tauto. }
    destruct (Dashboard.includes origin (Worker.allowlist trim allow)) eqn:I.
    + split; [reflexivity|]. intros _ N. contradiction N. apply M. reflexivity.
    + split.
      * intros _ H. apply M in H. discriminate H.
      * intros _ _. apply firstOr_allowlist.
Qed.

Lemma corsHeaders_allowed_origin_witness :
  let request :=
    {| Worker.method := "GET"; Worker.pathname := "/usajobs";
       Worker.searchParams := [];
       Worker.originHeader := Some "https://evil.example" |} in
  let bindings (allow : option string) :=
    {| Worker.USAJOBS_EMAIL := None; Worker.USAJOBS_API_KEY := None;
       Worker.ADZUNA_APP_ID := None; Worker.ADZUNA_APP_KEY := None;
       Worker.ALLOWED_ORIGINS := allow |} in
  (exists allowed,
     lookup "Access-Control-Allow-Origin"
       (Worker.corsHeaders (fun s => s) request
          (bindings (Some "https://b.example,https://a.example")))
     = Some allowed
     /\ allowed = "https://b.example")
  /\ (exists allowed,
        lookup "Access-Control-Allow-Origin"
          (Worker.corsHeaders (fun s => s) request (bindings (Some "")))
        = Some allowed
        /\ allowed = "*").
Proof.
  cbv zeta. split.
  - destruct (corsHeaders_allowed_origin (fun s => s)
                {| Worker.method := "GET"; Worker.pathname := "/usajobs";
                   Worker.searchParams := [];
                   Worker.originHeader := Some "https://evil.example" |}
                {| Worker.USAJOBS_EMAIL := None; Worker.USAJOBS_API_KEY := None;
                   Worker.ADZUNA_APP_ID := None; Worker.ADZUNA_APP_KEY := None;
                   Worker.ALLOWED_ORIGINS := Some "https://b.example,https://a.example" |}
                eq_refl)
      as [allowed [L [_ [_ [_ R]]]]].
    exists allowed. split; [exact L|].
    apply R; [discriminate|]. intros [H|[H|[]]]; discriminate H.
  - destruct (corsHeaders_allowed_origin (fun s => s)
                {| Worker.method := "GET"; Worker.pathname := "/usajobs";
                   Worker.searchParams := [];
                   Worker.originHeader := Some "https://evil.example" |}
                {| Worker.USAJOBS_EMAIL := None; Worker.USAJOBS_API_KEY := None;
                   Worker.ADZUNA_APP_ID := None; Worker.ADZUNA_APP_KEY := None;
                   Worker.ALLOWED_ORIGINS := Some "" |}
                eq_refl)
      as [allowed [L [U _]]].
    exists allowed. split; [exact L|]. apply U. reflexivity.
Defined.

Example corsHeaders_not_listed :
  lookup "Access-Control-Allow-Origin"
    (Worker.corsHeaders (fun s => s)
       {| Worker.method := "GET"; Worker.pathname := "/usajobs";
          Worker.searchParams := [];
          Worker.originHeader := Some "https://evil.example" |}
       {| Worker.USAJOBS_EMAIL := None; Worker.USAJOBS_API_KEY := None;
          Worker.ADZUNA_APP_ID := None; Worker.ADZUNA_APP_KEY := None;
          Worker.ALLOWED_ORIGINS := Some "https://a.example,,https://b.example" |})
  = Some "https://a.example".
Proof. reflexivity. Qed.

(** X17: without both USAJOBS bindings, [handleUSAJOBS] replies 400 and
    sends nothing on. With them, it sends on a query in which every name
    of the client's query occurs once, with the last value the client gave
    it, and no other name; the credentials travel in the headers. *)
Theorem handleUSAJOBS_outcome (request : Worker.Request) (env : Worker.Env)
        (cors : Worker.Headers) :
  (present (Worker.USAJOBS_EMAIL env) && present (Worker.USAJOBS_API_KEY env) = false ->
   Worker.handleUSAJOBS request env cors
   = Worker.Reply
       (Worker.json
          (Worker.Failure "Missing USAJOBS_EMAIL or USAJOBS_API_KEY environment variables.")
          400 cors))
  /\ (present (Worker.USAJOBS_EMAIL env) && present (Worker.USAJOBS_API_KEY env) = true ->
      exists sent,
        Worker.handleUSAJOBS request env cors
          = Worker.Forward sent (Worker.passThrough cors)
        /\ Worker.target sent = "https://data.usajobs.gov/api/search"
        /\ NoDup (keys (Worker.query sent))
        /\ (forall k, params_get k (Worker.query sent)
                      = Worker.lastValue k (Worker.searchParams request))
        /\ lookup "User-Agent" (Worker.fetchHeaders sent) = Worker.USAJOBS_EMAIL env
        /\ lookup "Authorization-Key" (Worker.fetchHeaders sent)
           = Worker.USAJOBS_API_KEY env).
Proof.
  unfold Worker.handleUSAJOBS.
  destruct (Worker.USAJOBS_EMAIL env) as [email|];
    destruct (Worker.USAJOBS_API_KEY env) as [key|]; simpl;
    try (split; [reflexivity | discriminate]).
  - destruct (truthy email), (truthy key); simpl;
      try (split; [reflexivity | discriminate]).
    split; [discriminate|]. intros _. eexists. split; [reflexivity|].
    cbn [Worker.target Worker.query Worker.fetchHeaders].
    split; [reflexivity|]. split; [apply copyParams_NoDup; constructor|].
    split; [|split; reflexivity].
    intros k. rewrite copyParams_get. simpl.
    destruct (Worker.lastValue k (Worker.searchParams request)); reflexivity.
  - destruct (truthy email); simpl; split; try reflexivity; discriminate.
Qed.

Lemma handleUSAJOBS_outcome_witness :
  exists sent,
    Worker.handleUSAJOBS
      {| Worker.method := "GET"; Worker.pathname := "/usajobs";
         Worker.searchParams := [("Keyword", "ai"); ("Page", "1"); ("Keyword", "llm")];
         Worker.originHeader := None |}
      {| Worker.USAJOBS_EMAIL := Some "me@example.org";
         Worker.USAJOBS_API_KEY := Some "secret";
         Worker.ADZUNA_APP_ID := None; Worker.ADZUNA_APP_KEY := None;
         Worker.ALLOWED_ORIGINS := None |} []
      = Worker.Forward sent (Worker.passThrough [])
    /\ Worker.target sent = "https://data.usajobs.gov/api/search"
    /\ NoDup (keys (Worker.query sent))
    /\ (forall k, params_get k (Worker.query sent)
                  = Worker.lastValue k [("Keyword", "ai"); ("Page", "1"); ("Keyword", "llm")])
    /\ lookup "User-Agent" (Worker.fetchHeaders sent) = Some "me@example.org"
    /\ lookup "Authorization-Key" (Worker.fetchHeaders sent) = Some "secret".
Proof.
  apply (proj2 (handleUSAJOBS_outcome
                  {| Worker.method := "GET"; Worker.pathname := "/usajobs";
                     Worker.searchParams :=
                       [("Keyword", "ai"); ("Page", "1"); ("Keyword", "llm")];
                     Worker.originHeader := None |}
                  {| Worker.USAJOBS_EMAIL := Some "me@example.org";
                     Worker.USAJOBS_API_KEY := Some "secret";
                     Worker.ADZUNA_APP_ID := None; Worker.ADZUNA_APP_KEY := None;
                     Worker.ALLOWED_ORIGINS := None |} [])).
  reflexivity.
Defined.

Example handleUSAJOBS_query :
  Worker.copyParams [] [("Keyword", "ai"); ("Page", "1"); ("Keyword", "llm")] []
  = [("Keyword", "llm"); ("Page", "1")].
Proof. reflexivity. Qed.

Lemma append_empty_r (s : string) : (s ++ "")%string = s.
Proof. induction s as [|c s IH]; simpl; [reflexivity | rewrite IH; reflexivity]. Qed.

(** [encodeURIComponent] writes a dot as a dot and nothing else as one,
    so an encoded component is a dot segment only for [.] and [..]. *)
Lemma afterDot_encodeURIComponent (c : ascii) (rest : string) :
  Worker.afterDot (Query.encodeURIComponent (String c rest))
  = if Ascii.eqb c "." then Some (Query.encodeURIComponent rest) else None.
Proof.
  destruct c as [[] [] [] [] [] [] [] []]; reflexivity.
Qed.

Lemma encodeURIComponent_empty (s : string) :
  (Query.encodeURIComponent s =? "") = (s =? "").
Proof.
  destruct s as [|c s]; [reflexivity|].
  cbn [Query.encodeURIComponent]. destruct (Query.uriUnreserved c); reflexivity.
Qed.

Lemma singleDot_encodeURIComponent (s : string) :
  Worker.singleDot (Query.encodeURIComponent s) = (s =? ".").
Proof.
  unfold Worker.singleDot. destruct s as [|c s]; [reflexivity|].
  rewrite afterDot_encodeURIComponent.
  change (String c s =? ".") with (Ascii.eqb c "." && (s =? "")).
  destruct (Ascii.eqb c "."); [apply encodeURIComponent_empty | reflexivity].
Qed.

Lemma doubleDot_encodeURIComponent (s : string) :
  Worker.doubleDot (Query.encodeURIComponent s) = (s =? "..").
Proof.
  unfold Worker.doubleDot. destruct s as [|c s]; [reflexivity|].
  rewrite afterDot_encodeURIComponent.
  change (String c s =? "..") with (Ascii.eqb c "." && (s =? ".")).
  destruct (Ascii.eqb c "."); [apply singleDot_encodeURIComponent | reflexivity].
Qed.

(** X18: with both Adzuna bindings, [handleAdzuna] sends on a query of
    distinct names in which [what] and [results_per_page] are the first
    value the client gave (or the empty string, or 50), [page] and
    [country] do not occur, every other name of the client has its last
    value, and [app_id] and [app_key] are the bindings unless the client's
    query names them, in which case the client's last value is sent. The
    encoded [country] and [page] (us and 1 by default) are segments of the
    path, which is resolved as [new URL] does: when neither is a dot
    segment the address is [.../v1/api/jobs/country/search/page]. *)
Theorem handleAdzuna_outcome (encodeURIComponent : string -> string)
        (request : Worker.Request) (env : Worker.Env) (cors : Worker.Headers) :
  present (Worker.ADZUNA_APP_ID env) && present (Worker.ADZUNA_APP_KEY env) = true ->
  let u := Worker.searchParams request in
  let country := encodeURIComponent (Worker.orDefault (params_get "country" u) "us") in
  let page := encodeURIComponent (Worker.orDefault (params_get "page" u) "1") in
  exists sent,
    Worker.handleAdzuna encodeURIComponent request env cors
      = Worker.Forward sent (Worker.passThrough cors)
    /\ Worker.target sent
       = ("https://api.adzuna.com"
          ++ Worker.pathText
               (Worker.resolvePath [] ["v1"; "api"; "jobs"; country; "search"; page]))%string
    /\ (Worker.dotSegment country = false -> Worker.dotSegment page = false ->
        Worker.target sent
        = ("https://api.adzuna.com/v1/api/jobs/" ++ country ++ "/search/" ++ page)%string)
    /\ NoDup (keys (Worker.query sent))
    /\ params_get "what" (Worker.query sent)
       = Some (Worker.orDefault (params_get "what" u) "")
    /\ params_get "results_per_page" (Worker.query sent)
       = Some (Worker.orDefault (params_get "results_per_page" u) "50")
    /\ params_get "page" (Worker.query sent) = None
    /\ params_get "country" (Worker.query sent) = None
    /\ params_get "app_id" (Worker.query sent)
       = match Worker.lastValue "app_id" u with
         | Some v => Some v
         | None => Worker.ADZUNA_APP_ID env
         end
    /\ params_get "app_key" (Worker.query sent)
       = match Worker.lastValue "app_key" u with
         | Some v => Some v
         | None => Worker.ADZUNA_APP_KEY env
         end
    /\ (forall k,
          ~ In k ["what"; "page"; "results_per_page"; "country"; "app_id"; "app_key"] ->
          params_get k (Worker.query sent) = Worker.lastValue k u).
Proof.
  intros P. cbv zeta. unfold Worker.handleAdzuna.
  destruct (Worker.ADZUNA_APP_ID env) as [id|]; [|discriminate P].
  destruct (Worker.ADZUNA_APP_KEY env) as [key|];
    [|rewrite andb_false_r in P; discriminate P].
  apply andb_true_iff in P. destruct P as [P1 P2]. rewrite P1, P2.
  cbn [negb orb orElse]. eexists. split; [reflexivity|].
  cbn [Worker.target Worker.query].
  split; [reflexivity|].
  split.
  { unfold Worker.dotSegment. intros C G.
    apply orb_false_iff in C. destruct C as [C1 C2].
    apply orb_false_iff in G. destruct G as [G1 G2].
    change (Worker.resolvePath [] ?l)
      with (Worker.resolvePath ["v1"; "api"; "jobs"]
              [encodeURIComponent
                 (Worker.orDefault (params_get "country" (Worker.searchParams request)) "us");
               "search";
               encodeURIComponent
                 (Worker.orDefault (params_get "page" (Worker.searchParams request)) "1")]).
    cbn [Worker.resolvePath]. rewrite C1, C2.
    change (Worker.doubleDot "search") with false.
    change (Worker.singleDot "search") with false.
    cbv iota. rewrite G1, G2. cbn [app Worker.pathText fold_right].
    rewrite append_empty_r. reflexivity. }
  split; [apply copyParams_NoDup; repeat apply NoDup_params_set; constructor|].
  split; [rewrite copyParams_get; reflexivity|].
  split; [rewrite copyParams_get; reflexivity|].
  split; [rewrite copyParams_get; reflexivity|].
  split; [rewrite copyParams_get; reflexivity|].
  split; [|split].
  - rewrite copyParams_get.
    cbn [Dashboard.includes existsb String.eqb Ascii.eqb Bool.eqb orb].
    destruct (Worker.lastValue "app_id" (Worker.searchParams request)); reflexivity.
  - rewrite copyParams_get.
    cbn [Dashboard.includes existsb String.eqb Ascii.eqb Bool.eqb orb].
    destruct (Worker.lastValue "app_key" (Worker.searchParams request)); reflexivity.
  - intros k N. rewrite copyParams_get.
    assert (S : Dashboard.includes k ["what"; "page"; "results_per_page"; "country"] = false).
    { destruct (Dashboard.includes k ["what"; "page"; "results_per_page"; "country"]) eqn:E;
        [|reflexivity].
      exfalso. apply N. apply includes_In in E. simpl in *. tauto. }
    rewrite S.
    destruct (Worker.lastValue k (Worker.searchParams request)); [reflexivity|].
    rewrite !params_get_set_other; [reflexivity| | | |];
      intros ->; apply N; simpl; tauto.
Qed.

Lemma handleAdzuna_outcome_witness :
  exists sent,
    Worker.handleAdzuna Query.encodeURIComponent
      {| Worker.method := "GET"; Worker.pathname := "/adzuna";
         Worker.searchParams := [("what", "ai"); ("app_id", "mine"); ("where", "ohio");
                                 ("country", "g/b")];
         Worker.originHeader := None |}
      {| Worker.USAJOBS_EMAIL := None; Worker.USAJOBS_API_KEY := None;
         Worker.ADZUNA_APP_ID := Some "id"; Worker.ADZUNA_APP_KEY := Some "key";
         Worker.ALLOWED_ORIGINS := None |} []
    = Worker.Forward sent (Worker.passThrough [])
    /\ Worker.target sent = "https://api.adzuna.com/v1/api/jobs/g%2Fb/search/1"
    /\ params_get "app_id" (Worker.query sent) = Some "mine"
    /\ params_get "app_key" (Worker.query sent) = Some "key".
Proof.
  destruct (handleAdzuna_outcome Query.encodeURIComponent
              {| Worker.method := "GET"; Worker.pathname := "/adzuna";
                 Worker.searchParams :=
                   [("what", "ai"); ("app_id", "mine"); ("where", "ohio");
                    ("country", "g/b")];
                 Worker.originHeader := None |}
              {| Worker.USAJOBS_EMAIL := None; Worker.USAJOBS_API_KEY := None;
                 Worker.ADZUNA_APP_ID := Some "id"; Worker.ADZUNA_APP_KEY := Some "key";
                 Worker.ALLOWED_ORIGINS := None |} [] eq_refl)
    as [sent [E [_ [T [_ [_ [_ [_ [_ [I [K _]]]]]]]]]]].
  exists sent. split; [exact E|]. split; [|split; [exact I | exact K]].
  apply T; reflexivity.
Defined.

Example handleAdzuna_query :
  Worker.handleAdzuna Query.encodeURIComponent
    {| Worker.method := "GET"; Worker.pathname := "/adzuna";
       Worker.searchParams := [("what", "ai"); ("app_id", "mine"); ("where", "ohio");
                               ("country", "gb")];
       Worker.originHeader := None |}
    {| Worker.USAJOBS_EMAIL := None; Worker.USAJOBS_API_KEY := None;
       Worker.ADZUNA_APP_ID := Some "id"; Worker.ADZUNA_APP_KEY := Some "key";
       Worker.ALLOWED_ORIGINS := None |} []
  = Worker.Forward
      {| Worker.target := "https://api.adzuna.com/v1/api/jobs/gb/search/1";
         Worker.query := [("app_id", "mine"); ("app_key", "key"); ("what", "ai");
                          ("results_per_page", "50"); ("where", "ohio")];
         Worker.fetchHeaders := [("Accept", "application/json")] |}
      [("Content-Type", "application/json; charset=utf-8")].
Proof. reflexivity. Qed.

(** A country or a page that is a dot segment changes the path: the
    request goes to another address of the service. *)
Example handleAdzuna_dot_segments :
  let sentFor (u : Params) :=
    match Worker.handleAdzuna Query.encodeURIComponent
            {| Worker.method := "GET"; Worker.pathname := "/adzuna";
               Worker.searchParams := u; Worker.originHeader := None |}
            {| Worker.USAJOBS_EMAIL := None; Worker.USAJOBS_API_KEY := None;
               Worker.ADZUNA_APP_ID := Some "id"; Worker.ADZUNA_APP_KEY := Some "key";
               Worker.ALLOWED_ORIGINS := None |} [] with
    | Worker.Forward sent _ => Worker.target sent
    | Worker.Reply _ => ""
    end in
  sentFor [("country", ".."); ("page", "7")] = "https://api.adzuna.com/v1/api/search/7"
  /\ sentFor [("country", "."); ("page", "7")] = "https://api.adzuna.com/v1/api/jobs/search/7"
  /\ sentFor [("country", "gb"); ("page", "..")] = "https://api.adzuna.com/v1/api/jobs/gb/"
  /\ sentFor [("country", "gb"); ("page", ".")]
     = "https://api.adzuna.com/v1/api/jobs/gb/search/".
Proof. vm_compute. repeat split; reflexivity. Qed.

(** X19: whatever the request, the reply the worker gives without
    contacting an upstream service, or the headers under which it passes an
    upstream answer on, carry the five headers of [corsHeaders]; such a
    reply has status 204, 200, 400 or 404; a request of method [OPTIONS] is
    answered 204 without body whatever its path, and a request is only sent
    on for the paths [/usajobs] and [/adzuna]. *)
Theorem fetch_outcome (trim encodeURIComponent : string -> string) (now : string)
        (request : Worker.Request) (env : Worker.Env) :
  let cors := Worker.corsHeaders trim request env in
  match Worker.fetch trim encodeURIComponent now request env with
  | Worker.Reply response =>
      (forall k v, In (k, v) cors -> lookup k (Worker.headers response) = Some v)
      /\ In (Worker.status response) [204; 200; 400; 404]%nat
      /\ (Worker.method request = "OPTIONS" ->
          Worker.status response = 204%nat /\ Worker.body response = Worker.NoBody)
  | Worker.Forward sent pass =>
      (forall k v, In (k, v) cors -> lookup k pass = Some v)
      /\ Worker.method request <> "OPTIONS"
      /\ (Worker.pathname request = "/usajobs" \/ Worker.pathname request = "/adzuna")
  end.
Proof.
  cbv zeta. unfold Worker.fetch.
  set (cors := Worker.corsHeaders trim request env).
  assert (N : NoDup (keys cors)) by apply corsHeaders_NoDup.
  assert (S : forall base k v, In (k, v) cors ->
                lookup k (Worker.spread base cors) = Some v)
    by (intros base k v I; apply spread_lookup; assumption).
  assert (D : forall k v, In (k, v) cors -> lookup k cors = Some v)
    by (intros k v I; apply lookup_entry; assumption).
  destruct (String.eqb_spec (Worker.method request) "OPTIONS") as [M|M].
  { simpl. split; [exact D|]. split; [left; reflexivity|]. auto. }
  destruct (String.eqb_spec (Worker.pathname request) "/") as [P1|P1];
    [|destruct (String.eqb_spec (Worker.pathname request) "/health") as [P2|P2]];
    cbn [orb].
  1,2: split; [apply S|]; split; [right; left; reflexivity | contradiction].
  destruct (String.eqb_spec (Worker.pathname request) "/usajobs") as [P3|P3].
  { unfold Worker.handleUSAJOBS.
    destruct (negb (present (Worker.USAJOBS_EMAIL env))
              || negb (present (Worker.USAJOBS_API_KEY env))).
    - split; [apply S|]. split; [right; right; left; reflexivity | contradiction].
    - split; [apply S|]. auto. }
  destruct (String.eqb_spec (Worker.pathname request) "/adzuna") as [P4|P4].
  { unfold Worker.handleAdzuna.
    destruct (negb (present (Worker.ADZUNA_APP_ID env))
              || negb (present (Worker.ADZUNA_APP_KEY env))).
    - split; [apply S|]. split; [right; right; left; reflexivity | contradiction].
    - split; [apply S|]. auto. }
  split; [apply S|]. split; [simpl; tauto | contradiction].
Qed.

(** ** The job-family explorer *)

Section ExplorerLemmas.

Import Executive.

Variable jobFamilies : JobFamilies.

Lemma family_buttonsAt (index selected : nat) (families : list string) :
  map family (buttonsAt index selected families) = families.
Proof.
  revert index. induction families as [|f fs IH]; intros index; simpl;
    [reflexivity | rewrite IH; reflexivity].
Qed.

Lemma family_createButtons (index : nat) (families : list string) :
  map family (createButtons index families) = families.
Proof.
  revert index. induction families as [|f fs IH]; intros index; simpl;
    [reflexivity | rewrite IH; reflexivity].
Qed.

Lemma setSelectedButton_none (name : string) (bs : list Button)
      (index selected : nat) :
  ~ In name (map family bs) -> (selected < index)%nat ->
  setSelectedButton name bs = buttonsAt index selected (map family bs).
Proof.
  revert index. induction bs as [|b bs IH]; intros index N L; simpl; [reflexivity|].
  simpl in N.
  destruct (String.eqb_spec (family b) name) as [E|E]; [tauto|].
  destruct (Nat.eqb_spec index selected); [lia|].
  f_equal. apply IH; [tauto | lia].
Qed.

(** Selecting the family at position [i] of distinct families selects the
    button at position [i] and no other. *)
Lemma setSelectedButton_at (name : string) (bs : list Button) (index i : nat) :
  NoDup (map family bs) ->
  nth_error (map family bs) i = Some name ->
  setSelectedButton name bs = buttonsAt index (index + i) (map family bs).
Proof.
  revert index i. induction bs as [|b bs IH]; intros index i N H; simpl.
  - destruct i; discriminate H.
  - simpl in N. inversion N as [|? ? Nh Nt]; subst. destruct i as [|i]; simpl in H.
    + injection H as <-. rewrite String.eqb_refl, Nat.add_0_r, Nat.eqb_refl.
      f_equal. apply setSelectedButton_none; [exact Nh | lia].
    + assert (I : In name (map family bs)) by exact (nth_error_In _ _ H).
      destruct (String.eqb_spec (family b) name) as [E|E]; [congruence|].
      destruct (Nat.eqb_spec index (index + S i)); [lia|].
      f_equal. rewrite (IH (S index) i Nt H). f_equal. lia.
Qed.

Lemma findIndex_buttonsAt (index selected : nat) (families : list string) :
  (index <= selected < index + List.length families)%nat ->
  findIndex ariaSelected (buttonsAt index selected families) = Some (selected - index)%nat.
Proof.
  revert index. induction families as [|f fs IH]; intros index L; simpl in *; [lia|].
  destruct (Nat.eqb_spec index selected) as [->|N].
  - rewrite Nat.sub_diag. reflexivity.
  - rewrite IH by lia. simpl. f_equal. lia.
Qed.

Lemma nth_error_buttonsAt (index selected n : nat) (families : list string) :
  option_map family (nth_error (buttonsAt index selected families) n)
  = nth_error families n.
Proof.
  rewrite <- (family_buttonsAt index selected families) at 2.
  symmetry. apply nth_error_map.
Qed.

Lemma showFamily_showing (v : View) (i : nat) (name : string) :
  NoDup (keys jobFamilies) ->
  map family (buttons v) = keys jobFamilies ->
  nth_error (keys jobFamilies) i = Some name ->
  showing jobFamilies i (showFamily jobFamilies name v).
Proof.
  intros N F H. exists name. split; [exact H|]. split; [|split; reflexivity].
  cbn [buttons showFamily]. rewrite <- F in N, H.
  rewrite (setSelectedButton_at name (buttons v) 0 i N H), F. reflexivity.
Qed.

Lemma showing_families (v : View) (i : nat) :
  showing jobFamilies i v ->
  map family (buttons v) = keys jobFamilies /\ (i < List.length (keys jobFamilies))%nat.
Proof.
  intros [name [H [B _]]]. split.
  - rewrite B. apply family_buttonsAt.
  - apply nth_error_Some. rewrite H. discriminate.
Qed.

Lemma onKeyNav_showing (v : View) (i : nat) (key : Key) :
  NoDup (keys jobFamilies) ->
  showing jobFamilies i v ->
  let next :=
    match key with
    | ArrowRight => Nat.min (List.length (keys jobFamilies) - 1) (i + 1)
    | ArrowLeft => (i - 1)%nat
    | OtherKey => i
    end in
  showing jobFamilies next (onKeyNav jobFamilies key v)
  /\ (next = i -> onKeyNav jobFamilies key v = v).
Proof.
  intros N S. destruct (showing_families v i S) as [F L].
  destruct S as [name [H [B R]]]. cbv zeta.
  set (next := match key with
               | ArrowRight => Nat.min (List.length (keys jobFamilies) - 1) (i + 1)
               | ArrowLeft => (i - 1)%nat
               | OtherKey => i
               end).
  assert (Len : List.length (buttons v) = List.length (keys jobFamilies))
    by (rewrite <- F; symmetry; apply length_map).
  assert (EQ : onKeyNav jobFamilies key v
               = if negb (next =? i)%nat then
                   match nth_error (buttons v) next with
                   | Some btn =>
                       showFamily jobFamilies (family btn)
                         {| buttons := buttons v; title := title v;
                            skillItems := skillItems v; focused := Some next |}
                   | None => v
                   end
                 else v).
  { unfold onKeyNav.
    assert (FI : findIndex ariaSelected (buttons v) = Some i).
    { rewrite B, findIndex_buttonsAt by lia. rewrite Nat.sub_0_r. reflexivity. }
    rewrite FI, Len. subst next. destruct key; reflexivity. }
  rewrite EQ.
  destruct (Nat.eqb_spec next i) as [Q|Q]; simpl.
  - rewrite Q. split; [|reflexivity]. exists name. auto.
  - split; [|contradiction].
    assert (Ln : (next < List.length (keys jobFamilies))%nat)
      by (subst next; destruct key; lia).
    destruct (nth_error (keys jobFamilies) next) as [nextName|] eqn:Hn;
      [|apply nth_error_None in Hn; lia].
    assert (Hb := nth_error_buttonsAt 0 i next (keys jobFamilies)).
    rewrite <- B, Hn in Hb.
    destruct (nth_error (buttons v) next) as [btn|]; [|discriminate Hb].
    simpl in Hb. injection Hb as ->.
    apply showFamily_showing; assumption.
Qed.

Lemma handle_showing (v : View) (i : nat) (e : Event) :
  NoDup (keys jobFamilies) ->
  showing jobFamilies i v ->
  exists j, showing jobFamilies j (handle jobFamilies e v).
Proof.
  intros N S. destruct e as [name|key]; simpl.
  - destruct (showing_families v i S) as [F _]. rewrite F.
    destruct (Dashboard.includes name (keys jobFamilies)) eqn:I; [|eauto].
    apply includes_In in I. apply In_nth_error in I. destruct I as [j H].
    exists j. apply showFamily_showing; assumption.
  - eexists. exact (proj1 (onKeyNav_showing v i key N S)).
Qed.

Lemma render_showing :
  NoDup (keys jobFamilies) -> jobFamilies <> [] ->
  showing jobFamilies 0 (renderJobFamilyExplorer jobFamilies).
Proof.
  intros N E. unfold renderJobFamilyExplorer.
  destruct (keys jobFamilies) as [|first rest] eqn:K.
  - destruct jobFamilies; [contradiction | discriminate K].
  - rewrite <- K in N. rewrite <- K.
    apply showFamily_showing; [exact N | | rewrite K; reflexivity].
    apply family_createButtons.
Qed.

End ExplorerLemmas.

(** X20: with distinct, existing job families, after rendering and after
    any clicks and key presses the explorer shows one family: the button of
    that family is the only one selected and the only one in the tab order,
    the title is its name and the list is its skills. *)
Theorem explorer_shows_one_family (jobFamilies : Executive.JobFamilies)
        (events : list Executive.Event) :
  NoDup (keys jobFamilies) -> jobFamilies <> [] ->
  exists selected,
    Executive.showing jobFamilies selected
      (Executive.run jobFamilies events
         (Executive.renderJobFamilyExplorer jobFamilies)).
Proof.
  intros N E. unfold Executive.run.
  assert (S := render_showing jobFamilies N E).
  revert S. generalize (Executive.renderJobFamilyExplorer jobFamilies) 0%nat.
  induction events as [|e events IH]; intros v i S; simpl.
  - exists i. exact S.
  - destruct (handle_showing jobFamilies v i e N S) as [j Sj].
    exact (IH _ _ Sj).
Qed.

Lemma explorer_shows_one_family_witness :
  exists selected,
    Executive.showing [("Nursing", ["Charting"]); ("Business", ["Forecasting"])]
      selected
      (Executive.run [("Nursing", ["Charting"]); ("Business", ["Forecasting"])]
         [Executive.KeyDown Executive.ArrowRight; Executive.Click "Nursing"]
         (Executive.renderJobFamilyExplorer
            [("Nursing", ["Charting"]); ("Business", ["Forecasting"])])).
Proof.
  apply (explorer_shows_one_family
           [("Nursing", ["Charting"]); ("Business", ["Forecasting"])]).
  - repeat constructor; simpl; intuition discriminate.
  - discriminate.
Defined.

(** X21: when the explorer shows the family at position [i], the right
    arrow shows the next family and the left arrow the previous one,
    without wrapping around: at the last (first) family the right (left)
    arrow changes nothing, and so does any other key. *)
Theorem explorer_key_navigation (jobFamilies : Executive.JobFamilies)
        (v : Executive.View) (i : nat) :
  NoDup (keys jobFamilies) ->
  Executive.showing jobFamilies i v ->
  Executive.showing jobFamilies
    (Nat.min (List.length (keys jobFamilies) - 1) (i + 1))
    (Executive.onKeyNav jobFamilies Executive.ArrowRight v)
  /\ Executive.showing jobFamilies (i - 1)
       (Executive.onKeyNav jobFamilies Executive.ArrowLeft v)
  /\ ((i + 1 = List.length (keys jobFamilies))%nat ->
      Executive.onKeyNav jobFamilies Executive.ArrowRight v = v)
  /\ (i = 0%nat -> Executive.onKeyNav jobFamilies Executive.ArrowLeft v = v)
  /\ Executive.onKeyNav jobFamilies Executive.OtherKey v = v.
Proof.
  intros N S.
  destruct (onKeyNav_showing jobFamilies v i Executive.ArrowRight N S) as [R1 R2].
  destruct (onKeyNav_showing jobFamilies v i Executive.ArrowLeft N S) as [L1 L2].
  destruct (onKeyNav_showing jobFamilies v i Executive.OtherKey N S) as [_ O2].
  cbv zeta in *.
  split; [exact R1|]. split; [exact L1|].
  split; [intros E; apply R2; lia|].
  split; [intros E; apply L2; lia|].
  apply O2. reflexivity.
Qed.

Lemma explorer_key_navigation_witness :
  Executive.showing [("Nursing", ["Charting"]); ("Business", ["Forecasting"])] 1
    (Executive.onKeyNav [("Nursing", ["Charting"]); ("Business", ["Forecasting"])]
       Executive.ArrowRight
       (Executive.renderJobFamilyExplorer
          [("Nursing", ["Charting"]); ("Business", ["Forecasting"])])).
Proof.
  refine (proj1 (explorer_key_navigation
                   [("Nursing", ["Charting"]); ("Business", ["Forecasting"])]
                   (Executive.renderJobFamilyExplorer
                      [("Nursing", ["Charting"]); ("Business", ["Forecasting"])]) 0
                   _ _)).
  - repeat constructor; simpl; intuition discriminate.
  - exists "Nursing". repeat split.
Defined.

(** ** The top family of the executive figures *)

Section TopFamily.

Import Executive.

Lemma gt_finite (x y : Q) : gt (Some x) (Some y) = true <-> (y < x)%Q.
Proof.
  unfold gt. destruct (Qle_bool x y) eqn:E; simpl.
  - apply Qle_bool_iff in E. split; [discriminate|].
    intros L. exfalso. exact (Qlt_not_le _ _ L E).
  - split; [|reflexivity]. intros _. apply Qnot_le_lt. intros L.
    apply Qle_bool_iff in L. rewrite L in E. discriminate E.
Qed.

Lemma gt_finite_false (x y : Q) : gt (Some x) (Some y) = false <-> (x <= y)%Q.
Proof.
  unfold gt. destruct (Qle_bool x y) eqn:E; simpl.
  - apply Qle_bool_iff in E. split; [auto | reflexivity].
  - split; [discriminate|]. intros L. apply Qle_bool_iff in L.
    rewrite L in E. discriminate E.
Qed.

(** The reduction keeps the first pair of greatest value. *)
Lemma best_first_maximum (l : list (string * Q)) (a : string * Q) :
  let best :=
    fold_left (fun a b => if gt (value b) (value a) then b else a)
              (map pairOf l) (pairOf a) in
  (best = pairOf a /\ forall x, In x l -> (snd x <= snd a)%Q)
  \/ exists before r after,
       l = before ++ r :: after
       /\ best = pairOf r
       /\ (snd a < snd r)%Q
       /\ (forall x, In x before -> (snd x < snd r)%Q)
       /\ (forall x, In x after -> (snd x <= snd r)%Q).
Proof.
  cbv zeta. revert a. induction l as [|x l IH]; intros a; cbn [map fold_left].
  - left. split; [reflexivity | intros x []].
  - change (value (pairOf x)) with (Some (snd x)).
    change (value (pairOf a)) with (Some (snd a)).
    destruct (gt (Some (snd x)) (Some (snd a))) eqn:G.
    + apply gt_finite in G. right.
      destruct (IH x) as [[E H]|[before [r [after [E [B [L [Hb Ha]]]]]]]].
      * exists [], x, l.
        split; [reflexivity|]. split; [exact E|]. split; [exact G|].
        split; [intros y [] | exact H].
      * exists (x :: before), r, after. subst l.
        split; [reflexivity|]. split; [exact B|].
        split; [exact (Qlt_trans _ _ _ G L)|].
        split; [|exact Ha].
        intros y [<-|I]; [exact L | exact (Hb y I)].
    + apply gt_finite_false in G.
      destruct (IH a) as [[E H]|[before [r [after [E [B [L [Hb Ha]]]]]]]].
      * left. split; [exact E|]. intros y [<-|I]; [exact G | exact (H y I)].
      * right. exists (x :: before), r, after. subst l.
        split; [reflexivity|]. split; [exact B|]. split; [exact L|].
        split; [|exact Ha].
        intros y [<-|I]; [exact (Qle_lt_trans _ _ _ G L) | exact (Hb y I)].
Qed.

Lemma skipn_nth (values : list Q) (k : nat) :
  (k < List.length values)%nat ->
  exists q, nth_error values k = Some q /\ skipn k values = q :: skipn (S k) values.
Proof.
  revert k. induction values as [|v values IH]; intros k L; simpl in L; [lia|].
  destruct k as [|k].
  - exists v. split; reflexivity.
  - destruct (IH k) as [q [H S]]; [lia|]. exists q. split; [exact H | exact S].
Qed.

Lemma makePairs_combine (labels : list string) (values : list Q) (k : nat) :
  (k + List.length labels <= List.length values)%nat ->
  makePairs k labels values = map pairOf (combine labels (skipn k values)).
Proof.
  revert k. induction labels as [|l labels IH]; intros k L; simpl in *; [reflexivity|].
  destruct (skipn_nth values k) as [q [H S]]; [lia|].
  rewrite H, S. simpl. f_equal. apply IH. lia.
Qed.

End TopFamily.

(** X22: when the family chart has labels and a value for each of them,
    the top family of the executive figures is the first label of greatest
    value: every earlier value is smaller and no later value is greater. *)
Theorem topFamily_first_maximum (labels : list string) (values : list Q) :
  labels <> [] ->
  (List.length labels <= List.length values)%nat ->
  exists l q before after,
    Executive.topFamily labels values = Some (l, Some q)
    /\ combine labels values = before ++ (l, q) :: after
    /\ (forall x, In x before -> (snd x < q)%Q)
    /\ (forall x, In x after -> (snd x <= q)%Q).
Proof.
  intros N L. unfold Executive.topFamily.
  destruct labels as [|l0 labels]; [contradiction|].
  destruct values as [|v0 values]; [simpl in L; lia|].
  cbn [List.length Nat.eqb negb andb].
  rewrite (makePairs_combine (l0 :: labels) (v0 :: values) 0) by (simpl in *; lia).
  cbn [skipn combine map fold_left].
  change (Executive.value (Executive.pairOf (l0, v0))) with (Some v0).
  assert (G : Executive.gt (Some v0) (Some v0) = false)
    by (apply gt_finite_false; apply Qle_refl).
  rewrite G.
  destruct (best_first_maximum (combine labels values) (l0, v0))
    as [[E H]|[before [[l q] [after [E [B [Lt [Hb Ha]]]]]]]]; cbv zeta in *.
  - exists l0, v0, [], (combine labels values). rewrite E.
    split; [reflexivity|]. split; [reflexivity|].
    split; [intros x [] | exact H].
  - exists l, q, ((l0, v0) :: before), after. rewrite B, E.
    split; [reflexivity|]. split; [reflexivity|]. split; [|exact Ha].
    intros x [<-|I]; [exact Lt | exact (Hb x I)].
Qed.

Lemma topFamily_first_maximum_witness :
  exists l q before after,
    Executive.topFamily ["Nursing"; "Business"; "IT"] [3 # 2; 5 # 1; 5 # 1]
      = Some (l, Some q)
    /\ combine ["Nursing"; "Business"; "IT"] [3 # 2; 5 # 1; 5 # 1]
       = before ++ (l, q) :: after
    /\ (forall x, In x before -> (snd x < q)%Q)
    /\ (forall x, In x after -> (snd x <= q)%Q).
Proof.
  apply (topFamily_first_maximum ["Nursing"; "Business"; "IT"] [3 # 2; 5 # 1; 5 # 1]).
  - discriminate.
  - simpl. lia.
Defined.

Example topFamily_tie :
  Executive.topFamily ["Nursing"; "Business"; "IT"] [3 # 2; 5 # 1; 5 # 1]
  = Some ("Business", Some (5 # 1)).
Proof. reflexivity. Qed.

Example topFamily_missing_values :
  Executive.topFamily ["Nursing"; "Business"] [3 # 2]
  = Some ("Nursing", Some (3 # 2))
  /\ Executive.topFamily ["Nursing"] [] = None.
Proof. split; reflexivity. Qed.
